(** * ChatBox-Gin: channel adapters, rule engine, bot responder and
      inbound message orchestration

    A shallow embedding of the Go sources of the message pipeline

      webhook -> Channel.Normalize -> MessageService.ProcessInbound
              -> bot.Responder.Process (RuleEngine.Match + ResponseBuilder)
              -> Channel.Send

    Each Go struct is a record in a module of its own, so that the fields
    keep their Go names ([Rule.IsActive], [Message.Content], ...); a method
    keeps its name, prefixed by its receiver where two receivers share it
    ([MockChannel_Send], [FacebookChannel_Send]).
    Everything the code takes from outside the repository (the Go standard
    library, the database server, the Graph API) is a field of [Env]. *)

From Stdlib Require Import ZArith QArith String Ascii List Bool Lia DecimalString Sorted.
From stdpp Require Import base option list strings gmap.

#[local] Set Warnings "-register-all".
Local Open Scope Z_scope.
Local Open Scope string_scope.

(* ===================================================================== *)
(** ** Go values *)
(* ===================================================================== *)

(** [uuid.UUID]; [uuid.Nil] is the zero value. *)
Definition uuid := N.
Definition uuid_Nil : uuid := 0%N.

(** [time.Time]: an instant, in nanoseconds since the Unix epoch. *)
Definition Time := Z.

(** Arithmetic on [int64] wraps around. *)
Definition int64_wrap (z : Z) : Z :=
  ((z + 2 ^ 63) mod 2 ^ 64 - 2 ^ 63)%Z.

(** [time.Unix(sec, 0)]: a [Time] keeps its seconds as an [int64] counted
    from the year 1, 62135596800 seconds before the epoch, and the sum
    wraps around. *)
Definition time_Unix (sec : Z) : Time :=
  ((int64_wrap (sec + 62135596800) - 62135596800) * 1000000000)%Z.

(** [*time.Location]: the offset from UTC, in seconds, in force at a Unix
    second. *)
Definition Location := Z -> Z.
Definition UTC : Location := fun _ => 0%Z.

(** A Go [error] value, by its message. *)
Definition error := string.

(** The [(T, error)] results of fallible Go functions. *)
Inductive Result (A : Type) : Type :=
| Ok (a : A)
| Err (e : error).
Arguments Ok {A} a.
Arguments Err {A} e.

(** [interface{}] values as [encoding/json] decodes them. A JSON number is
    kept as the integer it denotes. *)
Inductive JValue : Type :=
| JNull
| JBool (b : bool)
| JNum (n : Z)
| JStr (s : string)
| JArr (items : list JValue)
| JObj (fields : list (string * JValue)).

(** [map[string]interface{}] *)
Abbreviation Payload := (gmap string JValue).

(** [fmt.Sprintf("%d", n)] *)
Definition format_int (n : Z) : string := NilZero.string_of_int (Z.to_int n).

(** [strings.Contains(s, substr)]: [substr] occurs in [s] at some offset. *)
Fixpoint Contains (s substr : string) : bool :=
  String.prefix substr s ||
  match s with
  | EmptyString => false
  | String _ rest => Contains rest substr
  end.

(** The outcome of an HTTP round trip: a transport error, or a response
    with its status code and body. *)
Inductive HttpOutcome : Type :=
| HttpError (err : error)
| HttpResponse (status : Z) (body : string).

(** The request body of the Graph API send call (facebook.go). *)
Module FBUser.
Record t : Type := mk { ID : string }.
End FBUser.

Module FBSendQR.
Record t : Type := mk { ContentType : string; Title : string; Payload_ : string }.
End FBSendQR.

Module FBSendMessage.
Record t : Type := mk { Text : string; QuickReplies : list FBSendQR.t }.
End FBSendMessage.

Module FBSendRequest.
Record t : Type := mk {
  Recipient : FBUser.t;
  Message_ : FBSendMessage.t;
  MessagingType : string
}.
End FBSendRequest.

(** What the code calls but the repository does not define. *)
Record Env : Type := {
  (** [strings.ToLower] *)
  ToLower : string -> string;
  (** [time.LoadLocation]: [None] when the name is not in the zone database *)
  LoadLocation : string -> option Location;
  (** the database server: whether its [n]-th statement fails *)
  db_fails : nat -> bool;
  (** the database server: [ORDER BY priority DESC] leaves the order of
      rows of one priority to it; the place it gives the row with a
      primary key among them in the answer to its [n]-th statement *)
  db_tie_rank : nat -> uuid -> N;
  (** [int64(f)] for a [float64] beyond the range of [int64], which the
      language leaves to the implementation *)
  int64_of_large_float64 : Z -> Z;
  (** [uuid.New()], by the number of identifiers drawn so far *)
  uuid_New : nat -> uuid;
  (** [http.Post(url, "application/json", body)] *)
  http_Post : string -> string -> HttpOutcome;
  (** [json.Unmarshal] of a Graph API send response: its ["message_id"],
      or the empty string when the body does not carry one *)
  response_message_id : string -> string;
  (** [uuid.UUID.String] *)
  uuid_String : uuid -> string;
  (** [json.Marshal] of the send request *)
  json_Marshal : FBSendRequest.t -> string
}.

(* ===================================================================== *)
(** ** package models: rule.go *)
(* ===================================================================== *)

Definition TriggerType := string.
Definition TriggerKeyword : TriggerType := "keyword".
Definition TriggerTimeWindow : TriggerType := "time_window".
Definition TriggerFallback : TriggerType := "fallback".
Definition TriggerIntent : TriggerType := "intent".

Definition ResponseType := string.
Definition ResponseText : ResponseType := "text".
Definition ResponseTemplate : ResponseType := "template".
Definition ResponseHandoff : ResponseType := "handoff".

Module TriggerConfig.
Record t : Type := mk {
  Keywords : list string;
  MatchType : string;
  StartTime : string;
  EndTime : string;
  Timezone : string;
  Days : list Z
}.
End TriggerConfig.

Module ResponseConfig.
Record t : Type := mk {
  Text : string;
  Message : string
}.
End ResponseConfig.

Module Rule.
Record t : Type := mk {
  ID : uuid;
  WorkspaceID : uuid;
  Name : string;
  TriggerType : TriggerType;
  TriggerConfig : TriggerConfig.t;
  ResponseType : ResponseType;
  ResponseConfig : ResponseConfig.t;
  Priority : Z;
  IsActive : bool;
  HitCount : Z;
  LastTriggeredAt : option Time
}.
End Rule.

Definition IsKeywordTrigger (r : Rule.t) : bool :=
  Rule.TriggerType r =? TriggerKeyword.
Definition IsTimeWindowTrigger (r : Rule.t) : bool :=
  Rule.TriggerType r =? TriggerTimeWindow.
Definition IsFallbackTrigger (r : Rule.t) : bool :=
  Rule.TriggerType r =? TriggerFallback.
Definition IsHandoffResponse (r : Rule.t) : bool :=
  Rule.ResponseType r =? ResponseHandoff.

Section RuleMatching.
Context (E : Env).

(** The [for _, keyword := range r.TriggerConfig.Keywords] loop of
    [MatchesKeyword]. *)
Fixpoint MatchesKeyword_loop (matchType contentLower : string)
    (keywords : list string) : bool :=
  match keywords with
  | [] => false
  | keyword :: rest =>
      let keywordLower := ToLower E keyword in
      if matchType =? "exact" then
        if contentLower =? keywordLower then true
        else MatchesKeyword_loop matchType contentLower rest
      else if matchType =? "contains" then
        if Contains contentLower keywordLower then true
        else MatchesKeyword_loop matchType contentLower rest
      else MatchesKeyword_loop matchType contentLower rest
  end.

Definition MatchesKeyword (r : Rule.t) (content : string) : bool :=
  if negb (IsKeywordTrigger r) then false
  else
    let contentLower := ToLower E content in
    let matchType := TriggerConfig.MatchType (Rule.TriggerConfig r) in
    let matchType := if matchType =? "" then "contains" else matchType in
    MatchesKeyword_loop matchType contentLower
      (TriggerConfig.Keywords (Rule.TriggerConfig r)).

(** [now.In(loc)], as the local wall clock in seconds. *)
Definition local_seconds (now : Time) (loc : Location) : Z :=
  let unix := (now / 1000000000)%Z in
  (unix + loc unix)%Z.

(** [localNow.Weekday()]: 0 is Sunday; 1 January 1970 was a Thursday. *)
Definition Weekday (local : Z) : Z := ((local / 86400 + 4) mod 7)%Z.

Definition two_digits (n : Z) : string :=
  format_int (n / 10)%Z +:+ format_int (n mod 10)%Z.

(** [localNow.Format("15:04")] *)
Definition Format_15_04 (local : Z) : string :=
  two_digits ((local mod 86400) / 3600)%Z +:+ ":" +:+
  two_digits ((local mod 3600) / 60)%Z.

(** The [for _, day := range tc.Days] loop of [MatchesTimeWindow]. *)
Fixpoint dayMatch_loop (weekday : Z) (days : list Z) : bool :=
  match days with
  | [] => false
  | day :: rest => if Z.eqb day weekday then true else dayMatch_loop weekday rest
  end.

Definition MatchesTimeWindow (r : Rule.t) (now : Time) : bool :=
  if negb (IsTimeWindowTrigger r) then false
  else
    let tc := Rule.TriggerConfig r in
    let loc := match LoadLocation E (TriggerConfig.Timezone tc) with
               | Some loc => loc
               | None => UTC
               end in
    let localNow := local_seconds now loc in
    if (negb (Nat.eqb (length (TriggerConfig.Days tc)) 0)
        && negb (dayMatch_loop (Weekday localNow) (TriggerConfig.Days tc)))%bool
    then false
    else
      let currentTime := Format_15_04 localNow in
      let StartTime := TriggerConfig.StartTime tc in
      let EndTime := TriggerConfig.EndTime tc in
      if String.ltb EndTime StartTime then
        (String.leb StartTime currentTime || String.leb currentTime EndTime)%bool
      else
        (String.leb StartTime currentTime && String.leb currentTime EndTime)%bool.

End RuleMatching.


(* ===================================================================== *)
(** ** package models: message.go, conversation.go, participant.go,
       channel_account.go *)
(* ===================================================================== *)

Definition MessageDirection := string.
Definition DirectionIn : MessageDirection := "in".
Definition DirectionOut : MessageDirection := "out".

Definition SenderType := string.
Definition SenderCustomer : SenderType := "customer".
Definition SenderBot : SenderType := "bot".
Definition SenderAgent : SenderType := "agent".

Definition ContentType := string.
Definition ContentText : ContentType := "text".

Module Attachment.
Record t : Type := mk {
  Type_ : string;
  URL : string;
  Name : string;
  Size : Z;
  MimeType : string
}.
End Attachment.

Module MessageMetadata.
Record t : Type := mk {
  MatchedRuleID : option uuid;
  MatchedKeyword : string;
  Confidence : Q
}.
Definition zero : t := mk None "" 0%Q.
End MessageMetadata.

Module Message.
Record t : Type := mk {
  ID : uuid;
  ConversationID : uuid;
  Direction : MessageDirection;
  SenderType : SenderType;
  Content : option string;
  ContentType : ContentType;
  Attachments : list Attachment.t;
  ChannelMessageID : option string;
  Metadata : MessageMetadata.t
}.
Definition with_ID (id : uuid) (m : t) : t :=
  mk id (ConversationID m) (Direction m) (SenderType m) (Content m)
    (ContentType m) (Attachments m) (ChannelMessageID m) (Metadata m).
Definition with_ChannelMessageID (c : option string) (m : t) : t :=
  mk (ID m) (ConversationID m) (Direction m) (SenderType m) (Content m)
    (ContentType m) (Attachments m) c (Metadata m).
End Message.

Definition ConversationStatus := string.
Definition StatusOpen : ConversationStatus := "open".
Definition StatusPending : ConversationStatus := "pending".
Definition StatusClosed : ConversationStatus := "closed".
Definition StatusBotPaused : ConversationStatus := "bot_paused".

Definition Priority := string.
Definition PriorityNormal : Priority := "normal".

Module ConversationMetadata.
Record t : Type := mk {
  BotHandoffReason : string;
  ClosedReason : string
}.
Definition zero : t := mk "" "".
End ConversationMetadata.

Module Conversation.
Record t : Type := mk {
  ID : uuid;
  WorkspaceID : uuid;
  ChannelAccountID : uuid;
  ParticipantID : uuid;
  Status : ConversationStatus;
  AssignedTo : option uuid;
  Priority : Priority;
  LastMessageAt : option Time;
  LastMessagePreview : option string;
  ResolvedAt : option Time;
  Metadata : ConversationMetadata.t
}.
Definition with_ID (id : uuid) (c : t) : t :=
  mk id (WorkspaceID c) (ChannelAccountID c) (ParticipantID c) (Status c)
    (AssignedTo c) (Priority c) (LastMessageAt c) (LastMessagePreview c)
    (ResolvedAt c) (Metadata c).
End Conversation.

Definition IsOpen (c : Conversation.t) : bool :=
  Conversation.Status c =? StatusOpen.
Definition IsClosed (c : Conversation.t) : bool :=
  Conversation.Status c =? StatusClosed.
Definition IsBotPaused (c : Conversation.t) : bool :=
  Conversation.Status c =? StatusBotPaused.

Definition Assign (userID : uuid) (c : Conversation.t) : Conversation.t :=
  Conversation.mk (Conversation.ID c) (Conversation.WorkspaceID c)
    (Conversation.ChannelAccountID c) (Conversation.ParticipantID c)
    (if Conversation.Status c =? StatusOpen then StatusPending
     else Conversation.Status c)
    (Some userID) (Conversation.Priority c) (Conversation.LastMessageAt c)
    (Conversation.LastMessagePreview c) (Conversation.ResolvedAt c)
    (Conversation.Metadata c).

Definition Close (reason : string) (now : Time) (c : Conversation.t)
    : Conversation.t :=
  Conversation.mk (Conversation.ID c) (Conversation.WorkspaceID c)
    (Conversation.ChannelAccountID c) (Conversation.ParticipantID c)
    StatusClosed
    (Conversation.AssignedTo c) (Conversation.Priority c)
    (Conversation.LastMessageAt c) (Conversation.LastMessagePreview c)
    (Some now)
    (ConversationMetadata.mk
       (ConversationMetadata.BotHandoffReason (Conversation.Metadata c)) reason).

Definition Reopen (c : Conversation.t) : Conversation.t :=
  Conversation.mk (Conversation.ID c) (Conversation.WorkspaceID c)
    (Conversation.ChannelAccountID c) (Conversation.ParticipantID c)
    StatusOpen
    (Conversation.AssignedTo c) (Conversation.Priority c)
    (Conversation.LastMessageAt c) (Conversation.LastMessagePreview c)
    None
    (ConversationMetadata.mk
       (ConversationMetadata.BotHandoffReason (Conversation.Metadata c)) "").

Definition PauseBot (reason : string) (c : Conversation.t) : Conversation.t :=
  Conversation.mk (Conversation.ID c) (Conversation.WorkspaceID c)
    (Conversation.ChannelAccountID c) (Conversation.ParticipantID c)
    StatusBotPaused
    (Conversation.AssignedTo c) (Conversation.Priority c)
    (Conversation.LastMessageAt c) (Conversation.LastMessagePreview c)
    (Conversation.ResolvedAt c)
    (ConversationMetadata.mk reason
       (ConversationMetadata.ClosedReason (Conversation.Metadata c))).

Definition ResumeBot (c : Conversation.t) : Conversation.t :=
  Conversation.mk (Conversation.ID c) (Conversation.WorkspaceID c)
    (Conversation.ChannelAccountID c) (Conversation.ParticipantID c)
    StatusOpen
    (Conversation.AssignedTo c) (Conversation.Priority c)
    (Conversation.LastMessageAt c) (Conversation.LastMessagePreview c)
    (Conversation.ResolvedAt c)
    (ConversationMetadata.mk ""
       (ConversationMetadata.ClosedReason (Conversation.Metadata c))).

(** [len(content)] is the length in bytes and [content[:497]] a byte
    slice: a [string] is its sequence of bytes. *)
Definition UpdateLastMessage (content : string) (at_ : Time)
    (c : Conversation.t) : Conversation.t :=
  let preview :=
    if (500 <? String.length content)%nat
    then substring 0 497 content +:+ "..."
    else content in
  Conversation.mk (Conversation.ID c) (Conversation.WorkspaceID c)
    (Conversation.ChannelAccountID c) (Conversation.ParticipantID c)
    (Conversation.Status c)
    (Conversation.AssignedTo c) (Conversation.Priority c)
    (Some at_) (Some preview)
    (Conversation.ResolvedAt c) (Conversation.Metadata c).

Module Participant.
Record t : Type := mk {
  ID : uuid;
  WorkspaceID : uuid;
  ChannelAccountID : uuid;
  ChannelUserID : string;
  Name : option string;
  AvatarURL : option string;
  FirstSeenAt : Time
}.
Definition with_ID (id : uuid) (p : t) : t :=
  mk id (WorkspaceID p) (ChannelAccountID p) (ChannelUserID p) (Name p)
    (AvatarURL p) (FirstSeenAt p).
End Participant.

Module ChannelCredentials.
Record t : Type := mk {
  PageAccessToken : string;
  AppSecret : string
}.
End ChannelCredentials.

Module ChannelAccount.
Record t : Type := mk {
  ID : uuid;
  WorkspaceID : uuid;
  ChannelType : string;
  Name : string;
  Credentials : ChannelCredentials.t;
  IsActive : bool
}.
End ChannelAccount.

(* ===================================================================== *)
(** ** package channel: channel.go *)
(* ===================================================================== *)

Module AttachmentData.
Record t : Type := mk {
  Type_ : string;
  URL : string;
  Name : string;
  Size : Z;
  MimeType : string
}.
End AttachmentData.

Module InboundMessage.
Record t : Type := mk {
  ChannelType : string;
  ChannelMessageID : string;
  SenderID : string;
  SenderName : string;
  SenderAvatar : string;
  RecipientID : string;
  ThreadID : string;
  Content : string;
  ContentType : string;
  Attachments : list AttachmentData.t;
  Timestamp : Time;
  RawPayload : Payload
}.
End InboundMessage.

Module QuickReplyData.
Record t : Type := mk { Title : string; Payload_ : string }.
End QuickReplyData.

Module ButtonData.
Record t : Type := mk { Type_ : string; Title : string; Payload_ : string }.
End ButtonData.

Module OutboundMessage.
Record t : Type := mk {
  RecipientID : string;
  ThreadID : string;
  Content : string;
  ContentType : string;
  Attachments : list AttachmentData.t;
  QuickReplies : list QuickReplyData.t;
  Buttons : list ButtonData.t;
  Metadata : Payload
}.
End OutboundMessage.

Module SendResult.
Record t : Type := mk {
  Success : bool;
  ChannelMessageID : string;
  Error : option error
}.
End SendResult.

(* ===================================================================== *)
(** ** package bot: rule_engine.go, response_builder.go (the stateless
       part) *)
(* ===================================================================== *)

Module MatchResult.
Record t : Type := mk {
  Matched : bool;
  Rule_ : option Rule.t;
  MatchedKeyword : string;
  Confidence : Q
}.
End MatchResult.

Section RuleEngine.
Context (E : Env).

(** The [for _, keyword := range rule.TriggerConfig.Keywords] loop of
    [matchKeyword]. *)
Fixpoint matchKeyword_loop (rule : Rule.t) (keywords : list string)
    : bool * string :=
  match keywords with
  | [] => (true, "")
  | keyword :: rest =>
      if MatchesKeyword E rule keyword then (true, keyword)
      else matchKeyword_loop rule rest
  end.

Definition matchKeyword (rule : Rule.t) (content : string) : bool * string :=
  if MatchesKeyword E rule content then
    matchKeyword_loop rule (TriggerConfig.Keywords (Rule.TriggerConfig rule))
  else (false, "").

(** The first loop of [Match]; [None] when it runs to its end. *)
Fixpoint Match_first_pass (now : Time) (rules : list Rule.t) (content : string)
    : option MatchResult.t :=
  match rules with
  | [] => None
  | rule :: rest =>
      if negb (Rule.IsActive rule) then Match_first_pass now rest content
      else if Rule.TriggerType rule =? TriggerKeyword then
        match matchKeyword rule content with
        | (true, keyword) =>
            Some (MatchResult.mk true (Some rule) keyword 1%Q)
        | (false, _) => Match_first_pass now rest content
        end
      else if Rule.TriggerType rule =? TriggerTimeWindow then
        if MatchesTimeWindow E rule now then
          Some (MatchResult.mk true (Some rule) "" 1%Q)
        else Match_first_pass now rest content
      else if Rule.TriggerType rule =? TriggerFallback then
        Match_first_pass now rest content
      else Match_first_pass now rest content
  end.

(** The second loop of [Match]. *)
Fixpoint Match_fallback_pass (rules : list Rule.t) : option MatchResult.t :=
  match rules with
  | [] => None
  | rule :: rest =>
      if ((Rule.TriggerType rule =? TriggerFallback) && Rule.IsActive rule)%bool
      then Some (MatchResult.mk true (Some rule) "" (1 # 2)%Q)
      else Match_fallback_pass rest
  end.

(** [Match]; [now] is the [time.Now()] it reads on entry. *)
Definition Match (now : Time) (rules : list Rule.t) (content : string)
    : MatchResult.t :=
  match Match_first_pass now rules content with
  | Some result => result
  | None =>
      match Match_fallback_pass rules with
      | Some result => result
      | None => MatchResult.mk false None "" 0%Q
      end
  end.

End RuleEngine.

Definition BuildFromRule (rule : Rule.t) (recipientID : string)
    : OutboundMessage.t :=
  let content :=
    if Rule.ResponseType rule =? ResponseText then
      ResponseConfig.Text (Rule.ResponseConfig rule)
    else if Rule.ResponseType rule =? ResponseTemplate then
      ResponseConfig.Text (Rule.ResponseConfig rule)
    else if Rule.ResponseType rule =? ResponseHandoff then
      if ResponseConfig.Message (Rule.ResponseConfig rule) =? ""
      then "Đang chuyển bạn đến nhân viên hỗ trợ..."
      else ResponseConfig.Message (Rule.ResponseConfig rule)
    else "" in
  OutboundMessage.mk recipientID "" content "text" [] [] [] ∅.

Module BotResponse.
Record t : Type := mk {
  ShouldReply : bool;
  Response : option OutboundMessage.t;
  ShouldHandoff : bool;
  HandoffReason : string;
  MatchedRule : option Rule.t;
  MatchedKeyword : string;
  Confidence : Q
}.
End BotResponse.

(* ===================================================================== *)
(** ** The world the pipeline runs in *)
(* ===================================================================== *)

(** The implementations of the [Channel] interface. *)
Inductive Channel : Type :=
| FacebookChannel
| MockChannel.

(** [realtime.MessageEvent] *)
Module MessageEvent.
Record t : Type := mk {
  MessageID : uuid;
  ConversationID : uuid;
  Direction : string;
  SenderType : string;
  Content : string;
  ParticipantName : string
}.
End MessageEvent.

(** What a run does besides changing the tables: log lines of the
    services, calls across the component boundaries with what they
    returned, round trips to the provider, and goroutines started and left
    to themselves. *)
Inductive Event : Type :=
| EvLog (level msg : string)
| EvProcess (workspaceID : uuid) (recipientID content : string)
    (result : Result BotResponse.t)
| EvSend (ch : Channel) (msg : OutboundMessage.t)
    (credentials : gmap string string) (result : Result SendResult.t)
| EvHttpPost (url body : string)
| EvGoPublishNewMessage (workspaceID : uuid) (event : MessageEvent.t)
| EvGoFetchAndUpdateFBProfile (participant : Participant.t)
    (channelAccountID : uuid).

Module World.
Record t : Type := mk {
  (** the tables, each in insertion order, which is the order of
      [created_at] *)
  participants : list Participant.t;
  conversations : list Conversation.t;
  messages : list Message.t;
  rules : list Rule.t;
  channel_accounts : list ChannelAccount.t;
  (** [Registry.channels] *)
  channels : gmap string Channel;
  (** [s.publisher != nil] *)
  publisher : bool;
  (** [MockChannel.sentMessages] *)
  sentMessages : list OutboundMessage.t;
  (** the wall clock, as [time.Now()] reads it *)
  now : Time;
  (** statements sent to the database so far *)
  db_statements : nat;
  (** identifiers drawn from [uuid.New()] so far *)
  uuids_drawn : nat;
  (** newest event first *)
  trace : list Event
}.

Definition set_participants (x : list Participant.t) (w : t) : t :=
  mk x (conversations w) (messages w) (rules w) (channel_accounts w)
    (channels w) (publisher w) (sentMessages w) (now w) (db_statements w)
    (uuids_drawn w) (trace w).
Definition set_conversations (x : list Conversation.t) (w : t) : t :=
  mk (participants w) x (messages w) (rules w) (channel_accounts w)
    (channels w) (publisher w) (sentMessages w) (now w) (db_statements w)
    (uuids_drawn w) (trace w).
Definition set_messages (x : list Message.t) (w : t) : t :=
  mk (participants w) (conversations w) x (rules w) (channel_accounts w)
    (channels w) (publisher w) (sentMessages w) (now w) (db_statements w)
    (uuids_drawn w) (trace w).
Definition set_rules (x : list Rule.t) (w : t) : t :=
  mk (participants w) (conversations w) (messages w) x (channel_accounts w)
    (channels w) (publisher w) (sentMessages w) (now w) (db_statements w)
    (uuids_drawn w) (trace w).
Definition set_sentMessages (x : list OutboundMessage.t) (w : t) : t :=
  mk (participants w) (conversations w) (messages w) (rules w)
    (channel_accounts w) (channels w) (publisher w) x (now w)
    (db_statements w) (uuids_drawn w) (trace w).
Definition set_db_statements (x : nat) (w : t) : t :=
  mk (participants w) (conversations w) (messages w) (rules w)
    (channel_accounts w) (channels w) (publisher w) (sentMessages w) (now w)
    x (uuids_drawn w) (trace w).
Definition set_uuids_drawn (x : nat) (w : t) : t :=
  mk (participants w) (conversations w) (messages w) (rules w)
    (channel_accounts w) (channels w) (publisher w) (sentMessages w) (now w)
    (db_statements w) x (trace w).
Definition set_trace (x : list Event) (w : t) : t :=
  mk (participants w) (conversations w) (messages w) (rules w)
    (channel_accounts w) (channels w) (publisher w) (sentMessages w) (now w)
    (db_statements w) (uuids_drawn w) x.
End World.

(** A Go function with effects: it changes the world and returns a value
    or an error. What it did before it failed stays done. *)
Definition M (A : Type) : Type := World.t -> Result A * World.t.

Definition ret {A : Type} (a : A) : M A := fun w => (Ok a, w).

Definition fail {A : Type} (e : error) : M A := fun w => (Err e, w).

Definition bind {A B : Type} (m : M A) (k : A -> M B) : M B :=
  fun w =>
    match m w with
    | (Ok a, w') => k a w'
    | (Err e, w') => (Err e, w')
    end.

Notation "x <- m ;; k" := (bind m (fun x => k))
  (at level 100, m at next level, right associativity).
Notation "m1 ;;; m2" := (bind m1 (fun _ => m2))
  (at level 100, right associativity).

(** [v, err := f(...)] with the error inspected by the caller. *)
Definition try {A : Type} (m : M A) : M (Result A) :=
  fun w => let '(r, w') := m w in (Ok r, w').

Definition get_world : M World.t := fun w => (Ok w, w).

Definition modify (f : World.t -> World.t) : M unit := fun w => (Ok tt, f w).

Definition emit (e : Event) : M unit :=
  modify (fun w => World.set_trace (e :: World.trace w) w).

Definition log (level msg : string) : M unit := emit (EvLog level msg).

(** A call across a component boundary, recorded with what it returned. *)
Definition traced {A : Type} (ev : Result A -> Event) (m : M A) : M A :=
  fun w =>
    let '(r, w') := m w in
    (r, World.set_trace (ev r :: World.trace w') w').

(** [time.Now()] *)
Definition time_Now : M Time := fun w => (Ok (World.now w), w).

(** The events of a run from [w] to [w']. *)
Definition events_since (w w' : World.t) : list Event :=
  take (length (World.trace w') - length (World.trace w)) (World.trace w').

(* ===================================================================== *)
(** ** package repositories (GORM) *)
(* ===================================================================== *)

(** [First] without an [Order]: the matching row with the least primary
    key. *)
Fixpoint first_by_ID {A : Type} (ID : A -> uuid) (rows : list A) : option A :=
  match rows with
  | [] => None
  | r :: rest =>
      match first_by_ID ID rest with
      | None => Some r
      | Some r' => if (ID r' <? ID r)%N then Some r' else Some r
      end
  end.

(** [Save]: every column of the row with this primary key is written; a
    row that is not there yet is inserted. *)
Definition save_row {A : Type} (ID : A -> uuid) (row : A) (rows : list A)
    : list A :=
  if existsb (fun r => (ID r =? ID row)%N) rows
  then map (fun r => if (ID r =? ID row)%N then row else r) rows
  else rows ++ [row].

(** [Order("priority DESC")]: a stable insertion sort by descending
    priority, in which rows of one priority keep the order they come in.
    The database leaves the order of rows of one priority open;
    [ruleRepo_FindActiveByWorkspace] hands the rows over in the order the
    database has ranked them in, so that among rows of one priority any
    order can come out. *)
Fixpoint insert_by_priority (r : Rule.t) (sorted : list Rule.t) : list Rule.t :=
  match sorted with
  | [] => [r]
  | r' :: rest =>
      if (Rule.Priority r' <=? Rule.Priority r)%Z then r :: r' :: rest
      else r' :: insert_by_priority r rest
  end.

Definition order_by_priority_desc (rows : list Rule.t) : list Rule.t :=
  foldr insert_by_priority [] rows.

(** The rows in ascending order of a ranking of their primary keys; rows
    of one rank keep the order they come in. *)
Fixpoint insert_by_rank (rank : uuid -> N) (r : Rule.t) (sorted : list Rule.t)
    : list Rule.t :=
  match sorted with
  | [] => [r]
  | r' :: rest =>
      if (rank (Rule.ID r) <=? rank (Rule.ID r'))%N then r :: r' :: rest
      else r' :: insert_by_rank rank r rest
  end.

Definition order_by_rank (rank : uuid -> N) (rows : list Rule.t)
    : list Rule.t :=
  foldr (insert_by_rank rank) [] rows.

Definition is_active_status (s : ConversationStatus) : bool :=
  ((s =? StatusOpen) || (s =? StatusPending) || (s =? StatusBotPaused))%bool.

Section Repositories.
Context (E : Env).

(** One statement sent to the database. *)
Definition db_exec : M unit :=
  fun w =>
    let n := World.db_statements w in
    let w' := World.set_db_statements (S n) w in
    if db_fails E n then (Err "database error", w') else (Ok tt, w').

Definition uuid_New_ : M uuid :=
  fun w =>
    let n := World.uuids_drawn w in
    (Ok (uuid_New E n), World.set_uuids_drawn (S n) w).

(** [BaseModel.BeforeCreate] *)
Definition BeforeCreate (id : uuid) : M uuid :=
  if (id =? uuid_Nil)%N then uuid_New_ else ret id.

(** *** participant_repo.go *)

Definition participantRepo_FindByChannelUserID (channelAccountID : uuid)
    (channelUserID : string) : M Participant.t :=
  db_exec ;;;
  w <- get_world ;;
  match first_by_ID Participant.ID
          (filter (fun p =>
                     (Participant.ChannelAccountID p =? channelAccountID)%N = true
                     /\ Participant.ChannelUserID p = channelUserID)
                  (World.participants w)) with
  | Some p => ret p
  | None => fail "record not found"
  end.

(** [Create] takes a pointer: the hook has written the identifier into
    the caller's struct whether or not the insert then succeeds. The
    struct is returned next to the error. *)
Definition participantRepo_Create (participant : Participant.t)
    : M (Participant.t * Result unit) :=
  id <- BeforeCreate (Participant.ID participant) ;;
  let participant := Participant.with_ID id participant in
  r <- try (db_exec ;;;
            modify (fun w =>
              World.set_participants (World.participants w ++ [participant]) w)) ;;
  ret (participant, r).

Definition participantRepo_FindOrCreate (participant : Participant.t)
    : M (Participant.t * bool) :=
  r <- try (participantRepo_FindByChannelUserID
              (Participant.ChannelAccountID participant)
              (Participant.ChannelUserID participant)) ;;
  match r with
  | Ok existing => ret (existing, false)
  | Err _ =>
      c <- participantRepo_Create participant ;;
      match c with
      | (_, Err err) => fail err
      | (participant, Ok _) => ret (participant, true)
      end
  end.

(** *** conversation_repo.go *)

Definition conversationRepo_FindOpenByParticipant (participantID : uuid)
    : M Conversation.t :=
  db_exec ;;;
  w <- get_world ;;
  match last (filter (fun c =>
                        (Conversation.ParticipantID c =? participantID)%N = true
                        /\ is_active_status (Conversation.Status c) = true)
                     (World.conversations w)) with
  | Some c => ret c
  | None => fail "record not found"
  end.

Definition conversationRepo_Create (conv : Conversation.t)
    : M (Conversation.t * Result unit) :=
  id <- BeforeCreate (Conversation.ID conv) ;;
  let conv := Conversation.with_ID id conv in
  r <- try (db_exec ;;;
            modify (fun w =>
              World.set_conversations (World.conversations w ++ [conv]) w)) ;;
  ret (conv, r).

Definition conversationRepo_FindOrCreate (conv : Conversation.t)
    : M (Conversation.t * bool) :=
  r <- try (conversationRepo_FindOpenByParticipant
              (Conversation.ParticipantID conv)) ;;
  match r with
  | Ok existing => ret (existing, false)
  | Err _ =>
      c <- conversationRepo_Create conv ;;
      match c with
      | (_, Err err) => fail err
      | (conv, Ok _) => ret (conv, true)
      end
  end.

Definition conversationRepo_Update (conv : Conversation.t) : M unit :=
  db_exec ;;;
  modify (fun w =>
    World.set_conversations
      (save_row Conversation.ID conv (World.conversations w)) w).

(** *** message_repo.go *)

Definition messageRepo_FindByChannelMessageID (channelMessageID : string)
    : M Message.t :=
  db_exec ;;;
  w <- get_world ;;
  match first_by_ID Message.ID
          (filter (fun m => Message.ChannelMessageID m = Some channelMessageID)
                  (World.messages w)) with
  | Some m => ret m
  | None => fail "record not found"
  end.

Definition messageRepo_Create (msg : Message.t)
    : M (Message.t * Result unit) :=
  id <- BeforeCreate (Message.ID msg) ;;
  let msg := Message.with_ID id msg in
  r <- try (db_exec ;;;
            modify (fun w => World.set_messages (World.messages w ++ [msg]) w)) ;;
  ret (msg, r).

Definition messageRepo_Update (msg : Message.t) : M unit :=
  db_exec ;;;
  modify (fun w =>
    World.set_messages (save_row Message.ID msg (World.messages w)) w).

(** *** rule_repo.go *)

Definition ruleRepo_FindActiveByWorkspace (workspaceID : uuid)
    : M (list Rule.t) :=
  w0 <- get_world ;;
  db_exec ;;;
  w <- get_world ;;
  ret (order_by_priority_desc
         (order_by_rank (db_tie_rank E (World.db_statements w0))
            (filter (fun r =>
                       (Rule.WorkspaceID r =? workspaceID)%N = true
                       /\ Rule.IsActive r = true)
                    (World.rules w)))).

Definition ruleRepo_IncrementHitCount (ruleID : uuid) : M unit :=
  now <- time_Now ;;
  db_exec ;;;
  modify (fun w =>
    World.set_rules
      (map (fun r =>
              if (Rule.ID r =? ruleID)%N then
                Rule.mk (Rule.ID r) (Rule.WorkspaceID r) (Rule.Name r)
                  (Rule.TriggerType r) (Rule.TriggerConfig r)
                  (Rule.ResponseType r) (Rule.ResponseConfig r)
                  (Rule.Priority r) (Rule.IsActive r)
                  (Rule.HitCount r + 1)%Z (Some now)
              else r)
           (World.rules w)) w).

(** *** channel_account_repo.go *)

Definition channelAccountRepo_FindByID (id : uuid) : M ChannelAccount.t :=
  db_exec ;;;
  w <- get_world ;;
  match first_by_ID ChannelAccount.ID
          (filter (fun a => (ChannelAccount.ID a =? id)%N = true)
                  (World.channel_accounts w)) with
  | Some a => ret a
  | None => fail "record not found"
  end.

End Repositories.

(* ===================================================================== *)
(** ** package channel: mock.go *)
(* ===================================================================== *)

(** [m[key]] on a decoded JSON object: the last binding of the key. *)
Fixpoint jobj_get (key : string) (fields : list (string * JValue))
    : option JValue :=
  match fields with
  | [] => None
  | (k, v) :: rest =>
      match jobj_get key rest with
      | Some v' => Some v'
      | None => if k =? key then Some v else None
      end
  end.

(** [getString] *)
Definition getString (m : list (string * JValue)) (key : string) : string :=
  match jobj_get key m with
  | Some (JStr v) => v
  | _ => ""
  end.

(** [v, ok := payload[key].(string)] *)
Definition assert_string (payload : Payload) (key : string) : string * bool :=
  match payload !! key with
  | Some (JStr v) => (v, true)
  | _ => ("", false)
  end.

(** The [for _, raw := range rawAttachments] loop of
    [MockChannel.Normalize]. *)
Fixpoint mock_attachments (rawAttachments : list JValue)
    : list AttachmentData.t :=
  match rawAttachments with
  | [] => []
  | JObj att :: rest =>
      AttachmentData.mk (getString att "type") (getString att "url")
        (getString att "name") 0 (getString att "mime_type")
      :: mock_attachments rest
  | _ :: rest => mock_attachments rest
  end.

Section MockChannel.
Context (E : Env).

Definition MockChannel_Type : string := "mock".

Definition MockChannel_Normalize (channelAccountID : uuid) (payload : Payload)
    : M InboundMessage.t :=
  let '(senderID, ok) := assert_string payload "sender_id" in
  if (negb ok || (senderID =? ""))%bool then
    fail "mock payload thiếu 'sender_id'"
  else
    let '(content, ok) := assert_string payload "message" in
    let content := if negb ok then "" else content in
    let '(messageID, ok) := assert_string payload "message_id" in
    messageID <-
      (if (negb ok || (messageID =? ""))%bool then
         now <- time_Now ;;
         ret ("mock_" +:+ senderID +:+ "_" +:+ format_int now)
       else ret messageID) ;;
    let '(senderName, _) := assert_string payload "sender_name" in
    timestamp <- time_Now ;;
    let timestamp :=
      match payload !! "timestamp" with
      | Some (JNum ts) =>
          time_Unix
            (if ((- 2 ^ 63 <=? ts) && (ts <? 2 ^ 63))%Z%bool then ts
             else int64_of_large_float64 E ts)
      | _ => timestamp
      end in
    let attachments :=
      match payload !! "attachments" with
      | Some (JArr rawAttachments) => mock_attachments rawAttachments
      | _ => []
      end in
    let contentType :=
      match attachments with
      | first :: _ =>
          if content =? "" then AttachmentData.Type_ first else "text"
      | [] => "text"
      end in
    ret (InboundMessage.mk "mock" messageID senderID senderName ""
           (uuid_String E channelAccountID) "" content contentType
           attachments timestamp payload).

Definition MockChannel_Send (msg : OutboundMessage.t)
    (credentials : gmap string string) : M SendResult.t :=
  if OutboundMessage.RecipientID msg =? "" then
    ret (SendResult.mk false "" (Some "recipient_id không được để trống"))
  else
    now <- time_Now ;;
    let messageID := "mock_sent_" +:+ format_int now in
    modify (fun w =>
      World.set_sentMessages (World.sentMessages w ++ [msg]) w) ;;;
    ret (SendResult.mk true messageID None).

Definition MockChannel_Verify (signature body secret : string) : bool := true.

End MockChannel.

(* ===================================================================== *)
(** ** package channel: facebook.go *)
(* ===================================================================== *)

Module FBAttachPayload.
Record t : Type := mk { URL : string; Title : string; Sticker : Z }.
End FBAttachPayload.

Module FBAttachment.
Record t : Type := mk { Type_ : string; Payload_ : FBAttachPayload.t }.
End FBAttachment.

Module FBQuickReply.
Record t : Type := mk { Payload_ : string }.
End FBQuickReply.

Module FBPostback.
Record t : Type := mk { Title : string; Payload_ : string }.
End FBPostback.

(** A slice is the elements within its length; what its backing array
    holds beyond the length is kept in a field of its own
    ([Attachments_spare], [Messaging_spare], [Entry_spare]), because a later
    decode into the slice decodes into these elements. *)
Module FBMessage.
Record t : Type := mk {
  MID : string;
  Text : string;
  Attachments : list FBAttachment.t;
  QuickReply : option FBQuickReply.t;
  Attachments_spare : list FBAttachment.t
}.
End FBMessage.

Module FBMessagingEvent.
Record t : Type := mk {
  Sender : FBUser.t;
  Recipient : FBUser.t;
  Timestamp : Z;
  Message_ : option FBMessage.t;
  Postback : option FBPostback.t
}.
End FBMessagingEvent.

Module FBWebhookEntry.
Record t : Type := mk {
  ID : string;
  Time_ : Z;
  Messaging : list FBMessagingEvent.t;
  Messaging_spare : list FBMessagingEvent.t
}.
End FBWebhookEntry.

Module FBWebhookPayload.
Record t : Type := mk {
  Object : string;
  Entry : list FBWebhookEntry.t;
  Entry_spare : list FBWebhookEntry.t
}.
End FBWebhookPayload.

(** [json.Unmarshal(json.Marshal(payload), &fbPayload)] of
    [encoding/json], for the struct types above.

    [Marshal] writes the keys of a map in ascending order of their bytes.
    [Unmarshal] takes the keys of an object in the order they are written,
    finds for each the struct field whose name it is up to case, and
    decodes the value into what the field holds at that moment: a [null]
    leaves a string, a number or a struct as it is and makes a pointer or
    a slice nil; an object is decoded into the struct that is there, field
    by field; an array is decoded element by element into the elements the
    backing array of the slice holds, a new element being the zero value. A
    value of another JSON type, and a number that is not an [int64], is an
    [UnmarshalTypeError]: [Unmarshal] goes on and returns the first of
    them at the end. The message of the error names the value and the
    field; here it is the same text for all of them. *)
Section JsonDecode.

Definition json_type_error : error :=
  "json: cannot unmarshal value into Go struct field".

(** Names are compared under Unicode simple case folding: a letter
    matches in either case, and besides the Kelvin sign (U+212A, the
    bytes E2 84 AA) matches [k] and the long s (U+017F, the bytes C5 BF)
    matches [s]. The field names are ASCII. *)
Definition ascii_fold (c : ascii) : ascii :=
  let n := nat_of_ascii c in
  if ((97 <=? n) && (n <=? 122))%nat then ascii_of_nat (n - 32) else c.

Fixpoint json_name_match (name key : string) : bool :=
  match name, key with
  | EmptyString, EmptyString => true
  | String c name', String b key' =>
      if (nat_of_ascii b <? 128)%nat then
        Ascii.eqb (ascii_fold b) (ascii_fold c) && json_name_match name' key'
      else if Ascii.eqb (ascii_fold c) "K" then
        match key' with
        | String b2 (String b3 key3) =>
            Ascii.eqb b (ascii_of_nat 226) && Ascii.eqb b2 (ascii_of_nat 132)
            && Ascii.eqb b3 (ascii_of_nat 170) && json_name_match name' key3
        | _ => false
        end
      else if Ascii.eqb (ascii_fold c) "S" then
        match key' with
        | String b2 key2 =>
            Ascii.eqb b (ascii_of_nat 197) && Ascii.eqb b2 (ascii_of_nat 191)
            && json_name_match name' key2
        | _ => false
        end
      else false
  | _, _ => false
  end.

(** Keys in ascending order of their bytes, each once. *)
Fixpoint insert_key (k : string) (sorted : list string) : list string :=
  match sorted with
  | [] => [k]
  | k' :: rest =>
      if k =? k' then sorted
      else if String.ltb k k' then k :: sorted
      else k' :: insert_key k rest
  end.

Definition keys_in_order (keys : list string) : list string :=
  foldr insert_key [] keys.

(** The values an object holds for a field, in the order [Unmarshal]
    meets them. *)
Definition object_values (name : string) (fields : list (string * JValue))
    : list JValue :=
  omap (fun k => jobj_get k fields)
    (keys_in_order (List.filter (json_name_match name) (map fst fields))).

Definition payload_values (name : string) (payload : Payload) : list JValue :=
  omap (fun k => payload !! k)
    (keys_in_order
       (List.filter (json_name_match name) (map fst (map_to_list payload)))).

(** One value after the other is decoded into a field. *)
Fixpoint into_all {T : Type} (into : T -> JValue -> Result T)
    (vals : list JValue) (cur : T) : Result T :=
  match vals with
  | [] => Ok cur
  | v :: rest =>
      match into cur v with
      | Ok t => into_all into rest t
      | Err e => Err e
      end
  end.

Definition into_string (cur : string) (v : JValue) : Result string :=
  match v with
  | JNull => Ok cur
  | JStr s => Ok s
  | _ => Err json_type_error
  end.

(** A [float64] that is an integer is written in digits, and is read back
    when it is within [int64]. *)
Definition into_int64 (cur : Z) (v : JValue) : Result Z :=
  match v with
  | JNull => Ok cur
  | JNum n =>
      if ((- 2 ^ 63 <=? n) && (n <? 2 ^ 63))%Z%bool then Ok n
      else Err json_type_error
  | _ => Err json_type_error
  end.

Definition into_pointer {T : Type} (zero : T)
    (into : T -> JValue -> Result T) (cur : option T) (v : JValue)
    : Result (option T) :=
  match v with
  | JNull => Ok None
  | _ =>
      match into (default zero cur) v with
      | Ok t => Ok (Some t)
      | Err e => Err e
      end
  end.

Fixpoint into_each {T : Type} (zero : T) (into : T -> JValue -> Result T)
    (backing : list T) (items : list JValue) : Result (list T) :=
  match items with
  | [] => Ok []
  | item :: rest =>
      match into (hd zero backing) item,
            into_each zero into (tl backing) rest with
      | Ok a, Ok l => Ok (a :: l)
      | Err e, _ => Err e
      | _, Err e => Err e
      end
  end.

(** A slice, with the spare elements of its backing array. An empty
    array gives a new empty slice. *)
Definition into_slice {T : Type} (zero : T) (into : T -> JValue -> Result T)
    (cur : list T * list T) (v : JValue) : Result (list T * list T) :=
  match v with
  | JNull => Ok ([], [])
  | JArr [] => Ok ([], [])
  | JArr items =>
      let backing := (fst cur ++ snd cur)%list in
      match into_each zero into backing items with
      | Ok l => Ok (l, drop (length items) backing)
      | Err e => Err e
      end
  | _ => Err json_type_error
  end.

Definition into_struct {T : Type}
    (fields : T -> list (string * JValue) -> Result T) (cur : T) (v : JValue)
    : Result T :=
  match v with
  | JNull => Ok cur
  | JObj f => fields cur f
  | _ => Err json_type_error
  end.

Definition into_FBUser : FBUser.t -> JValue -> Result FBUser.t :=
  into_struct (fun cur f =>
    match into_all into_string (object_values "id" f) (FBUser.ID cur) with
    | Ok id => Ok (FBUser.mk id)
    | Err e => Err e
    end).

Definition into_FBAttachPayload
    : FBAttachPayload.t -> JValue -> Result FBAttachPayload.t :=
  into_struct (fun cur f =>
    match into_all into_string (object_values "url" f)
            (FBAttachPayload.URL cur),
          into_all into_string (object_values "title" f)
            (FBAttachPayload.Title cur),
          into_all into_int64 (object_values "sticker_id" f)
            (FBAttachPayload.Sticker cur) with
    | Ok url, Ok title, Ok sticker => Ok (FBAttachPayload.mk url title sticker)
    | Err e, _, _ | _, Err e, _ | _, _, Err e => Err e
    end).

Definition into_FBAttachment
    : FBAttachment.t -> JValue -> Result FBAttachment.t :=
  into_struct (fun cur f =>
    match into_all into_string (object_values "type" f)
            (FBAttachment.Type_ cur),
          into_all into_FBAttachPayload (object_values "payload" f)
            (FBAttachment.Payload_ cur) with
    | Ok type, Ok payload => Ok (FBAttachment.mk type payload)
    | Err e, _ | _, Err e => Err e
    end).

Definition into_FBQuickReply
    : FBQuickReply.t -> JValue -> Result FBQuickReply.t :=
  into_struct (fun cur f =>
    match into_all into_string (object_values "payload" f)
            (FBQuickReply.Payload_ cur) with
    | Ok payload => Ok (FBQuickReply.mk payload)
    | Err e => Err e
    end).

Definition into_FBPostback : FBPostback.t -> JValue -> Result FBPostback.t :=
  into_struct (fun cur f =>
    match into_all into_string (object_values "title" f)
            (FBPostback.Title cur),
          into_all into_string (object_values "payload" f)
            (FBPostback.Payload_ cur) with
    | Ok title, Ok payload => Ok (FBPostback.mk title payload)
    | Err e, _ | _, Err e => Err e
    end).

Definition into_FBMessage : FBMessage.t -> JValue -> Result FBMessage.t :=
  into_struct (fun cur f =>
    match into_all into_string (object_values "mid" f) (FBMessage.MID cur),
          into_all into_string (object_values "text" f) (FBMessage.Text cur),
          into_all
            (into_slice (FBAttachment.mk "" (FBAttachPayload.mk "" "" 0))
               into_FBAttachment)
            (object_values "attachments" f)
            (FBMessage.Attachments cur, FBMessage.Attachments_spare cur),
          into_all (into_pointer (FBQuickReply.mk "") into_FBQuickReply)
            (object_values "quick_reply" f) (FBMessage.QuickReply cur) with
    | Ok mid, Ok text, Ok atts, Ok qr =>
        Ok (FBMessage.mk mid text (fst atts) qr (snd atts))
    | Err e, _, _, _ | _, Err e, _, _ | _, _, Err e, _ | _, _, _, Err e => Err e
    end).

Definition into_FBMessagingEvent
    : FBMessagingEvent.t -> JValue -> Result FBMessagingEvent.t :=
  into_struct (fun cur f =>
    match into_all into_FBUser (object_values "sender" f)
            (FBMessagingEvent.Sender cur),
          into_all into_FBUser (object_values "recipient" f)
            (FBMessagingEvent.Recipient cur),
          into_all into_int64 (object_values "timestamp" f)
            (FBMessagingEvent.Timestamp cur),
          into_all (into_pointer (FBMessage.mk "" "" [] None []) into_FBMessage)
            (object_values "message" f) (FBMessagingEvent.Message_ cur),
          into_all (into_pointer (FBPostback.mk "" "") into_FBPostback)
            (object_values "postback" f) (FBMessagingEvent.Postback cur) with
    | Ok s, Ok r, Ok ts, Ok m, Ok p => Ok (FBMessagingEvent.mk s r ts m p)
    | Err e, _, _, _, _ | _, Err e, _, _, _ | _, _, Err e, _, _
    | _, _, _, Err e, _ | _, _, _, _, Err e => Err e
    end).

Definition into_FBWebhookEntry
    : FBWebhookEntry.t -> JValue -> Result FBWebhookEntry.t :=
  into_struct (fun cur f =>
    match into_all into_string (object_values "id" f) (FBWebhookEntry.ID cur),
          into_all into_int64 (object_values "time" f)
            (FBWebhookEntry.Time_ cur),
          into_all
            (into_slice
               (FBMessagingEvent.mk (FBUser.mk "") (FBUser.mk "") 0 None None)
               into_FBMessagingEvent)
            (object_values "messaging" f)
            (FBWebhookEntry.Messaging cur, FBWebhookEntry.Messaging_spare cur)
    with
    | Ok id, Ok time, Ok messaging =>
        Ok (FBWebhookEntry.mk id time (fst messaging) (snd messaging))
    | Err e, _, _ | _, Err e, _ | _, _, Err e => Err e
    end).

Definition dec_FBWebhookPayload (payload : Payload)
    : Result FBWebhookPayload.t :=
  match into_all into_string (payload_values "object" payload) "",
        into_all (into_slice (FBWebhookEntry.mk "" 0 [] []) into_FBWebhookEntry)
          (payload_values "entry" payload) ([], []) with
  | Ok object, Ok entry => Ok (FBWebhookPayload.mk object (fst entry) (snd entry))
  | Err e, _ | _, Err e => Err e
  end.

End JsonDecode.

(** The [for _, att := range event.Message.Attachments] loop of
    [FacebookChannel.Normalize]: the attachments appended and the content
    type it leaves. *)
Fixpoint fb_attachments (contentType : string) (atts : list FBAttachment.t)
    : list AttachmentData.t * string :=
  match atts with
  | [] => ([], contentType)
  | att :: rest =>
      let attData :=
        AttachmentData.mk (FBAttachment.Type_ att)
          (FBAttachPayload.URL (FBAttachment.Payload_ att)) "" 0 "" in
      let contentType :=
        if ((contentType =? "text") && negb (FBAttachment.Type_ att =? ""))%bool
        then FBAttachment.Type_ att else contentType in
      let '(l, contentType) := fb_attachments contentType rest in
      (attData :: l, contentType)
  end.

Definition FacebookChannel_Type : string := "facebook".

Definition FacebookChannel_Normalize (channelAccountID : uuid)
    (payload : Payload) : M InboundMessage.t :=
  match dec_FBWebhookPayload payload with
  | Err e => fail ("unmarshal fb payload: " +:+ e)
  | Ok fbPayload =>
      if negb (FBWebhookPayload.Object fbPayload =? "page") then
        fail ("invalid object type: " +:+ FBWebhookPayload.Object fbPayload)
      else
        match FBWebhookPayload.Entry fbPayload with
        | [] => fail "no messaging events"
        | entry :: _ =>
            match FBWebhookEntry.Messaging entry with
            | [] => fail "no messaging events"
            | event :: _ =>
                let ChannelMessageID := "" in
                let Content := "" in
                let ContentType := "" in
                let Attachments := [] in
                let '(ChannelMessageID, Content, ContentType, Attachments) :=
                  match FBMessagingEvent.Message_ event with
                  | Some message =>
                      let '(atts, contentType) :=
                        fb_attachments "text" (FBMessage.Attachments message) in
                      let content :=
                        match FBMessage.QuickReply message with
                        | Some qr => FBQuickReply.Payload_ qr
                        | None => FBMessage.Text message
                        end in
                      (FBMessage.MID message, content, contentType, atts)
                  | None => (ChannelMessageID, Content, ContentType, Attachments)
                  end in
                let '(ChannelMessageID, Content, ContentType) :=
                  match FBMessagingEvent.Postback event with
                  | Some postback =>
                      ("postback_" +:+ format_int (FBMessagingEvent.Timestamp event),
                       FBPostback.Payload_ postback, "postback")
                  | None => (ChannelMessageID, Content, ContentType)
                  end in
                ret (InboundMessage.mk "facebook" ChannelMessageID
                       (FBUser.ID (FBMessagingEvent.Sender event)) "" ""
                       (FBUser.ID (FBMessagingEvent.Recipient event)) ""
                       Content ContentType Attachments
                       (FBMessagingEvent.Timestamp event * 1000000)%Z
                       payload)
            end
        end
  end.

Section FacebookSend.
Context (E : Env).

Definition FacebookChannel_Send (msg : OutboundMessage.t)
    (credentials : gmap string string) : M SendResult.t :=
  let accessToken := default "" (credentials !! "page_access_token") in
  if accessToken =? "" then
    ret (SendResult.mk false "" (Some "missing page_access_token"))
  else
    let fbReq :=
      FBSendRequest.mk (FBUser.mk (OutboundMessage.RecipientID msg))
        (FBSendMessage.mk (OutboundMessage.Content msg)
           (map (fun qr =>
                   FBSendQR.mk "text" (QuickReplyData.Title qr)
                     (QuickReplyData.Payload_ qr))
                (OutboundMessage.QuickReplies msg)))
        "RESPONSE" in
    let url :=
      "https://graph.facebook.com/v18.0/me/messages?access_token=" +:+
      accessToken in
    let jsonBody := json_Marshal E fbReq in
    emit (EvHttpPost url jsonBody) ;;;
    match http_Post E url jsonBody with
    | HttpError err => ret (SendResult.mk false "" (Some err))
    | HttpResponse status body =>
        if negb (status =? 200)%Z then
          log "error" "fb send failed" ;;;
          ret (SendResult.mk false "" (Some ("fb api error: " +:+ body)))
        else
          ret (SendResult.mk true (response_message_id E body) None)
    end.

End FacebookSend.

(* ===================================================================== *)
(** ** package channel: registry.go, and calls through the [Channel]
       interface *)
(* ===================================================================== *)

Definition Channel_Type (ch : Channel) : string :=
  match ch with
  | FacebookChannel => FacebookChannel_Type
  | MockChannel => MockChannel_Type
  end.

Definition Registry_Register (ch : Channel) (channels : gmap string Channel)
    : gmap string Channel :=
  <[Channel_Type ch := ch]> channels.

Definition Registry_Get (channels : gmap string Channel) (channelType : string)
    : Result Channel :=
  match channels !! channelType with
  | Some ch => Ok ch
  | None => Err ("channel type '" +:+ channelType +:+ "' chưa được đăng ký")
  end.

Definition Registry_Has (channels : gmap string Channel) (channelType : string)
    : bool :=
  match channels !! channelType with
  | Some _ => true
  | None => false
  end.

Section ChannelInterface.
Context (E : Env).

Definition Channel_Normalize (ch : Channel) (channelAccountID : uuid)
    (payload : Payload) : M InboundMessage.t :=
  match ch with
  | FacebookChannel => FacebookChannel_Normalize channelAccountID payload
  | MockChannel => MockChannel_Normalize E channelAccountID payload
  end.

Definition Channel_Send (ch : Channel) (msg : OutboundMessage.t)
    (credentials : gmap string string) : M SendResult.t :=
  traced (EvSend ch msg credentials)
    match ch with
    | FacebookChannel => FacebookChannel_Send E msg credentials
    | MockChannel => MockChannel_Send msg credentials
    end.

End ChannelInterface.

(* ===================================================================== *)
(** ** package bot: responder.go *)
(* ===================================================================== *)

Section Responder.
Context (E : Env).

Definition Process (workspaceID : uuid) (recipientID content : string)
    : M BotResponse.t :=
  traced (EvProcess workspaceID recipientID content)
    (r <- try (ruleRepo_FindActiveByWorkspace E workspaceID) ;;
     match r with
     | Err err => log "error" "failed to get rules" ;;; fail err
     | Ok rules =>
         if Nat.eqb (length rules) 0 then
           ret (BotResponse.mk false None false "" None "" 0%Q)
         else
           now <- time_Now ;;
           let matchResult := Match E now rules content in
           if negb (MatchResult.Matched matchResult) then
             ret (BotResponse.mk false None false "" None "" 0%Q)
           else
             match MatchResult.Rule_ matchResult with
             | None => fail "panic: nil pointer dereference"
             | Some rule =>
                 r <- try (ruleRepo_IncrementHitCount E (Rule.ID rule)) ;;
                 match r with
                 | Err _ => log "warn" "failed to increment hit count"
                 | Ok _ => ret tt
                 end ;;;
                 let MatchedKeyword := MatchResult.MatchedKeyword matchResult in
                 let Confidence := MatchResult.Confidence matchResult in
                 if IsHandoffResponse rule then
                   let Message := ResponseConfig.Message (Rule.ResponseConfig rule) in
                   let HandoffReason :=
                     if Message =? "" then "Customer requested agent"
                     else Message in
                   if negb (Message =? "") then
                     ret (BotResponse.mk true
                            (Some (BuildFromRule rule recipientID))
                            true HandoffReason (Some rule)
                            MatchedKeyword Confidence)
                   else
                     ret (BotResponse.mk false None
                            true HandoffReason (Some rule)
                            MatchedKeyword Confidence)
                 else
                   ret (BotResponse.mk true
                          (Some (BuildFromRule rule recipientID))
                          false "" (Some rule)
                          MatchedKeyword Confidence)
             end
     end).

End Responder.

(* ===================================================================== *)
(** ** package services: message_service.go, message_service_impl.go *)
(* ===================================================================== *)

Module ProcessResult.
Record t : Type := mk {
  ParticipantID : uuid;
  ParticipantCreated : bool;
  ConversationID : uuid;
  ConversationCreated : bool;
  MessageID : uuid;
  BotReplied : bool;
  BotHandoff : bool;
  ResponseSent : option OutboundMessage.t
}.
End ProcessResult.

Module botProcessResult.
Record t : Type := mk {
  ShouldReply : bool;
  ShouldHandoff : bool;
  ResponseSent : option OutboundMessage.t
}.
End botProcessResult.

Section MessageService.
Context (E : Env).

Definition findOrCreateParticipant (workspaceID channelAccountID : uuid)
    (inbound : InboundMessage.t) : M (Participant.t * bool) :=
  now <- time_Now ;;
  let participant :=
    Participant.mk uuid_Nil workspaceID channelAccountID
      (InboundMessage.SenderID inbound)
      (if InboundMessage.SenderName inbound =? "" then None
       else Some (InboundMessage.SenderName inbound))
      (if InboundMessage.SenderAvatar inbound =? "" then None
       else Some (InboundMessage.SenderAvatar inbound))
      now in
  x <- participantRepo_FindOrCreate E participant ;;
  match Participant.Name (fst x) with
  | None =>
      if InboundMessage.ChannelType inbound =? "facebook"
      then emit (EvGoFetchAndUpdateFBProfile (fst x) channelAccountID)
      else ret tt
  | Some _ => ret tt
  end ;;;
  ret x.

Definition findOrCreateConversation
    (workspaceID channelAccountID participantID : uuid)
    : M (Conversation.t * bool) :=
  let conversation :=
    Conversation.mk uuid_Nil workspaceID channelAccountID participantID
      StatusOpen None PriorityNormal None None None
      ConversationMetadata.zero in
  conversationRepo_FindOrCreate E conversation.

Definition saveMessage (conversationID : uuid) (inbound : InboundMessage.t)
    : M Message.t :=
  let message :=
    Message.mk uuid_Nil conversationID DirectionIn SenderCustomer
      (if InboundMessage.Content inbound =? "" then None
       else Some (InboundMessage.Content inbound))
      (InboundMessage.ContentType inbound)
      (map (fun att =>
              Attachment.mk (AttachmentData.Type_ att) (AttachmentData.URL att)
                (AttachmentData.Name att) (AttachmentData.Size att)
                (AttachmentData.MimeType att))
           (InboundMessage.Attachments inbound))
      (if InboundMessage.ChannelMessageID inbound =? "" then None
       else Some (InboundMessage.ChannelMessageID inbound))
      MessageMetadata.zero in
  c <- messageRepo_Create E message ;;
  match c with
  | (_, Err err) => fail err
  | (message, Ok _) => ret message
  end.

(** [conv] is a pointer: the caller sees the new preview whatever
    [Update] returns, so the struct is returned next to the error. *)
Definition updateConversationLastMessage (conv : Conversation.t)
    (inbound : InboundMessage.t) : M (Conversation.t * Result unit) :=
  let conv :=
    UpdateLastMessage (InboundMessage.Content inbound)
      (InboundMessage.Timestamp inbound) conv in
  r <- try (conversationRepo_Update E conv) ;;
  ret (conv, r).

(** The [if botResponse.ShouldHandoff] block of [processBotResponse]:
    [result.ShouldHandoff] as it leaves it. *)
Definition processBotResponse_handoff (conv : Conversation.t)
    (botResponse : BotResponse.t) : M bool :=
  if BotResponse.ShouldHandoff botResponse then
    let conv := PauseBot (BotResponse.HandoffReason botResponse) conv in
    r <- try (conversationRepo_Update E conv) ;;
    match r with
    | Err _ => log "warn" "failed to pause bot on conversation"
    | Ok _ => ret tt
    end ;;;
    ret true
  else ret false.

(** The reply block of [processBotResponse] from the channel lookup on:
    credentials, [Send], and the provider id written back. *)
Definition processBotResponse_send (channelAccountID : uuid)
    (inbound : InboundMessage.t) (response : OutboundMessage.t)
    (outboundMsg : Message.t) (ShouldHandoff : bool) : M botProcessResult.t :=
  w <- get_world ;;
  match Registry_Get (World.channels w) (InboundMessage.ChannelType inbound) with
  | Err err => fail err
  | Ok ch =>
      a <- try (channelAccountRepo_FindByID E channelAccountID) ;;
      match a with
      | Err _ =>
          log "warn" "failed to get channel account" ;;;
          ret (botProcessResult.mk false ShouldHandoff None)
      | Ok channelAcct =>
          let credentials : gmap string string :=
            <["page_access_token" :=
                ChannelCredentials.PageAccessToken
                  (ChannelAccount.Credentials channelAcct)]>
            (<["app_secret" :=
                ChannelCredentials.AppSecret
                  (ChannelAccount.Credentials channelAcct)]> ∅) in
          s <- try (Channel_Send E ch response credentials) ;;
          match s with
          | Err _ =>
              log "warn" "failed to send bot response" ;;;
              ret (botProcessResult.mk false ShouldHandoff None)
          | Ok sendResult =>
              if SendResult.Success sendResult then
                (if SendResult.ChannelMessageID sendResult =? ""
                 then ret tt
                 else
                   _ <- try (messageRepo_Update E
                               (Message.with_ChannelMessageID
                                  (Some (SendResult.ChannelMessageID sendResult))
                                  outboundMsg)) ;;
                   ret tt) ;;;
                ret (botProcessResult.mk true ShouldHandoff (Some response))
              else
                match SendResult.Error sendResult with
                | Some _ => log "warn" "channel send failed"
                | None => ret tt
                end ;;;
                ret (botProcessResult.mk false ShouldHandoff None)
          end
      end
  end.

(** The [if botResponse.ShouldReply && botResponse.Response != nil] block
    of [processBotResponse]: the reply is persisted, published and
    sent. *)
Definition processBotResponse_reply (workspaceID channelAccountID : uuid)
    (conv : Conversation.t) (inbound : InboundMessage.t)
    (botResponse : BotResponse.t) (response : OutboundMessage.t)
    (ShouldHandoff : bool) : M botProcessResult.t :=
  match BotResponse.MatchedRule botResponse with
  | None => fail "panic: nil pointer dereference"
  | Some MatchedRule =>
      let outboundMsg :=
        Message.mk uuid_Nil (Conversation.ID conv) DirectionOut SenderBot
          (Some (OutboundMessage.Content response)) ContentText [] None
          (MessageMetadata.mk (Some (Rule.ID MatchedRule))
             (BotResponse.MatchedKeyword botResponse)
             (BotResponse.Confidence botResponse)) in
      c <- messageRepo_Create E outboundMsg ;;
      match snd c with
      | Err _ => log "warn" "failed to save bot message"
      | Ok _ =>
          w <- get_world ;;
          if World.publisher w then
            emit (EvGoPublishNewMessage workspaceID
                    (MessageEvent.mk (Message.ID (fst c))
                       (Conversation.ID conv) DirectionOut SenderBot
                       (OutboundMessage.Content response) ""))
          else ret tt
      end ;;;
      processBotResponse_send channelAccountID inbound response (fst c)
        ShouldHandoff
  end.

Definition processBotResponse (workspaceID channelAccountID : uuid)
    (conv : Conversation.t) (inbound : InboundMessage.t)
    (inboundMsg : Message.t) : M botProcessResult.t :=
  botResponse <- Process E workspaceID (InboundMessage.SenderID inbound)
                   (InboundMessage.Content inbound) ;;
  ShouldHandoff <- processBotResponse_handoff conv botResponse ;;
  match BotResponse.ShouldReply botResponse, BotResponse.Response botResponse with
  | true, Some response =>
      processBotResponse_reply workspaceID channelAccountID conv inbound
        botResponse response ShouldHandoff
  | _, _ => ret (botProcessResult.mk false ShouldHandoff None)
  end.

(** The [if !conversation.IsBotPaused()] block of [ProcessInbound]: what
    [processBotResponse] returned, if it was called and returned no
    error. *)
Definition ProcessInbound_bot (workspaceID channelAccountID : uuid)
    (conversation : Conversation.t) (inbound : InboundMessage.t)
    (message : Message.t) : M (option botProcessResult.t) :=
  if negb (IsBotPaused conversation) then
    r <- try (processBotResponse workspaceID channelAccountID conversation
                inbound message) ;;
    match r with
    | Err _ => log "warn" "bot response failed" ;;; ret None
    | Ok botResponse => ret (Some botResponse)
    end
  else ret None.

Definition ProcessInbound (workspaceID channelAccountID : uuid)
    (inbound : InboundMessage.t) : M ProcessResult.t :=
  x <- findOrCreateParticipant workspaceID channelAccountID inbound ;;
  y <- findOrCreateConversation workspaceID channelAccountID
         (Participant.ID (fst x)) ;;
  message <- saveMessage (Conversation.ID (fst y)) inbound ;;
  z <- updateConversationLastMessage (fst y) inbound ;;
  match snd z with
  | Err _ => log "warn" "failed to update conversation last message"
  | Ok _ => ret tt
  end ;;;
  w <- get_world ;;
  (if World.publisher w then
     emit (EvGoPublishNewMessage workspaceID
             (MessageEvent.mk (Message.ID message) (Conversation.ID (fst z))
                (Message.Direction message) (Message.SenderType message)
                (InboundMessage.Content inbound)
                (InboundMessage.SenderName inbound)))
   else ret tt) ;;;
  botResponse <- ProcessInbound_bot workspaceID channelAccountID (fst z)
                   inbound message ;;
  ret (ProcessResult.mk (Participant.ID (fst x)) (snd x)
         (Conversation.ID (fst z)) (snd y)
         (Message.ID message)
         (match botResponse with
          | Some b => botProcessResult.ShouldReply b
          | None => false
          end)
         (match botResponse with
          | Some b => botProcessResult.ShouldHandoff b
          | None => false
          end)
         (match botResponse with
          | Some b => botProcessResult.ResponseSent b
          | None => None
          end)).

End MessageService.

(* ===================================================================== *)
(** ** package handlers: mock_handler.go *)
(* ===================================================================== *)

Module MockInboundRequest.
Record t : Type := mk {
  WorkspaceID : uuid;
  ChannelAccountID : uuid;
  SenderID : string;
  SenderName : string;
  Message_ : string;
  MessageID : string
}.
End MockInboundRequest.

Section MockHandler.
Context (E : Env).

(** [SimulateInbound], from the bound request to the [ProcessResult] its
    response is built from. *)
Definition SimulateInbound (req : MockInboundRequest.t) : M ProcessResult.t :=
  if ((MockInboundRequest.WorkspaceID req =? uuid_Nil)%N
      || (MockInboundRequest.ChannelAccountID req =? uuid_Nil)%N
      || (MockInboundRequest.SenderID req =? "")
      || (MockInboundRequest.Message_ req =? ""))%bool
  then fail "INVALID_REQUEST"
  else
    w <- get_world ;;
    match Registry_Get (World.channels w) "mock" with
    | Err _ => fail "CHANNEL_NOT_FOUND"
    | Ok ch =>
        let payload : Payload :=
          <["sender_id" := JStr (MockInboundRequest.SenderID req)]>
          (<["sender_name" := JStr (MockInboundRequest.SenderName req)]>
          (<["message" := JStr (MockInboundRequest.Message_ req)]>
          (<["message_id" := JStr (MockInboundRequest.MessageID req)]> ∅))) in
        r <- try (Channel_Normalize E ch
                    (MockInboundRequest.ChannelAccountID req) payload) ;;
        match r with
        | Err _ => fail "NORMALIZE_FAILED"
        | Ok inbound =>
            r <- try (ProcessInbound E (MockInboundRequest.WorkspaceID req)
                        (MockInboundRequest.ChannelAccountID req) inbound) ;;
            match r with
            | Err _ => fail "PROCESS_FAILED"
            | Ok result => ret result
            end
        end
    end.

End MockHandler.

(* ===================================================================== *)
(** ** A runtime and a workspace for the examples *)
(* ===================================================================== *)

Module Example.

(** [strings.ToLower] on ASCII text. *)
Definition lower_ascii (c : ascii) : ascii :=
  let n := nat_of_ascii c in
  if ((65 <=? n) && (n <=? 90))%nat then ascii_of_nat (n + 32) else c.

Fixpoint to_lower (s : string) : string :=
  match s with
  | EmptyString => EmptyString
  | String c rest => String (lower_ascii c) (to_lower rest)
  end.

(** A zone database with UTC and one zone seven hours east of it. *)
Definition load_location (name : string) : option Location :=
  if (name =? "") || (name =? "UTC") then Some UTC
  else if name =? "Asia/Ho_Chi_Minh" then Some (fun _ => 25200%Z)
  else None.

(** A database that answers every statement, a provider that accepts
    every message. *)
Definition env : Env :=
  {| ToLower := to_lower;
     LoadLocation := load_location;
     db_fails := fun _ => false;
     db_tie_rank := fun _ _ => 0%N;
     int64_of_large_float64 := fun _ => (- 2 ^ 63)%Z;
     uuid_New := fun n => N.of_nat (1000 + n);
     http_Post := fun _ _ => HttpResponse 200 "{}";
     response_message_id := fun _ => "mid.1";
     uuid_String := fun u => format_int (Z.of_N u);
     json_Marshal := fun req => FBSendMessage.Text (FBSendRequest.Message_ req) |}.

(** The same, with a database that fails the statement of one number. *)
Definition env_failing_at (k : nat) : Env :=
  {| ToLower := to_lower;
     LoadLocation := load_location;
     db_fails := fun n => (n =? k)%nat;
     db_tie_rank := fun _ _ => 0%N;
     int64_of_large_float64 := fun _ => (- 2 ^ 63)%Z;
     uuid_New := fun n => N.of_nat (1000 + n);
     http_Post := fun _ _ => HttpResponse 200 "{}";
     response_message_id := fun _ => "mid.1";
     uuid_String := fun u => format_int (Z.of_N u);
     json_Marshal := fun req => FBSendMessage.Text (FBSendRequest.Message_ req) |}.

(** The same, with a provider that refuses every message. *)
Definition env_provider_down : Env :=
  {| ToLower := to_lower;
     LoadLocation := load_location;
     db_fails := fun _ => false;
     db_tie_rank := fun _ _ => 0%N;
     int64_of_large_float64 := fun _ => (- 2 ^ 63)%Z;
     uuid_New := fun n => N.of_nat (1000 + n);
     http_Post := fun _ _ => HttpResponse 400 "bad request";
     response_message_id := fun _ => "";
     uuid_String := fun u => format_int (Z.of_N u);
     json_Marshal := fun req => FBSendMessage.Text (FBSendRequest.Message_ req) |}.

Definition keyword_rule (id : uuid) (priority : Z) (keywords : list string)
    (text : string) : Rule.t :=
  Rule.mk id 1%N "keyword rule" TriggerKeyword
    (TriggerConfig.mk keywords "contains" "" "" "" [])
    ResponseText (ResponseConfig.mk text "") priority true 0 None.

Definition fallback_rule (id : uuid) (priority : Z) (text : string) : Rule.t :=
  Rule.mk id 1%N "fallback rule" TriggerFallback
    (TriggerConfig.mk [] "" "" "" "" [])
    ResponseText (ResponseConfig.mk text "") priority true 0 None.

Definition handoff_rule (id : uuid) (priority : Z) (keywords : list string)
    (message : string) : Rule.t :=
  Rule.mk id 1%N "handoff rule" TriggerKeyword
    (TriggerConfig.mk keywords "contains" "" "" "" [])
    ResponseHandoff (ResponseConfig.mk "" message) priority true 0 None.

Definition night_rule : Rule.t :=
  Rule.mk 20%N 1%N "night shift" TriggerTimeWindow
    (TriggerConfig.mk [] "" "22:00" "06:00" "UTC" [])
    ResponseText (ResponseConfig.mk "We are closed" "") 5 true 0 None.

(** Workspace 1 with a mock channel account 2 and a Facebook channel
    account 3 that has no page access token. *)
Definition world (rules : list Rule.t) : World.t :=
  World.mk [] [] [] rules
    [ChannelAccount.mk 2%N 1%N "mock" "Mock" (ChannelCredentials.mk "" "") true;
     ChannelAccount.mk 3%N 1%N "facebook" "Page" (ChannelCredentials.mk "" "") true]
    (Registry_Register MockChannel (Registry_Register FacebookChannel ∅))
    true [] 1700000000000000000%Z 0 0 [].

Definition hello : MockInboundRequest.t :=
  MockInboundRequest.mk 1%N 2%N "u1" "Test" "Xin Chao" "m1".

(** Keyword rules at priorities 90 and 10 that both match the question
    below, and one at 50 that does not. *)
Definition r90 : Rule.t := keyword_rule 90%N 90 ["gia"] "Bang gia".
Definition r50 : Rule.t := keyword_rule 50%N 50 ["ship"] "Phi ship".
Definition r10 : Rule.t := keyword_rule 10%N 10 ["bao nhieu"] "Lien he".
Definition price_rules : list Rule.t := [r90; r50; r10].
Definition price_question : string := "Gia bao nhieu?".

Definition foo_bar_rule : Rule.t := keyword_rule 30%N 30 ["foo"; "bar"] "ok".

Definition greeting_rules : list Rule.t :=
  [keyword_rule 11%N 100 ["xin chao"] "Xin chao!"].

(** Office hours on working days, in a zone the database does not
    have. *)
Definition office_rule : Rule.t :=
  Rule.mk 21%N 1%N "office hours" TriggerTimeWindow
    (TriggerConfig.mk [] "" "08:00" "17:00" "Mars/Phobos" [1; 2; 3; 4; 5])
    ResponseText (ResponseConfig.mk "We are open" "") 5 true 0 None.

(** A Messenger delivery whose first event has no ["sender"]. *)
Definition fb_payload_without_sender : Payload :=
  <["object" := JStr "page"]>
  (<["entry" :=
      JArr [JObj [("id", JStr "page1");
                  ("messaging",
                   JArr [JObj [("recipient", JObj [("id", JStr "page1")]);
                               ("timestamp", JNum 1700000000000);
                               ("message",
                                JObj [("mid", JStr "m1");
                                      ("text", JStr "hi")])]])]]]> ∅).

(** The same kind of delivery from sender "u1", its keys written with
    capitals. *)
Definition fb_payload_capitals : Payload :=
  <["Object" := JStr "page"]>
  (<["Entry" :=
      JArr [JObj [("ID", JStr "page1");
                  ("Messaging",
                   JArr [JObj [("Sender", JObj [("ID", JStr "u1")]);
                               ("Recipient", JObj [("ID", JStr "page1")]);
                               ("Timestamp", JNum 1700000000000);
                               ("Message",
                                JObj [("MID", JStr "m1");
                                      ("Text", JStr "hi")])]])]]]> ∅).

(** A delivery whose first entry writes its identifier under ["ID"]. *)
Definition fb_payload_capital_ID : Payload :=
  <["object" := JStr "page"]>
  (<["entry" :=
      JArr [JObj [("ID", JStr "page1");
                  ("messaging",
                   JArr [JObj [("sender", JObj [("id", JStr "u1")]);
                               ("recipient", JObj [("id", JStr "page1")]);
                               ("timestamp", JNum 1700000000000);
                               ("message",
                                JObj [("mid", JStr "m1");
                                      ("text", JStr "hi")])]])]]]> ∅).

Definition mock_payload_without_sender : Payload :=
  <["message" := JStr "hi"]> (<["message_id" := JStr "m1"]> ∅).

Definition text_to (recipientID : string) : OutboundMessage.t :=
  OutboundMessage.mk recipientID "" "hi" "text" [] [] [] ∅.

(** A text message as an adapter normalizes it. *)
Definition text_from (channelType senderID messageID content : string)
    : InboundMessage.t :=
  InboundMessage.mk channelType messageID senderID "" "" "" "" content "text"
    [] 1700000000000000000%Z ∅.

Definition agent_rules : list Rule.t :=
  [handoff_rule 40%N 10 ["nhan vien"] "Cho chut nhe"].

End Example.

(* ===================================================================== *)
(** ** Specification vocabulary: the rule engine *)
(* ===================================================================== *)

Section RuleSpec.
Context (E : Env).

(** The match mode in force: an unset mode means containment. *)
Definition match_mode (r : Rule.t) : string :=
  if TriggerConfig.MatchType (Rule.TriggerConfig r) =? ""
  then "contains"
  else TriggerConfig.MatchType (Rule.TriggerConfig r).

(** [keyword] matches [content] under the rule's mode, case folded. *)
Definition keyword_matches (r : Rule.t) (content keyword : string) : bool :=
  ((match_mode r =? "exact") && (ToLower E content =? ToLower E keyword)
   || (match_mode r =? "contains")
      && Contains (ToLower E content) (ToLower E keyword))%bool.

(** The first configured keyword that matches the content. *)
Definition first_matching_keyword (r : Rule.t) (content : string)
    : option string :=
  List.find (keyword_matches r content)
    (TriggerConfig.Keywords (Rule.TriggerConfig r)).

(** An active rule of a type other than fallback that matches: a keyword
    rule one of whose keywords matches the content, or a time window rule
    whose window holds the instant. *)
Definition fires (now : Time) (content : string) (r : Rule.t) : bool :=
  (Rule.IsActive r
   && (IsKeywordTrigger r && MatchesKeyword E r content
       || IsTimeWindowTrigger r && MatchesTimeWindow E r now))%bool.

Definition active_fallback (r : Rule.t) : bool :=
  (IsFallbackTrigger r && Rule.IsActive r)%bool.

(** The rule the engine is to select, with its confidence: the first
    rule in list order that fires; failing that the first active
    fallback rule. *)
Definition select_rule (now : Time) (rules : list Rule.t) (content : string)
    : option (Rule.t * Q) :=
  match List.find (fires now content) rules with
  | Some r => Some (r, 1%Q)
  | None =>
      match List.find active_fallback rules with
      | Some r => Some (r, (1 # 2)%Q)
      | None => None
      end
  end.

(** The rule's zone, UTC when the zone database does not know it. *)
Definition rule_location (r : Rule.t) : Location :=
  match LoadLocation E (TriggerConfig.Timezone (Rule.TriggerConfig r)) with
  | Some loc => loc
  | None => UTC
  end.

End RuleSpec.

(** The hour and the minute a local wall clock shows. *)
Definition clock_hour (local : Z) : Z := (local mod 86400) / 3600.
Definition clock_minute (local : Z) : Z := (local mod 3600) / 60.

(** [cur] lies in the window from [start] to [end_], which runs over
    midnight when [start] is after [end_]. *)
Definition in_window (start end_ cur : string) : bool :=
  if String.ltb end_ start
  then (String.leb start cur || String.leb cur end_)%bool
  else (String.leb start cur && String.leb cur end_)%bool.

Definition priority_descending (rules : list Rule.t) : Prop :=
  StronglySorted (fun a b => (Rule.Priority b <= Rule.Priority a)%Z) rules.

(* ===================================================================== *)
(** ** Specification vocabulary: adapters and tables *)
(* ===================================================================== *)

(** The address of the Graph API send call for a page access token. *)
Definition fb_send_url (accessToken : string) : string :=
  "https://graph.facebook.com/v18.0/me/messages?access_token=" +:+ accessToken.

(** The [Message] rows that carry a provider message id. *)
Definition rows_with_channel_message_id (id : string) (w : World.t)
    : list Message.t :=
  filter (fun m => Message.ChannelMessageID m = Some id) (World.messages w).

(* ===================================================================== *)
(** ** Specification vocabulary: runs of the pipeline *)
(* ===================================================================== *)

(** The run from [w] to [w'] added the events [evs], newest first. *)
Definition extends (w : World.t) (evs : list Event) (w' : World.t) : Prop :=
  World.trace w' = (evs ++ World.trace w)%list.

(** A database that answers every statement. *)
Definition reliable (E : Env) : Prop := forall n, db_fails E n = false.

(** The events the statements about the pipeline speak of: a call of the
    responder, a call of [Send], and the log lines for a pause or a reply
    that could not be written and for credentials that could not be
    read. *)
Definition watched (e : Event) : bool :=
  match e with
  | EvProcess _ _ _ _ => true
  | EvSend _ _ _ _ => true
  | EvLog _ msg =>
      (msg =? "failed to pause bot on conversation")
      || (msg =? "failed to save bot message")
      || (msg =? "failed to get channel account")
  | _ => false
  end.

(** A run that added none of them. *)
Definition quiet (w w' : World.t) : Prop :=
  exists evs, extends w evs w' /\ Forall (fun e => watched e = false) evs.

(** A run that left a part of the world as it was. *)
Definition keeps {X : Type} (part : World.t -> X) (w w' : World.t) : Prop :=
  part w' = part w.

(** Every run of [m] is in the relation [R]. *)
Definition steps {A : Type} (R : World.t -> World.t -> Prop) (m : M A) : Prop :=
  forall w r w', m w = (r, w') -> R w w'.

(** The participant a channel user id resolves to, and the conversation a
    participant's deliveries resolve to. *)
Definition participant_of (channelAccountID : uuid) (channelUserID : string)
    (w : World.t) : option Participant.t :=
  first_by_ID Participant.ID
    (filter (fun p =>
               (Participant.ChannelAccountID p =? channelAccountID)%N = true
               /\ Participant.ChannelUserID p = channelUserID)
            (World.participants w)).

Definition active_conversation_of (participantID : uuid) (w : World.t)
    : option Conversation.t :=
  last (filter (fun c =>
                  (Conversation.ParticipantID c =? participantID)%N = true
                  /\ is_active_status (Conversation.Status c) = true)
               (World.conversations w)).

(** A bot-authored outbound row of a conversation with this content. *)
Definition bot_reply_row (conversationID : uuid) (content : string)
    (m : Message.t) : Prop :=
  Message.ConversationID m = conversationID
  /\ Message.Direction m = DirectionOut
  /\ Message.SenderType m = SenderBot
  /\ Message.Content m = Some content.

(** The frames of the pipeline: quiet runs that write at most one of the
    participants, the conversations and the messages. *)
Definition undisturbed (w w' : World.t) : Prop :=
  quiet w w' /\ keeps World.participants w w'
  /\ keeps World.conversations w w' /\ keeps World.messages w w'.

Definition writes_participants (w w' : World.t) : Prop :=
  quiet w w' /\ keeps World.conversations w w' /\ keeps World.messages w w'.

Definition writes_conversations (w w' : World.t) : Prop :=
  quiet w w' /\ keeps World.participants w w' /\ keeps World.messages w w'.

Definition writes_messages (w w' : World.t) : Prop :=
  quiet w w' /\ keeps World.participants w w' /\ keeps World.conversations w w'.


(* ===================================================================== *)
(** * The rest of the packages *)
(* ===================================================================== *)

(* ===================================================================== *)
(** ** package channel: registry.go, mock.go, facebook.go (the rest) *)
(* ===================================================================== *)

Definition NewRegistry : gmap string Channel := ∅.

(** [GetAll] ranges over the map; Go fixes no order for that, and the
    order here is one of those it can take. *)
Definition Registry_GetAll (channels : gmap string Channel) : list string :=
  (map_to_list channels).*1.

Definition Registry_Count (channels : gmap string Channel) : nat :=
  size channels.

(** [s[:n]]: a run-time panic when [n] is not within [0, len(s)]. *)
Definition slice_to (s : string) (n : Z) : Result string :=
  if ((n <? 0) || (Z.of_nat (String.length s) <? n))%Z%bool
  then Err "panic: slice bounds out of range"
  else Ok (substring 0 (Z.to_nat n) s).

(** [truncate] of mock.go *)
Definition truncate (s : string) (maxLen : Z) : Result string :=
  if (Z.of_nat (String.length s) <=? maxLen)%Z then Ok s
  else
    match slice_to s (maxLen - 3) with
    | Ok head => Ok (head +:+ "...")
    | Err e => Err e
    end.

Definition MockChannel_GetSentMessages : M (list OutboundMessage.t) :=
  w <- get_world ;;
  ret (World.sentMessages w).

Definition MockChannel_ClearSentMessages : M unit :=
  modify (World.set_sentMessages []).

Definition MockChannel_GetLastSentMessage : M (option OutboundMessage.t) :=
  w <- get_world ;;
  if Nat.eqb (length (World.sentMessages w)) 0 then ret None
  else
    ret (nth_error (World.sentMessages w)
           (length (World.sentMessages w) - 1)%nat).

Section FacebookVerify.

(** [hex.EncodeToString] of the HMAC-SHA256 of a message under a key
    (crypto/hmac, crypto/sha256), by key and message. *)
Variable hmac_sha256_hex : string -> string -> string.

(** [hmac.Equal] is equality of the two byte strings. *)
Definition FacebookChannel_Verify (signature body secret : string) : bool :=
  if negb (String.prefix "sha256=" signature) then false
  else
    let expectedSig := substring 7 (String.length signature - 7) signature in
    let actualSig := hmac_sha256_hex secret body in
    expectedSig =? actualSig.

End FacebookVerify.

(* ===================================================================== *)
(** ** package models (the rest) *)
(* ===================================================================== *)

Definition HasAttachments (m : Message.t) : bool :=
  (0 <? length (Message.Attachments m))%nat.

Definition GetContentPreview (m : Message.t) (maxLen : Z) : Result string :=
  match Message.Content m with
  | None => if HasAttachments m then Ok "[Attachment]" else Ok ""
  | Some content =>
      if (maxLen <? Z.of_nat (String.length content))%Z then
        match slice_to content (maxLen - 3) with
        | Ok head => Ok (head +:+ "...")
        | Err e => Err e
        end
      else Ok content
  end.

(** workspace.go *)
Module WorkingHours.
Record t : Type := mk {
  Start : string;
  End_ : string;
  Days : list Z
}.
End WorkingHours.

Module WorkspaceSettings.
Record t : Type := mk {
  Timezone : string;
  WorkingHours : option WorkingHours.t;
  BotEnabled : bool;
  Language : string
}.
End WorkspaceSettings.

Module Workspace.
Record t : Type := mk {
  ID : uuid;
  Name : string;
  Slug : string;
  Settings : WorkspaceSettings.t;
  IsActive : bool
}.
End Workspace.

(** The [for _, day := range wh.Days] loop of [IsWithinWorkingHours]. *)
Fixpoint isWorkingDay_loop (weekday : Z) (days : list Z) : bool :=
  match days with
  | [] => false
  | day :: rest =>
      if Z.eqb day weekday then true else isWorkingDay_loop weekday rest
  end.

(** [now] is a [time.Time]: an instant together with the location its
    wall clock is read in. *)
Definition IsWithinWorkingHours (w : Workspace.t) (now : Time)
    (loc : Location) : bool :=
  match WorkspaceSettings.WorkingHours (Workspace.Settings w) with
  | None => true
  | Some wh =>
      let local := local_seconds now loc in
      let weekday := Weekday local in
      if negb (isWorkingDay_loop weekday (WorkingHours.Days wh)) then false
      else
        let currentTime := Format_15_04 local in
        (String.leb (WorkingHours.Start wh) currentTime
         && String.leb currentTime (WorkingHours.End_ wh))%bool
  end.

(* ===================================================================== *)
(** ** package bot, package dto (the rest) *)
(* ===================================================================== *)

(** [truncateForLog] of responder.go *)
Definition truncateForLog (s : string) (maxLen : Z) : Result string :=
  if (Z.of_nat (String.length s) <=? maxLen)%Z then Ok s
  else
    match slice_to s (maxLen - 3) with
    | Ok head => Ok (head +:+ "...")
    | Err e => Err e
    end.

(** Arithmetic on [int], 64 bits wide, wraps around. *)
Definition int_wrap (z : Z) : Z :=
  ((z + 2 ^ 63) mod 2 ^ 64 - 2 ^ 63)%Z.

Module PaginationRequest.
Record t : Type := mk {
  Page : Z;
  Limit : Z
}.
End PaginationRequest.

Definition PaginationRequest_SetDefaults (p : PaginationRequest.t)
    : PaginationRequest.t :=
  let Page := if (PaginationRequest.Page p <=? 0)%Z then 1%Z
              else PaginationRequest.Page p in
  let Limit := if (PaginationRequest.Limit p <=? 0)%Z then 20%Z
               else PaginationRequest.Limit p in
  PaginationRequest.mk Page Limit.

Definition PaginationRequest_Offset (p : PaginationRequest.t) : Z :=
  int_wrap (int_wrap (PaginationRequest.Page p - 1)
            * PaginationRequest.Limit p).

(* ===================================================================== *)
(** ** package repositories, package handlers (the rest) *)
(* ===================================================================== *)

Section MoreRepositories.
Context (E : Env).

(** [First(&participant, id)]: the row with this primary key. *)
Definition participantRepo_FindByID (id : uuid) : M Participant.t :=
  db_exec E ;;;
  w <- get_world ;;
  match first_by_ID Participant.ID
          (filter (fun p => (Participant.ID p =? id)%N = true)
                  (World.participants w)) with
  | Some p => ret p
  | None => fail "record not found"
  end.

(** [sendToChannel] of conversation_handler.go, which [SendMessage]
    starts as a goroutine after it has saved the agent's message. *)
Definition sendToChannel (conv : Conversation.t) (msg : Message.t) : M unit :=
  p <- try (participantRepo_FindByID (Conversation.ParticipantID conv)) ;;
  match p with
  | Err _ => log "warn" "sendToChannel: failed to get participant"
  | Ok participant =>
      a <- try (channelAccountRepo_FindByID E
                  (Conversation.ChannelAccountID conv)) ;;
      match a with
      | Err _ => log "warn" "sendToChannel: failed to get channel account"
      | Ok channelAccount =>
          w <- get_world ;;
          match Registry_Get (World.channels w)
                  (ChannelAccount.ChannelType channelAccount) with
          | Err _ => log "warn" "sendToChannel: channel not found"
          | Ok ch =>
              let content :=
                match Message.Content msg with
                | Some c => c
                | None => ""
                end in
              let outbound :=
                OutboundMessage.mk (Participant.ChannelUserID participant) ""
                  content (Message.ContentType msg) [] [] [] ∅ in
              let credentials : gmap string string :=
                <["page_access_token" :=
                    ChannelCredentials.PageAccessToken
                      (ChannelAccount.Credentials channelAccount)]> ∅ in
              s <- try (Channel_Send E ch outbound credentials) ;;
              match s with
              | Err _ => log "warn" "sendToChannel: send failed"
              | Ok result =>
                  if SendResult.Success result then
                    u <- try (messageRepo_Update E
                                (Message.with_ChannelMessageID
                                   (Some (SendResult.ChannelMessageID result))
                                   msg)) ;;
                    match u with
                    | Err _ =>
                        log "warn" "sendToChannel: failed to update message ID"
                    | Ok _ => ret tt
                    end
                  else log "warn" "sendToChannel: channel returned error"
              end
          end
      end
  end.

End MoreRepositories.

(** [extractPageID] of webhook_handler.go *)
Definition extractPageID (payload : Payload) : string :=
  match payload !! "entry" with
  | Some (JArr (JObj entry :: _)) => getString entry "id"
  | _ => ""
  end.

Module MockOutboundRequest.
Record t : Type := mk {
  RecipientID : string;
  Message_ : string;
  QuickReplies : list QuickReplyData.t
}.
End MockOutboundRequest.

Section MoreMockHandler.
Context (E : Env).

(** [SimulateOutbound], from the bound request to the ["message_id"] of
    its response; the [binding:"required"] fields are not empty. [Send]
    is given a nil map of credentials. *)
Definition SimulateOutbound (req : MockOutboundRequest.t) : M string :=
  if ((MockOutboundRequest.RecipientID req =? "")
      || (MockOutboundRequest.Message_ req =? ""))%bool
  then fail "INVALID_REQUEST"
  else
    w <- get_world ;;
    match Registry_Get (World.channels w) "mock" with
    | Err _ => fail "CHANNEL_NOT_FOUND"
    | Ok ch =>
        let outbound :=
          OutboundMessage.mk (MockOutboundRequest.RecipientID req) ""
            (MockOutboundRequest.Message_ req) "text" []
            (MockOutboundRequest.QuickReplies req) [] ∅ in
        s <- try (Channel_Send E ch outbound ∅) ;;
        match s with
        | Err _ => fail "SEND_FAILED"
        | Ok result =>
            if negb (SendResult.Success result) then
              match SendResult.Error result with
              | Some _ => fail "SEND_FAILED"
              | None => fail "panic: nil pointer dereference"
              end
            else ret (SendResult.ChannelMessageID result)
        end
    end.

(** [GetSentMessages] of the handler: the count and the messages of its
    response. *)
Definition MockHandler_GetSentMessages : M (nat * list OutboundMessage.t) :=
  w <- get_world ;;
  match Registry_Get (World.channels w) "mock" with
  | Err _ => fail "CHANNEL_NOT_FOUND"
  | Ok MockChannel =>
      messages <- MockChannel_GetSentMessages ;;
      ret (length messages, messages)
  | Ok _ => fail "INVALID_CHANNEL"
  end.

Definition MockHandler_ClearSentMessages : M unit :=
  w <- get_world ;;
  match Registry_Get (World.channels w) "mock" with
  | Err _ => fail "CHANNEL_NOT_FOUND"
  | Ok MockChannel => MockChannel_ClearSentMessages
  | Ok _ => fail "INVALID_CHANNEL"
  end.

End MoreMockHandler.

(* ===================================================================== *)
(** ** Vocabulary for the rest *)
(* ===================================================================== *)

(** Every adapter of a registry is filed under its own type. *)
Definition filed_by_type (channels : gmap string Channel) : Prop :=
  forall channelType ch,
    channels !! channelType = Some ch -> Channel_Type ch = channelType.

(** Two states of a rule that differ at most in the hit statistics. *)
Definition same_settings (r r' : Rule.t) : Prop :=
  Rule.ID r' = Rule.ID r
  /\ Rule.WorkspaceID r' = Rule.WorkspaceID r
  /\ Rule.Name r' = Rule.Name r
  /\ Rule.TriggerType r' = Rule.TriggerType r
  /\ Rule.TriggerConfig r' = Rule.TriggerConfig r
  /\ Rule.ResponseType r' = Rule.ResponseType r
  /\ Rule.ResponseConfig r' = Rule.ResponseConfig r
  /\ Rule.Priority r' = Rule.Priority r
  /\ Rule.IsActive r' = Rule.IsActive r.

(** The active rules of a workspace, in table order. *)
Definition active_rules (workspaceID : uuid) (w : World.t) : list Rule.t :=
  filter (fun r =>
            (Rule.WorkspaceID r =? workspaceID)%N = true
            /\ Rule.IsActive r = true)
         (World.rules w).

(** The active rules of a workspace as the statement sent from [w]
    returns them: by descending priority, rows of one priority as the
    database ranks them. *)
Definition rules_as_read (E : Env) (workspaceID : uuid) (w : World.t)
    : list Rule.t :=
  order_by_priority_desc
    (order_by_rank (db_tie_rank E (World.db_statements w))
       (active_rules workspaceID w)).

(** Every run of [m] ends in a value of [P] or in the error of a failed
    database statement. *)
Definition db_fallible {A : Type} (P : A -> Prop) (m : M A) : Prop :=
  forall w r w', m w = (r, w') ->
    match r with
    | Ok a => P a
    | Err e => e = "database error"
    end.

(** The result a [Create] hands back next to the struct. *)
Definition db_result {A : Type} (c : A * Result unit) : Prop :=
  match snd c with
  | Ok _ => True
  | Err e => e = "database error"
  end.

(** The credentials [processBotResponse] reads from a channel account. *)
Definition credentials_of (a : ChannelAccount.t) : gmap string string :=
  <["page_access_token" :=
      ChannelCredentials.PageAccessToken (ChannelAccount.Credentials a)]>
  (<["app_secret" :=
      ChannelCredentials.AppSecret (ChannelAccount.Credentials a)]> ∅).

(** A call of [Send] that is made on the adapter registered for a channel
    type, with a message for one recipient and the credentials of one
    channel account. Other events are not constrained. *)
Definition routed_event (channels : gmap string Channel)
    (accounts : list ChannelAccount.t) (channelType : string)
    (channelAccountID : uuid) (recipientID : string) (e : Event) : Prop :=
  match e with
  | EvSend ch msg credentials _ =>
      Registry_Get channels channelType = Ok ch
      /\ OutboundMessage.RecipientID msg = recipientID
      /\ exists a,
           In a accounts
           /\ ChannelAccount.ID a = channelAccountID
           /\ credentials = credentials_of a
  | _ => True
  end.

(** A run that leaves the registry and the channel accounts alone and
    makes only such calls of [Send]. *)
Definition routed (channelType : string) (channelAccountID : uuid)
    (recipientID : string) (w w' : World.t) : Prop :=
  World.channels w' = World.channels w
  /\ World.channel_accounts w' = World.channel_accounts w
  /\ exists evs,
       extends w evs w'
       /\ Forall (routed_event (World.channels w) (World.channel_accounts w)
                    channelType channelAccountID recipientID) evs.
(* ===================================================================== *)
(** * Theorems *)
(* ===================================================================== *)

(* ===================================================================== *)
(** ** Strings *)
(* ===================================================================== *)

Lemma prefix_refl (s : string) : String.prefix s s = true.
Proof.
  induction s as [|c s IH]; simpl; [reflexivity|].
  destruct (ascii_dec c c); [assumption|congruence].
Qed.

Lemma Contains_refl (s : string) : Contains s s = true.
Proof.
  destruct s as [|c s]; simpl; [reflexivity|].
  rewrite prefix_refl. destruct (ascii_dec c c); [reflexivity|congruence].
Qed.

(* ===================================================================== *)
(** ** The rule engine *)
(* ===================================================================== *)

Section RuleEngineFacts.
Context (E : Env).

Lemma MatchesKeyword_loop_existsb (r : Rule.t) (content : string)
    (keywords : list string) :
  MatchesKeyword_loop E (match_mode r) (ToLower E content) keywords
  = existsb (keyword_matches E r content) keywords.
Proof.
  induction keywords as [|k keywords IH]; simpl; [reflexivity|].
  unfold keyword_matches at 1. rewrite IH.
  destruct (match_mode r =? "exact") eqn:He; simpl.
  - destruct (ToLower E content =? ToLower E k); simpl; [reflexivity|].
    destruct (match_mode r =? "contains") eqn:Hc; simpl; [|reflexivity].
    apply String.eqb_eq in He, Hc. congruence.
  - destruct (match_mode r =? "contains"); simpl; [|reflexivity].
    destruct (Contains (ToLower E content) (ToLower E k)); reflexivity.
Qed.

(** [MatchesKeyword] holds when the rule is a keyword rule and one of its
    keywords matches. *)
Lemma MatchesKeyword_spec (r : Rule.t) (content : string) :
  MatchesKeyword E r content
  = (IsKeywordTrigger r
     && existsb (keyword_matches E r content)
          (TriggerConfig.Keywords (Rule.TriggerConfig r)))%bool.
Proof.
  unfold MatchesKeyword. destruct (IsKeywordTrigger r); simpl; [|reflexivity].
  apply MatchesKeyword_loop_existsb.
Qed.

Lemma keyword_matches_self (r : Rule.t) (content k k' : string) :
  keyword_matches E r content k' = true -> keyword_matches E r k k = true.
Proof.
  unfold keyword_matches. intros H.
  rewrite String.eqb_refl, Contains_refl.
  destruct (match_mode r =? "exact"), (match_mode r =? "contains");
    simpl in *; congruence.
Qed.

(** What [matchKeyword] reports is the head of the keyword list: each
    keyword is tested against itself, not against the content. *)
Lemma matchKeyword_reports_first_keyword (r : Rule.t) (content : string) :
  matchKeyword E r content
  = if MatchesKeyword E r content
    then (true, hd "" (TriggerConfig.Keywords (Rule.TriggerConfig r)))
    else (false, "").
Proof.
  unfold matchKeyword. destruct (MatchesKeyword E r content) eqn:Hm; [|reflexivity].
  rewrite MatchesKeyword_spec in Hm. apply andb_prop in Hm as [Hk Hex].
  destruct (TriggerConfig.Keywords (Rule.TriggerConfig r)) as [|k rest] eqn:Hkw;
    [discriminate|].
  apply existsb_exists in Hex as (k' & _ & Hk').
  simpl. rewrite MatchesKeyword_spec, Hk, Hkw. simpl.
  rewrite (keyword_matches_self r content k k' Hk'). reflexivity.
Qed.

Lemma matchKeyword_fst (r : Rule.t) (content : string) :
  fst (matchKeyword E r content) = MatchesKeyword E r content.
Proof.
  rewrite matchKeyword_reports_first_keyword.
  destruct (MatchesKeyword E r content); reflexivity.
Qed.

Lemma trigger_types_apart (r : Rule.t) :
  (IsKeywordTrigger r = true -> IsTimeWindowTrigger r = false)
  /\ (IsKeywordTrigger r = true -> IsFallbackTrigger r = false)
  /\ (IsTimeWindowTrigger r = true -> IsFallbackTrigger r = false).
Proof.
  unfold IsKeywordTrigger, IsTimeWindowTrigger, IsFallbackTrigger.
  repeat split; intros H; apply String.eqb_eq in H; rewrite H; reflexivity.
Qed.

(** The first loop of [Match] stops at the first rule that fires. *)
Lemma Match_first_pass_find (now : Time) (rules : list Rule.t) (content : string) :
  match List.find (fires E now content) rules with
  | Some r =>
      exists keyword,
        Match_first_pass E now rules content
        = Some (MatchResult.mk true (Some r) keyword 1%Q)
  | None => Match_first_pass E now rules content = None
  end.
Proof.
  induction rules as [|r rules IH]; simpl; [reflexivity|].
  unfold fires at 1.
  destruct (Rule.IsActive r); simpl; [|exact IH].
  fold (IsKeywordTrigger r). fold (IsTimeWindowTrigger r).
  fold (IsFallbackTrigger r).
  destruct (IsKeywordTrigger r) eqn:Hk; simpl.
  - pose proof (matchKeyword_fst r content) as Hf.
    destruct (matchKeyword E r content) as [[|] kw]; simpl in Hf; rewrite <- Hf; simpl.
    + eexists; reflexivity.
    + rewrite (proj1 (trigger_types_apart r) Hk). simpl. exact IH.
  - destruct (IsTimeWindowTrigger r) eqn:Ht; simpl.
    + destruct (MatchesTimeWindow E r now); simpl; [|exact IH].
      eexists; reflexivity.
    + destruct (IsFallbackTrigger r); exact IH.
Qed.

Lemma Match_fallback_pass_find (rules : list Rule.t) :
  Match_fallback_pass rules
  = match List.find active_fallback rules with
    | Some r => Some (MatchResult.mk true (Some r) "" (1 # 2)%Q)
    | None => None
    end.
Proof.
  induction rules as [|r rules IH]; simpl; [reflexivity|].
  unfold active_fallback at 1, IsFallbackTrigger.
  destruct ((Rule.TriggerType r =? TriggerFallback) && Rule.IsActive r)%bool;
    [reflexivity|exact IH].
Qed.

(** In a list sorted by descending priority, the first element that
    passes a test has the greatest priority among those that do. *)
Lemma find_sorted_max (f : Rule.t -> bool) (rules : list Rule.t) (r : Rule.t) :
  priority_descending rules -> In r rules -> f r = true ->
  exists r0, List.find f rules = Some r0 /\ f r0 = true
             /\ (Rule.Priority r <= Rule.Priority r0)%Z.
Proof.
  intros Hs. induction Hs as [|a rules Hs IH Ha]; intros Hin Hf; [destruct Hin|].
  simpl. destruct (f a) eqn:Hfa.
  - exists a. repeat split; [assumption|].
    destruct Hin as [->|Hin]; [lia|].
    rewrite Forall_forall in Ha. apply (Ha r). apply list_elem_of_In. exact Hin.
  - destruct Hin as [->|Hin]; [congruence|]. apply IH; assumption.
Qed.

End RuleEngineFacts.

(** C2: [Match] returns the first rule in list order that is active, is
    not a fallback rule and matches, with confidence 1; when no rule does,
    the first active fallback rule with confidence 1/2; when there is none
    either, [Matched = false]. On a list in descending order of priority
    the rule returned therefore has the greatest priority among the rules
    that match. *)
Theorem C2_Match_first_hit_then_fallback (E : Env) (now : Time)
    (rules : list Rule.t) (content : string) :
  match select_rule E now rules content with
  | Some (r, confidence) =>
      MatchResult.Matched (Match E now rules content) = true
      /\ MatchResult.Rule_ (Match E now rules content) = Some r
      /\ MatchResult.Confidence (Match E now rules content) = confidence
  | None => Match E now rules content = MatchResult.mk false None "" 0%Q
  end
  /\ (forall r,
        priority_descending rules -> In r rules -> fires E now content r = true ->
        exists r0,
          MatchResult.Matched (Match E now rules content) = true
          /\ MatchResult.Rule_ (Match E now rules content) = Some r0
          /\ MatchResult.Confidence (Match E now rules content) = 1%Q
          /\ fires E now content r0 = true
          /\ (Rule.Priority r <= Rule.Priority r0)%Z).
Proof.
  pose proof (Match_first_pass_find E now rules content) as H1.
  pose proof (Match_fallback_pass_find rules) as H2.
  split.
  - unfold select_rule, Match.
    destruct (List.find (fires E now content) rules) as [r|].
    + destruct H1 as (kw & ->). simpl. auto.
    + rewrite H1, H2.
      destruct (List.find active_fallback rules) as [r|]; simpl; auto.
  - intros r Hs Hin Hf.
    destruct (find_sorted_max (fires E now content) rules r Hs Hin Hf)
      as (r0 & Hfind & Hf0 & Hle).
    rewrite Hfind in H1. destruct H1 as (kw & H1).
    exists r0. unfold Match. rewrite H1. simpl. auto.
Qed.

Lemma C2_Match_witness :
  exists r0,
    MatchResult.Rule_
      (Match Example.env 0 Example.price_rules Example.price_question)
    = Some r0
    /\ (Rule.Priority Example.r10 <= Rule.Priority r0)%Z.
Proof.
  destruct (proj2 (C2_Match_first_hit_then_fallback Example.env 0
                     Example.price_rules Example.price_question) Example.r10)
    as (r0 & _ & Hr & _ & _ & Hp).
  - repeat constructor; vm_compute; discriminate.
  - simpl. auto.
  - reflexivity.
  - exists r0. split; assumption.
Defined.

(** The priority ordering example of the specification: of the rules at
    priorities 90, 50 and 10, those at 90 and 10 match and the one at 90
    is returned; with no keyword rule matching, an active fallback rule is
    returned with confidence 1/2. *)
Example Match_priority_example :
  fires Example.env 0 Example.price_question Example.r90 = true
  /\ fires Example.env 0 Example.price_question Example.r10 = true
  /\ MatchResult.Rule_
       (Match Example.env 0 Example.price_rules Example.price_question)
     = Some Example.r90
  /\ Match Example.env 0
       (Example.price_rules ++ [Example.fallback_rule 1%N 0 "?"]) "hello"
     = MatchResult.mk true (Some (Example.fallback_rule 1%N 0 "?")) "" (1 # 2)%Q.
Proof. repeat split; reflexivity. Qed.

(** C3: a keyword rule with the keywords "foo" and "bar" is selected for
    the content "bar" with confidence 1, and its [MatchedKeyword] is
    "foo", a keyword that does not match the content; the first configured
    keyword that matches the content is "bar". *)
Theorem C3_MatchedKeyword_is_not_the_matching_keyword :
  let result := Match Example.env 0 [Example.foo_bar_rule] "bar" in
  MatchResult.Matched result = true
  /\ MatchResult.Rule_ result = Some Example.foo_bar_rule
  /\ MatchResult.Confidence result = 1%Q
  /\ MatchResult.MatchedKeyword result = "foo"
  /\ keyword_matches Example.env Example.foo_bar_rule "bar" "foo" = false
  /\ first_matching_keyword Example.env Example.foo_bar_rule "bar" = Some "bar".
Proof. repeat split; reflexivity. Qed.

(* ===================================================================== *)
(** ** Time windows *)
(* ===================================================================== *)

Lemma dayMatch_loop_In (weekday : Z) (days : list Z) :
  dayMatch_loop weekday days = true <-> In weekday days.
Proof.
  induction days as [|d days IH]; simpl; [split; [discriminate|tauto]|].
  destruct (Z.eqb_spec d weekday) as [->|Hne]; [tauto|].
  rewrite IH. split; [tauto|]. intros [H|H]; [congruence|assumption].
Qed.

Lemma Format_15_04_clock (local : Z) :
  Format_15_04 local
  = two_digits (clock_hour local) +:+ ":" +:+ two_digits (clock_minute local).
Proof. reflexivity. Qed.

(** [MatchesTimeWindow] on a time window rule, by the local wall clock. *)
Lemma MatchesTimeWindow_spec (E : Env) (r : Rule.t) (now : Time) :
  IsTimeWindowTrigger r = true ->
  let tc := Rule.TriggerConfig r in
  let local := local_seconds now (rule_location E r) in
  MatchesTimeWindow E r now
  = (if (negb (Nat.eqb (length (TriggerConfig.Days tc)) 0)
         && negb (dayMatch_loop (Weekday local) (TriggerConfig.Days tc)))%bool
     then false
     else in_window (TriggerConfig.StartTime tc) (TriggerConfig.EndTime tc)
            (Format_15_04 local)).
Proof. intros Ht. unfold MatchesTimeWindow. rewrite Ht. reflexivity. Qed.

(** C4: a time window rule is evaluated on the wall clock of the rule's
    zone, which is UTC when the zone name is not known; it does not match
    on a weekday that a non-empty [Days] list leaves out; otherwise it
    matches when the local HH:mm lies in the window, a window whose start
    is after its end running over midnight. From 22:00 to 06:00 it matches
    at 23:30 and at 02:00 and does not match at 12:00. *)
Theorem C4_MatchesTimeWindow (E : Env) (r : Rule.t) (now : Time) :
  IsTimeWindowTrigger r = true ->
  let tc := Rule.TriggerConfig r in
  let local := local_seconds now (rule_location E r) in
  (LoadLocation E (TriggerConfig.Timezone tc) = None ->
   local = local_seconds now UTC)
  /\ (TriggerConfig.Days tc <> [] -> ~ In (Weekday local) (TriggerConfig.Days tc) ->
      MatchesTimeWindow E r now = false)
  /\ (TriggerConfig.Days tc = [] \/ In (Weekday local) (TriggerConfig.Days tc) ->
      MatchesTimeWindow E r now
      = in_window (TriggerConfig.StartTime tc) (TriggerConfig.EndTime tc)
          (Format_15_04 local))
  /\ (TriggerConfig.Days tc = [] \/ In (Weekday local) (TriggerConfig.Days tc) ->
      TriggerConfig.StartTime tc = "22:00" -> TriggerConfig.EndTime tc = "06:00" ->
      (clock_hour local = 23 -> clock_minute local = 30 ->
       MatchesTimeWindow E r now = true)
      /\ (clock_hour local = 2 -> clock_minute local = 0 ->
          MatchesTimeWindow E r now = true)
      /\ (clock_hour local = 12 -> clock_minute local = 0 ->
          MatchesTimeWindow E r now = false)).
Proof.
  intros Ht tc local.
  pose proof (MatchesTimeWindow_spec E r now Ht) as Hspec. cbv zeta in Hspec.
  fold tc in Hspec. fold local in Hspec.
  assert (Hdays : TriggerConfig.Days tc = [] \/ In (Weekday local) (TriggerConfig.Days tc) ->
                  MatchesTimeWindow E r now
                  = in_window (TriggerConfig.StartTime tc) (TriggerConfig.EndTime tc)
                      (Format_15_04 local)).
  { intros [Hd|Hd]; rewrite Hspec.
    - rewrite Hd. reflexivity.
    - apply dayMatch_loop_In in Hd. rewrite Hd, andb_false_r. reflexivity. }
  split; [|split; [|split]].
  - intros Hl. unfold local, rule_location. fold tc. rewrite Hl. reflexivity.
  - intros Hne Hnin. rewrite Hspec.
    destruct (TriggerConfig.Days tc) as [|d days] eqn:Hd; [congruence|].
    destruct (dayMatch_loop (Weekday local) (d :: days)) eqn:Hm; [|reflexivity].
    apply dayMatch_loop_In in Hm. contradiction.
  - exact Hdays.
  - intros Hd Hs He. rewrite (Hdays Hd), Hs, He, Format_15_04_clock.
    repeat split; intros -> ->; reflexivity.
Qed.

(** The night shift rule at 23:30, 02:00 and 12:00 UTC of 1 January 1970;
    the office hours rule, whose zone is unknown, on that Thursday at
    09:00 UTC and on the Sunday after it. *)
Lemma C4_MatchesTimeWindow_witness :
  MatchesTimeWindow Example.env Example.night_rule (84600 * 1000000000) = true
  /\ MatchesTimeWindow Example.env Example.night_rule (7200 * 1000000000) = true
  /\ MatchesTimeWindow Example.env Example.night_rule (43200 * 1000000000) = false
  /\ local_seconds (32400 * 1000000000) (rule_location Example.env Example.office_rule)
     = 32400
  /\ MatchesTimeWindow Example.env Example.office_rule (32400 * 1000000000) = true
  /\ MatchesTimeWindow Example.env Example.office_rule (291600 * 1000000000) = false.
Proof.
  repeat apply conj.
  - destruct (C4_MatchesTimeWindow Example.env Example.night_rule
                (84600 * 1000000000) eq_refl) as (_ & _ & _ & H).
    destruct (H (or_introl eq_refl) eq_refl eq_refl) as (H1 & _ & _).
    apply H1; reflexivity.
  - destruct (C4_MatchesTimeWindow Example.env Example.night_rule
                (7200 * 1000000000) eq_refl) as (_ & _ & _ & H).
    destruct (H (or_introl eq_refl) eq_refl eq_refl) as (_ & H2 & _).
    apply H2; reflexivity.
  - destruct (C4_MatchesTimeWindow Example.env Example.night_rule
                (43200 * 1000000000) eq_refl) as (_ & _ & _ & H).
    destruct (H (or_introl eq_refl) eq_refl eq_refl) as (_ & _ & H3).
    apply H3; reflexivity.
  - destruct (C4_MatchesTimeWindow Example.env Example.office_rule
                (32400 * 1000000000) eq_refl) as (H & _).
    rewrite (H eq_refl). reflexivity.
  - destruct (C4_MatchesTimeWindow Example.env Example.office_rule
                (32400 * 1000000000) eq_refl) as (_ & _ & H & _).
    rewrite H; [reflexivity|]. right. vm_compute. auto.
  - destruct (C4_MatchesTimeWindow Example.env Example.office_rule
                (291600 * 1000000000) eq_refl) as (_ & H & _).
    apply H; [discriminate|]. vm_compute. intuition discriminate.
Defined.

(* ===================================================================== *)
(** ** Runs of effectful functions *)
(* ===================================================================== *)

(** Forward: the run of a sequence from the runs of its parts. *)

Lemma bind_ok {A B : Type} (m : M A) (k : A -> M B) (w w1 : World.t) (a : A) :
  m w = (Ok a, w1) -> bind m k w = k a w1.
Proof. intros H. unfold bind. rewrite H. reflexivity. Qed.

Lemma bind_err {A B : Type} (m : M A) (k : A -> M B) (w w1 : World.t) (e : error) :
  m w = (Err e, w1) -> bind m k w = (Err e, w1).
Proof. intros H. unfold bind. rewrite H. reflexivity. Qed.

Lemma try_run {A : Type} (m : M A) (w w1 : World.t) (r : Result A) :
  m w = (r, w1) -> try m w = (Ok r, w1).
Proof. intros H. unfold try. rewrite H. reflexivity. Qed.

Lemma traced_run {A : Type} (ev : Result A -> Event) (m : M A)
    (w w1 : World.t) (r : Result A) :
  m w = (r, w1) ->
  traced ev m w = (r, World.set_trace (ev r :: World.trace w1) w1).
Proof. intros H. unfold traced. rewrite H. reflexivity. Qed.

Lemma bind_ret {A B : Type} (a : A) (k : A -> M B) (w : World.t) :
  bind (ret a) k w = k a w.
Proof. reflexivity. Qed.

Lemma bind_fail {A B : Type} (e : error) (k : A -> M B) (w : World.t) :
  bind (fail e) k w = (Err e, w).
Proof. reflexivity. Qed.

Lemma bind_time_Now {B : Type} (k : Time -> M B) (w : World.t) :
  bind time_Now k w = k (World.now w) w.
Proof. reflexivity. Qed.

Lemma bind_get_world {B : Type} (k : World.t -> M B) (w : World.t) :
  bind get_world k w = k w w.
Proof. reflexivity. Qed.

Lemma bind_modify {B : Type} (f : World.t -> World.t) (k : unit -> M B)
    (w : World.t) :
  bind (modify f) k w = k tt (f w).
Proof. reflexivity. Qed.

Lemma bind_emit {B : Type} (e : Event) (k : unit -> M B) (w : World.t) :
  bind (emit e) k w = k tt (World.set_trace (e :: World.trace w) w).
Proof. reflexivity. Qed.

Lemma bind_log {B : Type} (level msg : string) (k : unit -> M B) (w : World.t) :
  bind (log level msg) k w
  = k tt (World.set_trace (EvLog level msg :: World.trace w) w).
Proof. reflexivity. Qed.

(** Backward: the runs of the parts from the run of a sequence. *)

Lemma bind_inv {A B : Type} (m : M A) (k : A -> M B) (w w' : World.t)
    (r : Result B) :
  bind m k w = (r, w') ->
  (exists a w1, m w = (Ok a, w1) /\ k a w1 = (r, w'))
  \/ (exists e, m w = (Err e, w') /\ r = Err e).
Proof.
  unfold bind. destruct (m w) as [[a|e] w1]; intros H.
  - left. eauto.
  - right. inversion H; subst. eauto.
Qed.

Lemma try_inv {A : Type} (m : M A) (w w' : World.t) (r : Result (Result A)) :
  try m w = (r, w') -> exists r0, m w = (r0, w') /\ r = Ok r0.
Proof.
  unfold try. destruct (m w) as [r0 w1]. intros H. inversion H; subst. eauto.
Qed.

Lemma traced_inv {A : Type} (ev : Result A -> Event) (m : M A)
    (w w' : World.t) (r : Result A) :
  traced ev m w = (r, w') ->
  exists w1, m w = (r, w1) /\ w' = World.set_trace (ev r :: World.trace w1) w1.
Proof.
  unfold traced. destruct (m w) as [r0 w1]. intros H. inversion H; subst. eauto.
Qed.

(* ===================================================================== *)
(** ** The bot responder *)
(* ===================================================================== *)

(** C5: when the rule the engine selects answers by handoff, [Process]
    returns [ShouldHandoff = true]; with no handoff message configured it
    returns [ShouldReply = false], no response, and the reason "Customer
    requested agent"; with a message configured it returns
    [ShouldReply = true] and the response built from the rule, whose
    content is that message. The hit counter may fail to be written. *)
Theorem C5_Process_handoff (E : Env) (workspaceID : uuid)
    (recipientID content : string) (w w1 : World.t) (rules : list Rule.t)
    (rule : Rule.t) :
  ruleRepo_FindActiveByWorkspace E workspaceID w = (Ok rules, w1) ->
  MatchResult.Matched (Match E (World.now w1) rules content) = true ->
  MatchResult.Rule_ (Match E (World.now w1) rules content) = Some rule ->
  Rule.ResponseType rule = ResponseHandoff ->
  exists response w',
    Process E workspaceID recipientID content w = (Ok response, w')
    /\ BotResponse.MatchedRule response = Some rule
    /\ BotResponse.ShouldHandoff response = true
    /\ (ResponseConfig.Message (Rule.ResponseConfig rule) = "" ->
        BotResponse.ShouldReply response = false
        /\ BotResponse.Response response = None
        /\ BotResponse.HandoffReason response = "Customer requested agent")
    /\ (ResponseConfig.Message (Rule.ResponseConfig rule) <> "" ->
        BotResponse.ShouldReply response = true
        /\ BotResponse.Response response = Some (BuildFromRule rule recipientID)
        /\ OutboundMessage.Content (BuildFromRule rule recipientID)
           = ResponseConfig.Message (Rule.ResponseConfig rule)
        /\ OutboundMessage.RecipientID (BuildFromRule rule recipientID)
           = recipientID
        /\ BotResponse.HandoffReason response
           = ResponseConfig.Message (Rule.ResponseConfig rule)).
Proof.
  intros Hfind Hmatched Hrule Hhandoff.
  assert (Hne : Nat.eqb (length rules) 0 = false).
  { destruct rules; [discriminate Hmatched|reflexivity]. }
  assert (Hh : IsHandoffResponse rule = true).
  { unfold IsHandoffResponse. rewrite Hhandoff. reflexivity. }
  destruct (ruleRepo_IncrementHitCount E (Rule.ID rule) w1) as [r0 w2] eqn:Hinc.
  set (Message := ResponseConfig.Message (Rule.ResponseConfig rule)).
  unfold Process.
  rewrite (traced_run _ _ w
             (match r0 with
              | Ok _ => w2
              | Err _ =>
                  World.set_trace
                    (EvLog "warn" "failed to increment hit count" :: World.trace w2) w2
              end)
             (Ok (BotResponse.mk
                    (negb (Message =? ""))
                    (if Message =? "" then None
                     else Some (BuildFromRule rule recipientID))
                    true
                    (if Message =? "" then "Customer requested agent" else Message)
                    (Some rule)
                    (MatchResult.MatchedKeyword (Match E (World.now w1) rules content))
                    (MatchResult.Confidence (Match E (World.now w1) rules content))))).
  2:{ rewrite (bind_ok _ _ _ _ _ (try_run _ _ _ _ Hfind)). rewrite Hne.
      rewrite bind_time_Now.
      rewrite Hmatched, Hrule. cbn [negb].
      rewrite (bind_ok _ _ _ _ _ (try_run _ _ _ _ Hinc)).
      rewrite Hh. fold Message.
      destruct r0 as [[]|e0]; destruct (Message =? ""); reflexivity. }
  assert (Hb : OutboundMessage.Content (BuildFromRule rule recipientID)
               = if Message =? ""
                 then "Đang chuyển bạn đến nhân viên hỗ trợ..."
                 else Message).
  { unfold BuildFromRule. rewrite Hhandoff. reflexivity. }
  destruct (Message =? "") eqn:Hmsg;
    [apply String.eqb_eq in Hmsg|apply String.eqb_neq in Hmsg];
    (eexists; eexists; split; [reflexivity|]); simpl;
    repeat split; auto; congruence.
Qed.

(** A handoff rule without a message, and one with a message. *)
Lemma C5_Process_handoff_witness :
  (exists response w',
      Process Example.env 1%N "u1" "cho toi gap nhan vien"
        (Example.world [Example.handoff_rule 40%N 10 ["nhan vien"] ""])
      = (Ok response, w')
      /\ BotResponse.ShouldReply response = false
      /\ BotResponse.ShouldHandoff response = true
      /\ BotResponse.HandoffReason response = "Customer requested agent")
  /\ (exists response w',
        Process Example.env 1%N "u1" "cho toi gap nhan vien"
          (Example.world [Example.handoff_rule 40%N 10 ["nhan vien"] "Cho chut nhe"])
        = (Ok response, w')
        /\ BotResponse.ShouldReply response = true
        /\ BotResponse.ShouldHandoff response = true
        /\ option_map OutboundMessage.Content (BotResponse.Response response)
           = Some "Cho chut nhe").
Proof.
  split.
  - destruct (C5_Process_handoff Example.env 1%N "u1" "cho toi gap nhan vien"
                (Example.world [Example.handoff_rule 40%N 10 ["nhan vien"] ""])
                _ _ _ eq_refl eq_refl eq_refl eq_refl)
      as (response & w' & Hrun & _ & Hh & Hempty & _).
    destruct (Hempty eq_refl) as (Hreply & _ & Hreason).
    exists response, w'. auto.
  - destruct (C5_Process_handoff Example.env 1%N "u1" "cho toi gap nhan vien"
                (Example.world [Example.handoff_rule 40%N 10 ["nhan vien"] "Cho chut nhe"])
                _ _ _ eq_refl eq_refl eq_refl eq_refl)
      as (response & w' & Hrun & _ & Hh & _ & Hmsg).
    destruct Hmsg as (Hreply & Hresp & Hcontent & _); [discriminate|].
    exists response, w'. repeat split; try assumption.
    rewrite Hresp. reflexivity.
Defined.

(* ===================================================================== *)
(** ** Channel adapters *)
(* ===================================================================== *)

Section SendFacts.
Context (E : Env).

Lemma FacebookChannel_Send_total (msg : OutboundMessage.t)
    (credentials : gmap string string) (w : World.t) :
  exists result w', FacebookChannel_Send E msg credentials w = (Ok result, w').
Proof.
  unfold FacebookChannel_Send.
  destruct (default "" (credentials !! "page_access_token") =? ""); [eauto|].
  rewrite bind_emit.
  match goal with
  | |- context [http_Post E ?u ?b] =>
      destruct (http_Post E u b) as [err|status body]
  end.
  - eauto.
  - destruct (negb (status =? 200)%Z); [rewrite bind_log|]; eauto.
Qed.

Lemma MockChannel_Send_total (msg : OutboundMessage.t)
    (credentials : gmap string string) (w : World.t) :
  exists result w', MockChannel_Send msg credentials w = (Ok result, w').
Proof.
  unfold MockChannel_Send.
  destruct (OutboundMessage.RecipientID msg =? ""); eauto.
Qed.

(** A call through the [Channel] interface returns a [SendResult] and
    no error. *)
Lemma Channel_Send_total (ch : Channel) (msg : OutboundMessage.t)
    (credentials : gmap string string) (w : World.t) :
  exists result w1,
    Channel_Send E ch msg credentials w
    = (Ok result,
       World.set_trace
         (EvSend ch msg credentials (Ok result) :: World.trace w1) w1).
Proof.
  unfold Channel_Send. destruct ch.
  - destruct (FacebookChannel_Send_total msg credentials w) as (result & w' & H).
    rewrite (traced_run _ _ _ _ _ H). eauto.
  - destruct (MockChannel_Send_total msg credentials w) as (result & w' & H).
    rewrite (traced_run _ _ _ _ _ H). eauto.
Qed.

End SendFacts.

(** C6: [Send] reports failure in the [SendResult] and returns no error.
    Through the [Channel] interface every call returns a [SendResult].
    The Facebook adapter, called without a page access token, returns
    [Success = false] with [Error] set and leaves the world as it was: no
    request goes out. Called with a token it sends one request; a
    transport error or a status other than 200 gives [Success = false]
    with [Error] set. The mock adapter, which takes no credentials,
    reports a missing recipient the same way. *)
Theorem C6_Send_reports_failure_in_SendResult (E : Env)
    (msg : OutboundMessage.t) (credentials : gmap string string)
    (w : World.t) :
  let accessToken := default "" (credentials !! "page_access_token") in
  (forall ch, exists result w',
      Channel_Send E ch msg credentials w = (Ok result, w'))
  /\ (accessToken = "" ->
      exists err,
        FacebookChannel_Send E msg credentials w
        = (Ok (SendResult.mk false "" (Some err)), w))
  /\ (accessToken <> "" ->
      exists body result w',
        FacebookChannel_Send E msg credentials w = (Ok result, w')
        /\ In (EvHttpPost (fb_send_url accessToken) body) (World.trace w')
        /\ match http_Post E (fb_send_url accessToken) body with
           | HttpError err =>
               SendResult.Success result = false
               /\ SendResult.Error result = Some err
           | HttpResponse status response =>
               if (status =? 200)%Z
               then SendResult.Success result = true
               else SendResult.Success result = false
                    /\ exists err, SendResult.Error result = Some err
           end)
  /\ (OutboundMessage.RecipientID msg = "" ->
      exists err,
        MockChannel_Send msg credentials w
        = (Ok (SendResult.mk false "" (Some err)), w)).
Proof.
  intros accessToken. split; [|split; [|split]].
  - intros ch.
    destruct (Channel_Send_total E ch msg credentials w) as (result & w1 & H).
    eauto.
  - intros Htok. unfold FacebookChannel_Send. fold accessToken. rewrite Htok.
    simpl. eauto.
  - intros Htok. apply String.eqb_neq in Htok.
    unfold FacebookChannel_Send. fold accessToken. rewrite Htok.
    fold (fb_send_url accessToken).
    match goal with
    | |- context [json_Marshal E ?req] => set (body := json_Marshal E req)
    end.
    exists body. rewrite bind_emit.
    destruct (http_Post E (fb_send_url accessToken) body)
      as [err|status response] eqn:Hpost.
    + eexists; eexists; split; [reflexivity|]. simpl. auto.
    + destruct (status =? 200)%Z eqn:Hs; cbn [negb]; [|rewrite bind_log];
        (eexists; eexists; split; [reflexivity|]); simpl; eauto 6.
  - intros Hr. unfold MockChannel_Send. rewrite Hr. simpl. eauto.
Qed.

(** The Facebook adapter without a token; with a token and a provider
    that answers 400; the mock adapter without a recipient. *)
Lemma C6_Send_witness :
  (exists err,
     FacebookChannel_Send Example.env (Example.text_to "u1") ∅ (Example.world [])
     = (Ok (SendResult.mk false "" (Some err)), Example.world []))
  /\ (exists result w',
        FacebookChannel_Send Example.env_provider_down (Example.text_to "u1")
          {[ "page_access_token" := "token" ]} (Example.world [])
        = (Ok result, w')
        /\ SendResult.Success result = false)
  /\ (exists err,
        MockChannel_Send (Example.text_to "") ∅ (Example.world [])
        = (Ok (SendResult.mk false "" (Some err)), Example.world [])).
Proof.
  split; [|split].
  - apply (C6_Send_reports_failure_in_SendResult Example.env
             (Example.text_to "u1") ∅ (Example.world [])).
    reflexivity.
  - destruct (C6_Send_reports_failure_in_SendResult Example.env_provider_down
                (Example.text_to "u1")
                {[ "page_access_token" := "token" ]} (Example.world []))
      as (_ & _ & H & _).
    destruct H as (body & result & w' & Hrun & _ & Hpost); [discriminate|].
    exists result, w'. split; [exact Hrun|]. apply Hpost.
  - apply (C6_Send_reports_failure_in_SendResult Example.env
             (Example.text_to "") ∅ (Example.world [])).
    reflexivity.
Defined.

(** The mock adapter rejects a payload without a sender identifier and
    never returns an empty [SenderID]. *)
Lemma MockChannel_Normalize_sender (E : Env) (channelAccountID : uuid)
    (payload : Payload) (w : World.t) :
  (forall inbound w',
      MockChannel_Normalize E channelAccountID payload w = (Ok inbound, w') ->
      InboundMessage.SenderID inbound <> ""
      /\ payload !! "sender_id" = Some (JStr (InboundMessage.SenderID inbound)))
  /\ ((forall senderID,
          payload !! "sender_id" = Some (JStr senderID) -> senderID = "") ->
      exists err,
        MockChannel_Normalize E channelAccountID payload w = (Err err, w)).
Proof.
  unfold MockChannel_Normalize, assert_string.
  split.
  - intros inbound w'.
    destruct (payload !! "sender_id") as [[| | |senderID| |]|]; simpl;
      try (unfold fail; congruence).
    destruct (senderID =? "") eqn:Hs; simpl; [unfold fail; congruence|].
    apply String.eqb_neq in Hs.
    destruct (payload !! "message") as [[| | |content| |]|];
      destruct (payload !! "message_id") as [[| | |messageID| |]|]; simpl;
      try destruct (messageID =? ""); simpl;
      destruct (payload !! "sender_name") as [[| | |senderName| |]|];
      unfold bind, time_Now, ret; simpl;
      intros H; inversion H; subst; simpl; auto.
  - intros Hs.
    destruct (payload !! "sender_id") as [[| | |senderID| |]|]; simpl;
      try (unfold fail; eauto).
    rewrite (Hs senderID eq_refl). simpl. unfold fail; eauto.
Qed.

Example MockChannel_Normalize_rejects_missing_sender (w : World.t) :
  exists err,
    MockChannel_Normalize Example.env 2%N Example.mock_payload_without_sender w
    = (Err err, w).
Proof. eexists. reflexivity. Qed.

(** C7: the Facebook adapter normalizes a delivery whose event has no
    sender into an [InboundMessage] with an empty [SenderID], and returns
    no error. *)
Theorem C7_FacebookChannel_Normalize_accepts_missing_sender (w : World.t) :
  exists inbound,
    FacebookChannel_Normalize 3%N Example.fb_payload_without_sender w
    = (Ok inbound, w)
    /\ InboundMessage.SenderID inbound = ""
    /\ InboundMessage.ChannelMessageID inbound = "m1"
    /\ InboundMessage.Content inbound = "hi".
Proof. eexists. split; [reflexivity|]. repeat split; reflexivity. Qed.

(* ===================================================================== *)
(** ** Redelivery *)
(* ===================================================================== *)

(** C1: the request of [Example.hello], which carries the message id
    "m1", is posted twice to the mock inbound endpoint. Both deliveries
    are processed, and the second adds a second [Message] row with the
    provider message id "m1". *)
Theorem C1_redelivery_creates_a_second_row :
  let w0 := Example.world Example.greeting_rules in
  let '(r1, w1) := SimulateInbound Example.env Example.hello w0 in
  let '(r2, w2) := SimulateInbound Example.env Example.hello w1 in
  (exists result1 result2,
      r1 = Ok result1 /\ r2 = Ok result2
      /\ ProcessResult.MessageID result1 <> ProcessResult.MessageID result2)
  /\ length (rows_with_channel_message_id "m1" w0) = 0%nat
  /\ length (rows_with_channel_message_id "m1" w1) = 1%nat
  /\ length (rows_with_channel_message_id "m1" w2) = 2%nat.
Proof.
  vm_compute. repeat split; try reflexivity.
  eexists; eexists; repeat split; try reflexivity. discriminate.
Qed.

(* ===================================================================== *)
(** ** Frames: what a run leaves alone *)
(* ===================================================================== *)

Lemma extends_refl (w : World.t) : extends w [] w.
Proof. reflexivity. Qed.

Lemma extends_trans (w w1 w2 : World.t) (evs1 evs2 : list Event) :
  extends w evs1 w1 -> extends w1 evs2 w2 -> extends w (evs2 ++ evs1)%list w2.
Proof. unfold extends. intros H1 H2. rewrite H2, H1, app_assoc. reflexivity. Qed.

Lemma extends_inj (w w' : World.t) (evs1 evs2 : list Event) :
  extends w evs1 w' -> extends w evs2 w' -> evs1 = evs2.
Proof.
  unfold extends. intros H1 H2. rewrite H1 in H2.
  apply app_inv_tail in H2. exact H2.
Qed.

#[export] Instance quiet_PreOrder : PreOrder quiet.
Proof.
  split.
  - intros w. exists []. split; [apply extends_refl|constructor].
  - intros w w1 w2 (evs1 & He1 & Hq1) (evs2 & He2 & Hq2).
    exists (evs2 ++ evs1)%list. split; [eapply extends_trans; eassumption|].
    apply Forall_app. split; assumption.
Qed.

#[export] Instance keeps_PreOrder {X : Type} (part : World.t -> X) :
  PreOrder (keeps part).
Proof.
  split.
  - intros w. reflexivity.
  - intros w w1 w2 H1 H2. unfold keeps in *. congruence.
Qed.

Ltac frame_preorder :=
  split;
  [ intros w; repeat split; reflexivity
  | intros w w1 w2 H1 H2;
    repeat match goal with H : _ /\ _ |- _ => destruct H end;
    repeat split; etransitivity; eassumption ].

#[export] Instance undisturbed_PreOrder : PreOrder undisturbed.
Proof. unfold undisturbed. frame_preorder. Qed.

#[export] Instance writes_participants_PreOrder : PreOrder writes_participants.
Proof. unfold writes_participants. frame_preorder. Qed.

#[export] Instance writes_conversations_PreOrder : PreOrder writes_conversations.
Proof. unfold writes_conversations. frame_preorder. Qed.

#[export] Instance writes_messages_PreOrder : PreOrder writes_messages.
Proof. unfold writes_messages. frame_preorder. Qed.

Lemma quiet_same_trace (w w' : World.t) :
  World.trace w' = World.trace w -> quiet w w'.
Proof. intros H. exists []. split; [exact H|constructor]. Qed.

Lemma quiet_event (w : World.t) (e : Event) :
  watched e = false -> quiet w (World.set_trace (e :: World.trace w) w).
Proof. intros He. exists [e]. split; [reflexivity|repeat constructor; exact He]. Qed.

(** A watched event is not among the events of a quiet run. *)
Lemma quiet_not_watched (w w' : World.t) (evs : list Event) (e : Event) :
  quiet w w' -> extends w evs w' -> In e evs -> watched e = false.
Proof.
  intros (evs' & He' & Hq) He Hin.
  rewrite (extends_inj _ _ _ _ He He') in Hin.
  rewrite Forall_forall in Hq. apply Hq. apply list_elem_of_In. exact Hin.
Qed.

Section Steps.
Context {R : World.t -> World.t -> Prop} `{!PreOrder R}.

Lemma steps_ret {A : Type} (a : A) : steps R (ret a).
Proof. intros w r w' H. inversion H; subst. reflexivity. Qed.

Lemma steps_fail {A : Type} (e : error) : steps R (@fail A e).
Proof. intros w r w' H. inversion H; subst. reflexivity. Qed.

Lemma steps_get_world : steps R get_world.
Proof. intros w r w' H. inversion H; subst. reflexivity. Qed.

Lemma steps_time_Now : steps R time_Now.
Proof. intros w r w' H. inversion H; subst. reflexivity. Qed.

Lemma steps_bind {A B : Type} (m : M A) (k : A -> M B) :
  steps R m -> (forall a, steps R (k a)) -> steps R (bind m k).
Proof.
  intros Hm Hk w r w' H. apply bind_inv in H as [(a & w1 & H1 & H2)|(e & H1 & _)].
  - transitivity w1; [eapply Hm|eapply Hk]; eassumption.
  - eapply Hm; eassumption.
Qed.

Lemma steps_try {A : Type} (m : M A) : steps R m -> steps R (try m).
Proof.
  intros Hm w r w' H. apply try_inv in H as (r0 & H & _). eapply Hm; eassumption.
Qed.

Lemma steps_modify (f : World.t -> World.t) :
  (forall w, R w (f w)) -> steps R (modify f).
Proof. intros Hf w r w' H. inversion H; subst. apply Hf. Qed.

Lemma steps_emit (e : Event) :
  (forall w, R w (World.set_trace (e :: World.trace w) w)) -> steps R (emit e).
Proof. intros He. apply steps_modify. exact He. Qed.

Lemma steps_db_exec (E : Env) :
  (forall w n, R w (World.set_db_statements n w)) -> steps R (db_exec E).
Proof.
  intros Hdb w r w' H. unfold db_exec in H.
  destruct (db_fails E (World.db_statements w)); inversion H; subst; apply Hdb.
Qed.

Lemma steps_uuid_New_ (E : Env) :
  (forall w n, R w (World.set_uuids_drawn n w)) -> steps R (uuid_New_ E).
Proof. intros Hu w r w' H. inversion H; subst. apply Hu. Qed.

End Steps.

Lemma steps_and {A : Type} (R1 R2 : World.t -> World.t -> Prop) (m : M A) :
  steps R1 m -> steps R2 m -> steps (fun w w' => R1 w w' /\ R2 w w') m.
Proof. intros H1 H2 w r w' H. split; [eapply H1|eapply H2]; eassumption. Qed.

Ltac frame_start :=
  unfold undisturbed, writes_participants, writes_conversations, writes_messages;
  repeat apply steps_and.

(** One update of the world, in a frame. *)
Ltac frame_update :=
  intros;
  first
    [ reflexivity
    | apply quiet_same_trace; reflexivity
    | apply quiet_event; reflexivity ].

(** A composite function, in a frame: by its structure. *)
Ltac frame_steps :=
  repeat first
    [ apply steps_ret
    | apply steps_fail
    | apply steps_get_world
    | apply steps_time_Now
    | apply steps_try
    | apply steps_db_exec; frame_update
    | apply steps_uuid_New_; frame_update
    | apply steps_modify; frame_update
    | apply steps_emit; frame_update
    | apply steps_bind; [|intros ?]
    | assumption
    | match goal with
      | |- steps _ (match ?x with _ => _ end) => destruct x
      | |- steps _ (let '(_, _) := ?x in _) => destruct x
      end ].

Section PipelineFrames.
Context (E : Env).

Lemma findOrCreateParticipant_frame (workspaceID channelAccountID : uuid)
    (inbound : InboundMessage.t) :
  steps writes_participants
    (findOrCreateParticipant E workspaceID channelAccountID inbound).
Proof.
  frame_start;
    unfold findOrCreateParticipant, participantRepo_FindOrCreate,
      participantRepo_FindByChannelUserID, participantRepo_Create, BeforeCreate;
    frame_steps.
Qed.

Lemma findOrCreateConversation_frame (workspaceID channelAccountID participantID : uuid) :
  steps writes_conversations
    (findOrCreateConversation E workspaceID channelAccountID participantID).
Proof.
  frame_start;
    unfold findOrCreateConversation, conversationRepo_FindOrCreate,
      conversationRepo_FindOpenByParticipant, conversationRepo_Create, BeforeCreate;
    frame_steps.
Qed.

Lemma messageRepo_Create_frame (msg : Message.t) :
  steps writes_messages
    (messageRepo_Create E msg).
Proof.
  frame_start; unfold messageRepo_Create, BeforeCreate; frame_steps.
Qed.

Lemma messageRepo_Update_frame (msg : Message.t) :
  steps writes_messages
    (messageRepo_Update E msg).
Proof.
  frame_start; unfold messageRepo_Update; frame_steps.
Qed.

Lemma conversationRepo_Update_frame (conv : Conversation.t) :
  steps writes_conversations
    (conversationRepo_Update E conv).
Proof.
  frame_start; unfold conversationRepo_Update; frame_steps.
Qed.

Lemma channelAccountRepo_FindByID_frame (id : uuid) :
  steps undisturbed
    (channelAccountRepo_FindByID E id).
Proof.
  frame_start; unfold channelAccountRepo_FindByID; frame_steps.
Qed.

Lemma saveMessage_frame (conversationID : uuid) (inbound : InboundMessage.t) :
  steps writes_messages
    (saveMessage E conversationID inbound).
Proof.
  frame_start; unfold saveMessage, messageRepo_Create, BeforeCreate;
    frame_steps.
Qed.

Lemma FacebookChannel_Send_frame (msg : OutboundMessage.t)
    (credentials : gmap string string) :
  steps undisturbed
    (FacebookChannel_Send E msg credentials).
Proof.
  frame_start; unfold FacebookChannel_Send, log; frame_steps.
Qed.

Lemma MockChannel_Send_frame (msg : OutboundMessage.t)
    (credentials : gmap string string) :
  steps undisturbed
    (MockChannel_Send msg credentials).
Proof.
  frame_start; unfold MockChannel_Send; frame_steps.
Qed.

End PipelineFrames.

Section CallFrames.
Context (E : Env).

Lemma steps_elim {A : Type} (R : World.t -> World.t -> Prop) (m : M A)
    (w w' : World.t) (r : Result A) :
  steps R m -> m w = (r, w') -> R w w'.
Proof. intros Hs H. eapply Hs. exact H. Qed.

Lemma updateConversationLastMessage_frame (conv : Conversation.t)
    (inbound : InboundMessage.t) :
  steps writes_conversations
    (updateConversationLastMessage E conv inbound).
Proof.
  frame_start;
    unfold updateConversationLastMessage, conversationRepo_Update; frame_steps.
Qed.

(** A call of the responder: a quiet run that leaves the participants,
    the conversations and the messages alone, and then the record of the
    call. *)
Lemma Process_run (workspaceID : uuid) (recipientID content : string)
    (w w' : World.t) (r : Result BotResponse.t) :
  Process E workspaceID recipientID content w = (r, w') ->
  exists w1,
    undisturbed w w1
    /\ w' = World.set_trace
              (EvProcess workspaceID recipientID content r :: World.trace w1) w1.
Proof.
  intros H. unfold Process in H. apply traced_inv in H as (w1 & H & ->).
  exists w1. split; [|reflexivity].
  eapply (steps_elim undisturbed); [|exact H].
  frame_start;
    unfold ruleRepo_FindActiveByWorkspace, ruleRepo_IncrementHitCount, log;
    cbv zeta; frame_steps.
Qed.

(** A call of [Send] through the [Channel] interface: no error, a quiet
    run that leaves the participants, the conversations and the messages
    alone, and then the record of the call. *)
Lemma Channel_Send_run (ch : Channel) (msg : OutboundMessage.t)
    (credentials : gmap string string) (w w' : World.t)
    (r : Result SendResult.t) :
  Channel_Send E ch msg credentials w = (r, w') ->
  exists result w1,
    r = Ok result
    /\ undisturbed w w1
    /\ w' = World.set_trace
              (EvSend ch msg credentials (Ok result) :: World.trace w1) w1.
Proof.
  intros H.
  destruct (Channel_Send_total E ch msg credentials w) as (result & w1 & Ht).
  rewrite Ht in H. inversion H; subst. exists result.
  unfold Channel_Send in Ht. apply traced_inv in Ht as (w2 & Ht & Hw).
  exists w2. split; [reflexivity|]. split; [|exact Hw].
  destruct ch.
  - eapply steps_elim; [apply FacebookChannel_Send_frame|exact Ht].
  - eapply steps_elim; [apply MockChannel_Send_frame|exact Ht].
Qed.

End CallFrames.

(* ===================================================================== *)
(** ** The blocks of [processBotResponse] *)
(* ===================================================================== *)

Lemma save_row_In {A : Type} (ID : A -> uuid) (row : A) (rows : list A) :
  In row (save_row ID row rows).
Proof.
  unfold save_row.
  destruct (existsb (fun r => (ID r =? ID row)%N) rows) eqn:Hex.
  - apply existsb_exists in Hex as (r & Hin & Hr).
    apply in_map_iff. exists r. rewrite Hr. auto.
  - apply in_or_app. right. simpl. auto.
Qed.

Section Blocks.
Context (E : Env).

(** [Create] returns the row with its identifier, emits nothing, and
    appends the row when the insert succeeds. *)
Lemma messageRepo_Create_run (msg : Message.t) (w w' : World.t)
    (r : Result (Message.t * Result unit)) :
  messageRepo_Create E msg w = (r, w') ->
  exists id res,
    r = Ok (Message.with_ID id msg, res)
    /\ World.trace w' = World.trace w
    /\ World.conversations w' = World.conversations w
    /\ World.participants w' = World.participants w
    /\ match res with
       | Ok _ => World.messages w' = (World.messages w ++ [Message.with_ID id msg])%list
       | Err _ => World.messages w' = World.messages w
       end.
Proof.
  unfold messageRepo_Create, BeforeCreate. intros H.
  apply bind_inv in H as [(id & w1 & Hid & H)|(e & Hid & _)].
  2:{ destruct (Message.ID msg =? uuid_Nil)%N; inversion Hid. }
  assert (Hw1 : World.trace w1 = World.trace w
                /\ World.conversations w1 = World.conversations w
                /\ World.participants w1 = World.participants w
                /\ World.messages w1 = World.messages w).
  { destruct (Message.ID msg =? uuid_Nil)%N; inversion Hid; subst; auto. }
  destruct Hw1 as (Ht & Hc & Hp & Hm).
  apply bind_inv in H as [(res & w2 & Htry & H)|(e & Htry & _)].
  2:{ apply try_inv in Htry as (r0 & _ & Hr0). discriminate. }
  inversion H; subst. exists id, res.
  apply try_inv in Htry as (r0 & Hins & Hr0). inversion Hr0; subst.
  split; [reflexivity|].
  unfold bind, db_exec, modify in Hins.
  destruct (db_fails E (World.db_statements w1)); inversion Hins; subst; simpl;
    rewrite ?Ht, ?Hc, ?Hp, ?Hm; auto.
Qed.

(** The handoff block returns [ShouldHandoff]; on a handoff it writes the
    paused conversation, or logs that it could not. *)
Lemma processBotResponse_handoff_run (conv : Conversation.t)
    (botResponse : BotResponse.t) (w w' : World.t) (r : Result bool) :
  processBotResponse_handoff E conv botResponse w = (r, w') ->
  r = Ok (BotResponse.ShouldHandoff botResponse)
  /\ World.participants w' = World.participants w
  /\ World.messages w' = World.messages w
  /\ (if BotResponse.ShouldHandoff botResponse then
        (World.trace w' = World.trace w
         /\ World.conversations w'
            = save_row Conversation.ID
                (PauseBot (BotResponse.HandoffReason botResponse) conv)
                (World.conversations w))
        \/ (World.trace w'
            = EvLog "warn" "failed to pause bot on conversation" :: World.trace w
            /\ World.conversations w' = World.conversations w)
      else w' = w).
Proof.
  unfold processBotResponse_handoff. intros H.
  destruct (BotResponse.ShouldHandoff botResponse).
  2:{ inversion H; subst. auto. }
  cbv zeta in H.
  unfold conversationRepo_Update, bind, try, db_exec, modify, log, emit, modify, ret in H.
  destruct (db_fails E (World.db_statements w)); inversion H; subst; simpl; auto 6.
Qed.

End Blocks.

Lemma unwatched_In (evs : list Event) (e : Event) :
  Forall (fun e => watched e = false) evs -> In e evs -> watched e = true -> False.
Proof.
  intros Hq Hin Hw. rewrite Forall_forall in Hq.
  rewrite (Hq e) in Hw; [discriminate|]. apply list_elem_of_In. exact Hin.
Qed.

(** Membership in a trace made of segments, case by case; a watched event
    is in no quiet segment. *)
Ltac in_segments H :=
  repeat first
    [ progress (rewrite in_app_iff in H)
    | progress (simpl In in H) ];
  repeat match type of H with
         | _ \/ _ => destruct H as [H|H]
         | False => destruct H
         end.

Ltac not_in_quiet :=
  match goal with
  | Hq : Forall (fun e => watched e = false) ?evs, Hin : In ?e ?evs |- _ =>
      exfalso; apply (unwatched_In evs e Hq Hin);
      first [reflexivity | assumption | subst; reflexivity]
  end.

Lemma bind_try_inv {A B : Type} (m : M A) (k : Result A -> M B)
    (w w' : World.t) (r : Result B) :
  bind (try m) k w = (r, w') ->
  exists r0 w1, m w = (r0, w1) /\ k r0 w1 = (r, w').
Proof.
  unfold bind, try. destruct (m w) as [r0 w1]. intros H. eauto.
Qed.

(** Split a conjunction into its conjuncts, and nothing more. *)
Ltac splits := repeat match goal with |- _ /\ _ => split end.

Section SendBlock.
Context (E : Env).

(** The send block: its only watched events are the call of [Send] and
    the log line for the credentials; it reports a reply only when [Send]
    succeeded, and when [Send] failed or the credentials could not be read
    it returns no error, reports no reply and writes no message. *)
Lemma processBotResponse_send_run (channelAccountID : uuid)
    (inbound : InboundMessage.t) (response : OutboundMessage.t)
    (outboundMsg : Message.t) (ShouldHandoff : bool) (w w' : World.t)
    (r : Result botProcessResult.t) :
  processBotResponse_send E channelAccountID inbound response outboundMsg
    ShouldHandoff w = (r, w') ->
  exists evs,
    extends w evs w'
    /\ World.conversations w' = World.conversations w
    /\ World.participants w' = World.participants w
    /\ (forall e, In e evs -> watched e = true ->
        (exists ch cr sres, e = EvSend ch response cr sres)
        \/ e = EvLog "warn" "failed to get channel account")
    /\ (forall b, r = Ok b -> botProcessResult.ShouldHandoff b = ShouldHandoff)
    /\ (forall b, r = Ok b -> botProcessResult.ShouldReply b = true ->
        botProcessResult.ResponseSent b = Some response
        /\ exists ch cr sr,
             In (EvSend ch response cr (Ok sr)) evs
             /\ SendResult.Success sr = true)
    /\ ((exists ch m cr sres,
            In (EvSend ch m cr sres) evs
            /\ forall sr, sres = Ok sr -> SendResult.Success sr = false)
        \/ In (EvLog "warn" "failed to get channel account") evs ->
        r = Ok (botProcessResult.mk false ShouldHandoff None)
        /\ World.messages w' = World.messages w).
Proof.
  unfold processBotResponse_send. intros H. rewrite bind_get_world in H.
  destruct (Registry_Get (World.channels w) (InboundMessage.ChannelType inbound))
    as [ch|err].
  2:{ inversion H; subst. exists []. splits; try reflexivity.
      - intros e [].
      - intros b Hb; discriminate.
      - intros b Hb; discriminate.
      - intros [(ch & m & cr & sres & [] & _)|[]]. }
  apply bind_try_inv in H as (a0 & w1 & Ha & H).
  pose proof (steps_elim _ _ _ _ _ (channelAccountRepo_FindByID_frame E _) Ha)
    as ((evs1 & He1 & Hq1) & Hp1 & Hc1 & Hm1).
  unfold keeps, extends in *.
  destruct a0 as [channelAcct|err].
  2:{ rewrite bind_log in H. inversion H; subst.
      exists (EvLog "warn" "failed to get channel account" :: evs1).
      simpl. rewrite He1. splits; auto.
      - intros e [<-|Hin] Hw; [auto|not_in_quiet].
      - intros b Hb. inversion Hb; subst. reflexivity.
      - intros b Hb. inversion Hb; subst. discriminate. }
  cbv zeta in H.
  match type of H with
  | context [Channel_Send E ch response ?c] => set (credentials := c) in H
  end.
  apply bind_try_inv in H as (s0 & w2 & Hs & H).
  apply Channel_Send_run in Hs
    as (sr & w1' & -> & ((evs2 & He2 & Hq2) & Hp2 & Hc2 & Hm2) & ->).
  unfold keeps, extends in *.
  destruct (SendResult.Success sr) eqn:Hsucc.
  - apply bind_inv in H as [([] & w3 & Hu & H)|(e & Hu & _)].
    2:{ destruct (SendResult.ChannelMessageID sr =? ""); [inversion Hu|].
        apply bind_try_inv in Hu as (r0 & w3 & _ & Hu). inversion Hu. }
    inversion H; subst. clear H.
    assert (Hw3 : writes_messages
                    (World.set_trace
                       (EvSend ch response credentials (Ok sr) :: World.trace w1') w1')
                    w').
    { destruct (SendResult.ChannelMessageID sr =? "").
      - inversion Hu; subst. split; [reflexivity|split; reflexivity].
      - eapply (steps_elim writes_messages); [|exact Hu].
        apply steps_bind; [apply steps_try, messageRepo_Update_frame|].
        intros ?. frame_start; frame_steps. }
    destruct Hw3 as ((evs3 & He3 & Hq3) & Hp3 & Hc3).
    unfold keeps, extends in *. simpl in He3, Hp3, Hc3.
    exists (evs3 ++ EvSend ch response credentials (Ok sr) :: evs2 ++ evs1)%list.
    splits.
    + rewrite He3, He2, He1. rewrite <- !app_assoc. simpl.
      rewrite <- !app_assoc. reflexivity.
    + congruence.
    + congruence.
    + intros e Hin Hw. in_segments Hin; try not_in_quiet. subst e. eauto.
    + intros b Hb. inversion Hb; subst. reflexivity.
    + intros b Hb _. inversion Hb; subst. split; [reflexivity|].
      exists ch, credentials, sr. split; [|assumption].
      apply in_or_app. right. left. reflexivity.
    + intros [(ch' & m & cr & sres & Hin & Hf)|Hin];
        in_segments Hin; try not_in_quiet; try discriminate.
      inversion Hin; subst. rewrite (Hf sr eq_refl) in Hsucc. discriminate.
  - assert (Hr : r = Ok (botProcessResult.mk false ShouldHandoff None)
                 /\ exists evs3,
                      World.trace w'
                      = (evs3 ++ EvSend ch response credentials (Ok sr)
                                 :: World.trace w1')%list
                      /\ Forall (fun e => watched e = false) evs3
                      /\ World.conversations w' = World.conversations w1'
                      /\ World.participants w' = World.participants w1'
                      /\ World.messages w' = World.messages w1').
    { destruct (SendResult.Error sr).
      - rewrite bind_log in H. inversion H; subst. split; [reflexivity|].
        exists [EvLog "warn" "channel send failed"]. simpl.
        splits; try reflexivity. repeat constructor.
      - rewrite bind_ret in H. inversion H; subst. split; [reflexivity|].
        exists []. simpl. splits; try reflexivity. constructor. }
    destruct Hr as (-> & evs3 & He3 & Hq3 & Hc3 & Hp3 & Hm3).
    exists (evs3 ++ EvSend ch response credentials (Ok sr) :: evs2 ++ evs1)%list.
    splits.
    + rewrite He3, He2, He1. rewrite <- !app_assoc. simpl.
      rewrite <- !app_assoc. reflexivity.
    + congruence.
    + congruence.
    + intros e Hin Hw. in_segments Hin; try not_in_quiet. subst e. eauto.
    + intros b Hb. inversion Hb; subst. reflexivity.
    + intros b Hb Hrep. inversion Hb; subst. discriminate.
    + intros _. split; [reflexivity|congruence].
Qed.

End SendBlock.

Section ReplyBlock.
Context (E : Env).

(** The reply block: besides the watched events of the send block, the
    log line for a reply that could not be written. When [Send] failed or
    the credentials could not be read and that line was not logged, the
    bot-authored row is in the table. *)
Lemma processBotResponse_reply_run (workspaceID channelAccountID : uuid)
    (conv : Conversation.t) (inbound : InboundMessage.t)
    (botResponse : BotResponse.t) (response : OutboundMessage.t)
    (ShouldHandoff : bool) (w w' : World.t) (r : Result botProcessResult.t) :
  processBotResponse_reply E workspaceID channelAccountID conv inbound
    botResponse response ShouldHandoff w = (r, w') ->
  exists evs,
    extends w evs w'
    /\ World.conversations w' = World.conversations w
    /\ World.participants w' = World.participants w
    /\ (forall e, In e evs -> watched e = true ->
        (exists ch cr sres, e = EvSend ch response cr sres)
        \/ e = EvLog "warn" "failed to get channel account"
        \/ e = EvLog "warn" "failed to save bot message")
    /\ (forall b, r = Ok b -> botProcessResult.ShouldHandoff b = ShouldHandoff)
    /\ (forall b, r = Ok b -> botProcessResult.ShouldReply b = true ->
        botProcessResult.ResponseSent b = Some response
        /\ exists ch cr sr,
             In (EvSend ch response cr (Ok sr)) evs
             /\ SendResult.Success sr = true)
    /\ ((exists ch m cr sres,
            In (EvSend ch m cr sres) evs
            /\ forall sr, sres = Ok sr -> SendResult.Success sr = false)
        \/ In (EvLog "warn" "failed to get channel account") evs ->
        r = Ok (botProcessResult.mk false ShouldHandoff None)
        /\ (~ In (EvLog "warn" "failed to save bot message") evs ->
            exists row,
              In row (World.messages w')
              /\ bot_reply_row (Conversation.ID conv)
                   (OutboundMessage.Content response) row)).
Proof.
  unfold processBotResponse_reply. intros H.
  destruct (BotResponse.MatchedRule botResponse) as [MatchedRule|].
  2:{ inversion H; subst. exists []. splits; try reflexivity.
      - intros e [].
      - intros b Hb; discriminate.
      - intros b Hb; discriminate.
      - intros [(ch & m & cr & sres & [] & _)|[]]. }
  cbv zeta in H.
  match type of H with
  | context [messageRepo_Create E ?m] => set (outboundMsg := m) in H
  end.
  apply bind_inv in H as [(c & w1 & Hc & H)|(e & Hc & _)].
  2:{ apply messageRepo_Create_run in Hc as (id & res & Hr & _). discriminate. }
  apply messageRepo_Create_run in Hc
    as (id & res & Hr & Ht1 & Hc1 & Hp1 & Hm1).
  inversion Hr; subst c. clear Hr. simpl fst in H. simpl snd in H.
  apply bind_inv in H as [([] & w2 & Hmid & H)|(e & Hmid & _)].
  2:{ destruct res; [|inversion Hmid].
      rewrite bind_get_world in Hmid.
      destruct (World.publisher w1); inversion Hmid. }
  apply processBotResponse_send_run in H
    as (evs3 & He3 & Hc3 & Hp3 & Hw3 & Hh3 & Hrep3 & Hfail3).
  assert (Hw2 : exists evs2,
             World.trace w2 = (evs2 ++ World.trace w1)%list
             /\ World.conversations w2 = World.conversations w1
             /\ World.participants w2 = World.participants w1
             /\ World.messages w2 = World.messages w1
             /\ match res with
                | Ok _ => Forall (fun e => watched e = false) evs2
                | Err _ => evs2 = [EvLog "warn" "failed to save bot message"]
                end).
  { destruct res.
    - rewrite bind_get_world in Hmid.
      destruct (World.publisher w1); inversion Hmid; subst.
      + eexists [_]. splits; try reflexivity. repeat constructor.
      + exists []. splits; try reflexivity. constructor.
    - inversion Hmid; subst.
      exists [EvLog "warn" "failed to save bot message"]. splits; reflexivity. }
  destruct Hw2 as (evs2 & He2 & Hc2 & Hp2 & Hm2 & Hres).
  unfold extends in *.
  exists (evs3 ++ evs2)%list. splits.
  - rewrite He3, He2, Ht1, app_assoc. reflexivity.
  - congruence.
  - congruence.
  - intros e Hin Hw. apply in_app_or in Hin as [Hin|Hin].
    + destruct (Hw3 e Hin Hw) as [Hs|Hl]; auto.
    + destruct res; [not_in_quiet|]. subst evs2.
      destruct Hin as [<-|[]]. auto.
  - exact Hh3.
  - intros b Hb Hreply. destruct (Hrep3 b Hb Hreply) as (Hsent & ch & cr & sr & Hin & Hs).
    split; [exact Hsent|]. exists ch, cr, sr. split; [|exact Hs].
    apply in_or_app. left. exact Hin.
  - intros Hfail.
    assert (Hfail' : (exists ch m cr sres,
                         In (EvSend ch m cr sres) evs3
                         /\ forall sr, sres = Ok sr -> SendResult.Success sr = false)
                     \/ In (EvLog "warn" "failed to get channel account") evs3).
    { destruct Hfail as [(ch & m & cr & sres & Hin & Hf)|Hin].
      - left. exists ch, m, cr, sres. split; [|exact Hf].
        apply in_app_or in Hin as [Hin|Hin]; [exact Hin|].
        destruct res; [not_in_quiet|]. subst evs2.
        destruct Hin as [Hin|[]]. discriminate.
      - right. apply in_app_or in Hin as [Hin|Hin]; [exact Hin|].
        destruct res; [not_in_quiet|]. subst evs2.
        destruct Hin as [Hin|[]]. discriminate. }
    destruct (Hfail3 Hfail') as (-> & Hm3). split; [reflexivity|].
    intros Hsaved. destruct res as [[]|err].
    + exists (Message.with_ID id outboundMsg). split.
      * rewrite Hm3, Hm2, Hm1. apply in_or_app. right. left. reflexivity.
      * repeat split.
    + exfalso. apply Hsaved. apply in_or_app. right. subst evs2. left. reflexivity.
Qed.

End ReplyBlock.

Section BotResponse.
Context (E : Env).

(** A run of [processBotResponse], by its events. *)
Lemma processBotResponse_run (workspaceID channelAccountID : uuid)
    (conv : Conversation.t) (inbound : InboundMessage.t)
    (inboundMsg : Message.t) (w w' : World.t)
    (r : Result botProcessResult.t) :
  processBotResponse E workspaceID channelAccountID conv inbound inboundMsg w
  = (r, w') ->
  exists evs,
    extends w evs w'
    /\ World.participants w' = World.participants w
    /\ (forall ws rc ct res,
          In (EvProcess ws rc ct res) evs ->
          ws = workspaceID /\ rc = InboundMessage.SenderID inbound
          /\ ct = InboundMessage.Content inbound)
    /\ (forall ws rc ct resp,
          In (EvProcess ws rc ct (Ok resp)) evs ->
          BotResponse.ShouldHandoff resp = true ->
          ~ In (EvLog "warn" "failed to pause bot on conversation") evs ->
          In (PauseBot (BotResponse.HandoffReason resp) conv)
            (World.conversations w'))
    /\ (forall b, r = Ok b -> botProcessResult.ShouldReply b = true ->
        exists ch m cr sr,
          In (EvSend ch m cr (Ok sr)) evs
          /\ SendResult.Success sr = true
          /\ botProcessResult.ResponseSent b = Some m)
    /\ ((exists ch m cr sres,
            In (EvSend ch m cr sres) evs
            /\ forall sr, sres = Ok sr -> SendResult.Success sr = false)
        \/ In (EvLog "warn" "failed to get channel account") evs ->
        exists b,
          r = Ok b
          /\ botProcessResult.ShouldReply b = false
          /\ botProcessResult.ResponseSent b = None
          /\ (~ In (EvLog "warn" "failed to save bot message") evs ->
              exists row content,
                In row (World.messages w')
                /\ bot_reply_row (Conversation.ID conv) content row
                /\ forall ch m cr sres,
                     In (EvSend ch m cr sres) evs ->
                     content = OutboundMessage.Content m)).
Proof.
  unfold processBotResponse. intros H.
  apply bind_inv in H as [(botResponse & w1 & Hp & H)|(e & Hp & ->)].
  2:{ apply Process_run in Hp as (w1 & ((evs1 & He1 & Hq1) & Hpa1 & _) & ->).
      unfold extends, keeps in *.
      exists (EvProcess workspaceID (InboundMessage.SenderID inbound)
                (InboundMessage.Content inbound) (Err e) :: evs1).
      splits.
      - simpl. rewrite He1. reflexivity.
      - exact Hpa1.
      - intros ws rc ct res [Hin|Hin]; [inversion Hin; auto|not_in_quiet].
      - intros ws rc ct resp [Hin|Hin] _ _; [discriminate|not_in_quiet].
      - intros b Hb. discriminate.
      - intros [(ch & m & cr & sres & [Hin|Hin] & _)|[Hin|Hin]];
          try discriminate; not_in_quiet. }
  apply Process_run in Hp
    as (w0 & ((evs1 & He1 & Hq1) & Hpa1 & Hco1 & Hme1) & ->).
  apply bind_inv in H as [(sh & w2 & Hh & H)|(e & Hh & _)].
  2:{ apply processBotResponse_handoff_run in Hh as (Hr & _). discriminate. }
  apply processBotResponse_handoff_run in Hh as (Hr & Hpa2 & Hme2 & Hh).
  inversion Hr; subst sh. clear Hr.
  unfold extends, keeps in *. simpl in Hpa2, Hme2, Hh.
  assert (Hh' : exists evs2,
             World.trace w2
             = (evs2 ++ EvProcess workspaceID (InboundMessage.SenderID inbound)
                          (InboundMessage.Content inbound) (Ok botResponse)
                        :: World.trace w0)%list
             /\ (forall e, In e evs2 ->
                   e = EvLog "warn" "failed to pause bot on conversation")
             /\ (BotResponse.ShouldHandoff botResponse = true ->
                 In (PauseBot (BotResponse.HandoffReason botResponse) conv)
                   (World.conversations w2)
                 \/ In (EvLog "warn" "failed to pause bot on conversation") evs2)).
  { destruct (BotResponse.ShouldHandoff botResponse).
    - destruct Hh as [(Ht & Hc)|(Ht & Hc)].
      + exists []. splits; [exact Ht|intros e []|].
        intros _. left. rewrite Hc. apply save_row_In.
      + exists [EvLog "warn" "failed to pause bot on conversation"].
        splits; [exact Ht|intros e [<-|[]]; reflexivity|].
        intros _. right. left. reflexivity.
    - subst w2. exists []. splits; [reflexivity|intros e []|discriminate]. }
  clear Hh. destruct Hh' as (evs2 & He2 & Hev2 & Hpause).
  assert (Htail : exists evs3,
             World.trace w' = (evs3 ++ World.trace w2)%list
             /\ World.conversations w' = World.conversations w2
             /\ World.participants w' = World.participants w2
             /\ (forall e, In e evs3 -> watched e = true ->
                 (exists ch m cr sres, e = EvSend ch m cr sres)
                 \/ e = EvLog "warn" "failed to get channel account"
                 \/ e = EvLog "warn" "failed to save bot message")
             /\ (forall b, r = Ok b -> botProcessResult.ShouldReply b = true ->
                 exists ch m cr sr,
                   In (EvSend ch m cr (Ok sr)) evs3
                   /\ SendResult.Success sr = true
                   /\ botProcessResult.ResponseSent b = Some m)
             /\ ((exists ch m cr sres,
                     In (EvSend ch m cr sres) evs3
                     /\ forall sr, sres = Ok sr -> SendResult.Success sr = false)
                 \/ In (EvLog "warn" "failed to get channel account") evs3 ->
                 exists b,
                   r = Ok b
                   /\ botProcessResult.ShouldReply b = false
                   /\ botProcessResult.ResponseSent b = None
                   /\ (~ In (EvLog "warn" "failed to save bot message") evs3 ->
                       exists row content,
                         In row (World.messages w')
                         /\ bot_reply_row (Conversation.ID conv) content row
                         /\ forall ch m cr sres,
                              In (EvSend ch m cr sres) evs3 ->
                              content = OutboundMessage.Content m))).
  { match goal with
    | |- ?G =>
        assert (Hquiet : r = Ok (botProcessResult.mk false
                                   (BotResponse.ShouldHandoff botResponse) None)
                         /\ w' = w2 -> G)
    end.
    2:{ destruct (BotResponse.ShouldReply botResponse);
          [destruct (BotResponse.Response botResponse) as [response|]|];
          try (inversion H; subst; apply Hquiet; split; reflexivity).
        apply processBotResponse_reply_run in H
          as (evs3 & He3 & Hc3 & Hp3 & Hw3 & Hh3 & Hrep3 & Hfail3).
        exists evs3. splits; try assumption.
        - intros e Hin Hw. destruct (Hw3 e Hin Hw) as [(ch & cr & sres & ->)|Hl];
            eauto 6.
        - intros b Hb Hreply.
          destruct (Hrep3 b Hb Hreply) as (Hsent & ch & cr & sr & Hin & Hs).
          exists ch, response, cr, sr. auto.
        - intros Hfail. destruct (Hfail3 Hfail) as (-> & Hrow).
          eexists. splits; try reflexivity.
          intros Hsaved. destruct (Hrow Hsaved) as (row & Hin & Hbot).
          exists row, (OutboundMessage.Content response). splits; try assumption.
          intros ch m cr sres Hin'.
          destruct (Hw3 _ Hin' eq_refl) as [(ch' & cr' & sres' & Heq)|[Heq|Heq]];
            inversion Heq; subst; reflexivity. }
    intros (-> & ->). exists []. splits; try reflexivity.
    - intros e [].
    - intros b Hb. inversion Hb; subst. discriminate.
    - intros [(ch & m & cr & sres & [] & _)|[]]. }
  destruct Htail as (evs3 & He3 & Hco3 & Hpa3 & Hw3 & Hrep3 & Hfail3).
  exists (evs3 ++ evs2
          ++ EvProcess workspaceID (InboundMessage.SenderID inbound)
               (InboundMessage.Content inbound) (Ok botResponse) :: evs1)%list.
  assert (Hold : forall e,
             In e (evs2
                   ++ EvProcess workspaceID (InboundMessage.SenderID inbound)
                        (InboundMessage.Content inbound) (Ok botResponse)
                      :: evs1)%list ->
             (forall ch m cr sres, e <> EvSend ch m cr sres)
             /\ e <> EvLog "warn" "failed to get channel account"
             /\ e <> EvLog "warn" "failed to save bot message").
  { intros e Hin. in_segments Hin.
    - rewrite (Hev2 e Hin). splits; intros; discriminate.
    - subst e. splits; intros; discriminate.
    - splits; intros; intros ->; not_in_quiet. }
  splits.
  - rewrite He3, He2. simpl. rewrite He1.
    rewrite <- !app_assoc. simpl. reflexivity.
  - congruence.
  - intros ws rc ct res Hin.
    apply in_app_or in Hin as [Hin|Hin].
    { destruct (Hw3 _ Hin eq_refl) as [(ch & m & cr & sres & Heq)|[Heq|Heq]];
        discriminate. }
    in_segments Hin.
    + pose proof (Hev2 _ Hin). discriminate.
    + inversion Hin; auto.
    + not_in_quiet.
  - intros ws rc ct resp Hin Hshould Hnolog.
    apply in_app_or in Hin as [Hin|Hin].
    { destruct (Hw3 _ Hin eq_refl) as [(ch & m & cr & sres & Heq)|[Heq|Heq]];
        discriminate. }
    in_segments Hin.
    + pose proof (Hev2 _ Hin). discriminate.
    + inversion Hin; subst. rewrite Hco3.
      destruct (Hpause Hshould) as [Hrow|Hlog]; [exact Hrow|].
      exfalso. apply Hnolog. apply in_or_app. right. apply in_or_app. left.
      exact Hlog.
    + not_in_quiet.
  - intros b Hb Hreply.
    destruct (Hrep3 b Hb Hreply) as (ch & m & cr & sr & Hin & Hs & Hsent).
    exists ch, m, cr, sr. splits; try assumption. apply in_or_app. left. exact Hin.
  - intros Hfail.
    assert (Hfail' : (exists ch m cr sres,
                         In (EvSend ch m cr sres) evs3
                         /\ forall sr, sres = Ok sr -> SendResult.Success sr = false)
                     \/ In (EvLog "warn" "failed to get channel account") evs3).
    { destruct Hfail as [(ch & m & cr & sres & Hin & Hf)|Hin];
        apply in_app_or in Hin as [Hin|Hin].
      - left. eauto 6.
      - exfalso. eapply (proj1 (Hold _ Hin)). reflexivity.
      - right. exact Hin.
      - exfalso. apply (proj1 (proj2 (Hold _ Hin))). reflexivity. }
    destruct (Hfail3 Hfail') as (b & -> & Hreply & Hsent & Hrow).
    exists b. splits; try assumption; try reflexivity.
    intros Hsaved.
    destruct Hrow as (row & content & Hin & Hbot & Hcontent).
    { intros Hin. apply Hsaved. apply in_or_app. left. exact Hin. }
    exists row, content. splits; try assumption.
    intros ch m cr sres Hin'. apply in_app_or in Hin' as [Hin'|Hin'].
    + eapply Hcontent. exact Hin'.
    + exfalso. eapply (proj1 (Hold _ Hin')). reflexivity.
Qed.

End BotResponse.

(* ===================================================================== *)
(** ** [ProcessInbound], step by step *)
(* ===================================================================== *)

Section Orchestrator.
Context (E : Env).

(** The bot block: skipped on a paused conversation; otherwise
    [processBotResponse] runs, and an error it returns is logged. *)
Lemma ProcessInbound_bot_run (workspaceID channelAccountID : uuid)
    (conversation : Conversation.t) (inbound : InboundMessage.t)
    (message : Message.t) (w w' : World.t)
    (r : Result (option botProcessResult.t)) :
  ProcessInbound_bot E workspaceID channelAccountID conversation inbound
    message w = (r, w') ->
  (IsBotPaused conversation = true /\ r = Ok None /\ w' = w)
  \/ (IsBotPaused conversation = false
      /\ exists pr w1,
           processBotResponse E workspaceID channelAccountID conversation
             inbound message w = (pr, w1)
           /\ match pr with
              | Ok b => r = Ok (Some b) /\ w' = w1
              | Err _ =>
                  r = Ok None
                  /\ w' = World.set_trace
                            (EvLog "warn" "bot response failed" :: World.trace w1)
                            w1
              end).
Proof.
  unfold ProcessInbound_bot. intros H.
  destruct (IsBotPaused conversation); simpl negb in H; cbv iota in H.
  - left. inversion H; subst. auto.
  - right. split; [reflexivity|].
    apply bind_try_inv in H as (pr & w1 & Hp & H).
    exists pr, w1. split; [exact Hp|].
    destruct pr as [b|e].
    + inversion H; subst. auto.
    + rewrite bind_log in H. inversion H; subst. auto.
Qed.

(** A run of [ProcessInbound]: it is given up in one of the first three
    steps, as a quiet run that returns an error, or it resolves a
    participant and a conversation, saves the message, writes the
    conversation summary in a quiet step, runs the bot block, and
    returns a result. *)
Lemma ProcessInbound_run (workspaceID channelAccountID : uuid)
    (inbound : InboundMessage.t) (w w' : World.t)
    (r : Result ProcessResult.t) :
  ProcessInbound E workspaceID channelAccountID inbound w = (r, w') ->
  ((exists e, r = Err e) /\ quiet w w'
   /\ forall x w1 y w2 message w3,
        findOrCreateParticipant E workspaceID channelAccountID inbound w
        = (Ok x, w1) ->
        findOrCreateConversation E workspaceID channelAccountID
          (Participant.ID (fst x)) w1 = (Ok y, w2) ->
        saveMessage E (Conversation.ID (fst y)) inbound w2 = (Ok message, w3) ->
        False)
  \/ exists x w1 y w2 message w3 w4 bot,
       findOrCreateParticipant E workspaceID channelAccountID inbound w
       = (Ok x, w1)
       /\ findOrCreateConversation E workspaceID channelAccountID
            (Participant.ID (fst x)) w1 = (Ok y, w2)
       /\ saveMessage E (Conversation.ID (fst y)) inbound w2 = (Ok message, w3)
       /\ writes_conversations w3 w4
       /\ (World.conversations w4 = World.conversations w3
           \/ World.conversations w4
              = save_row Conversation.ID
                  (UpdateLastMessage (InboundMessage.Content inbound)
                     (InboundMessage.Timestamp inbound) (fst y))
                  (World.conversations w3))
       /\ ProcessInbound_bot E workspaceID channelAccountID
            (UpdateLastMessage (InboundMessage.Content inbound)
               (InboundMessage.Timestamp inbound) (fst y))
            inbound message w4 = (Ok bot, w')
       /\ r = Ok (ProcessResult.mk (Participant.ID (fst x)) (snd x)
                    (Conversation.ID (fst y)) (snd y) (Message.ID message)
                    (match bot with
                     | Some b => botProcessResult.ShouldReply b
                     | None => false
                     end)
                    (match bot with
                     | Some b => botProcessResult.ShouldHandoff b
                     | None => false
                     end)
                    (match bot with
                     | Some b => botProcessResult.ResponseSent b
                     | None => None
                     end)).
Proof.
  unfold ProcessInbound. intros H.
  apply bind_inv in H as [(x & w1 & Hx & H)|(e & Hx & ->)].
  2:{ left. splits; [eauto| |congruence].
      apply (steps_elim _ _ _ _ _ (findOrCreateParticipant_frame E _ _ _) Hx). }
  pose proof (steps_elim _ _ _ _ _ (findOrCreateParticipant_frame E _ _ _) Hx)
    as (Hq1 & _).
  apply bind_inv in H as [(y & w2 & Hy & H)|(e & Hy & ->)].
  2:{ left. splits; [eauto| |congruence]. etransitivity; [exact Hq1|].
      apply (steps_elim _ _ _ _ _ (findOrCreateConversation_frame E _ _ _) Hy). }
  pose proof (steps_elim _ _ _ _ _ (findOrCreateConversation_frame E _ _ _) Hy)
    as (Hq2 & _).
  apply bind_inv in H as [(message & w3 & Hm & H)|(e & Hm & ->)].
  2:{ left. splits; [eauto| |congruence]. etransitivity; [exact Hq1|].
      etransitivity; [exact Hq2|].
      apply (steps_elim _ _ _ _ _ (saveMessage_frame E _ _) Hm). }
  right. exists x, w1, y, w2, message, w3.
  apply bind_inv in H as [(z & wz & Hz & H)|(e & Hz & _)].
  2:{ unfold updateConversationLastMessage in Hz.
      apply bind_try_inv in Hz as (r0 & w0 & _ & Hz). inversion Hz. }
  pose proof (steps_elim _ _ _ _ _ (updateConversationLastMessage_frame E _ _) Hz)
    as Hfz.
  assert (Hzv : fst z = UpdateLastMessage (InboundMessage.Content inbound)
                          (InboundMessage.Timestamp inbound) (fst y)
                /\ (World.conversations wz = World.conversations w3
                    \/ World.conversations wz
                       = save_row Conversation.ID
                           (UpdateLastMessage (InboundMessage.Content inbound)
                              (InboundMessage.Timestamp inbound) (fst y))
                           (World.conversations w3))).
  { unfold updateConversationLastMessage in Hz. cbv zeta in Hz.
    apply bind_try_inv in Hz as (r0 & w0 & Hu & Hz). inversion Hz; subst.
    split; [reflexivity|].
    unfold conversationRepo_Update, bind, db_exec, modify in Hu.
    destruct (db_fails E (World.db_statements w3)); inversion Hu; subst; auto. }
  destruct Hzv as (Hzc & Hzt).
  apply bind_inv in H as [([] & wl & Hl & H)|(e & Hl & _)].
  2:{ destruct (snd z); inversion Hl. }
  rewrite bind_get_world in H.
  apply bind_inv in H as [([] & wp & Hp & H)|(e & Hp & _)].
  2:{ destruct (World.publisher wl); inversion Hp. }
  apply bind_inv in H as [(bot & wb & Hb & H)|(e & Hb & _)].
  2:{ apply ProcessInbound_bot_run in Hb as [(_ & Hr & _)|(_ & pr & w0 & _ & Hr)];
        [discriminate|]. destruct pr; destruct Hr; discriminate. }
  inversion H; subst. clear H.
  assert (Hlp : writes_conversations wz wp /\ World.conversations wp = World.conversations wz).
  { assert (Hl' : writes_conversations wz wl
                  /\ World.conversations wl = World.conversations wz).
    { destruct (snd z); inversion Hl; subst;
        (split; [|reflexivity]); repeat split;
        first [reflexivity | apply quiet_event; reflexivity]. }
    assert (Hp' : writes_conversations wl wp
                  /\ World.conversations wp = World.conversations wl).
    { destruct (World.publisher wl); inversion Hp; subst;
        (split; [|reflexivity]); repeat split;
        first [reflexivity | apply quiet_event; reflexivity]. }
    destruct Hl' as (Hl1 & Hl2), Hp' as (Hp1 & Hp2).
    split; [etransitivity; eassumption|congruence]. }
  destruct Hlp as (Hlp & Hlpc).
  exists wp, bot. rewrite Hzc in *. splits; try assumption.
  - etransitivity; eassumption.
  - rewrite Hlpc. exact Hzt.
  - reflexivity.
Qed.

End Orchestrator.

Section PipelineClaims.
Context (E : Env).

(** The events of a run of [ProcessInbound] that reached the bot block:
    those of [processBotResponse], after a quiet start. *)
Lemma ProcessInbound_events (workspaceID channelAccountID : uuid)
    (inbound : InboundMessage.t) (w w' : World.t)
    (r : Result ProcessResult.t) (evs : list Event) (e : Event) :
  ProcessInbound E workspaceID channelAccountID inbound w = (r, w') ->
  extends w evs w' -> In e evs -> watched e = true ->
  exists x w1 y w2 message w3 w4 pr w5 evs_bot,
    findOrCreateParticipant E workspaceID channelAccountID inbound w = (Ok x, w1)
    /\ findOrCreateConversation E workspaceID channelAccountID
         (Participant.ID (fst x)) w1 = (Ok y, w2)
    /\ IsBotPaused (fst y) = false
    /\ saveMessage E (Conversation.ID (fst y)) inbound w2 = (Ok message, w3)
    /\ quiet w w4
    /\ processBotResponse E workspaceID channelAccountID
         (UpdateLastMessage (InboundMessage.Content inbound)
            (InboundMessage.Timestamp inbound) (fst y))
         inbound message w4 = (pr, w5)
    /\ extends w4 evs_bot w5
    /\ World.conversations w' = World.conversations w5
    /\ World.messages w' = World.messages w5
    /\ (forall e', watched e' = true -> In e' evs <-> In e' evs_bot)
    /\ exists result,
         r = Ok result
         /\ ProcessResult.ConversationID result = Conversation.ID (fst y)
         /\ match pr with
            | Ok b =>
                ProcessResult.BotReplied result = botProcessResult.ShouldReply b
                /\ ProcessResult.ResponseSent result
                   = botProcessResult.ResponseSent b
            | Err _ =>
                ProcessResult.BotReplied result = false
                /\ ProcessResult.ResponseSent result = None
            end.
Proof.
  intros H Hext Hin Hw.
  apply ProcessInbound_run in H
    as [(_ & Hq & _)|(x & w1 & y & w2 & message & w3 & w4 & bot
                  & Hx & Hy & Hm & Hz & _ & Hb & ->)].
  { rewrite (quiet_not_watched _ _ _ _ Hq Hext Hin) in Hw. discriminate. }
  assert (Hq4 : quiet w w4).
  { etransitivity;
      [apply (steps_elim _ _ _ _ _ (findOrCreateParticipant_frame E _ _ _) Hx)|].
    etransitivity;
      [apply (steps_elim _ _ _ _ _ (findOrCreateConversation_frame E _ _ _) Hy)|].
    etransitivity;
      [apply (steps_elim _ _ _ _ _ (saveMessage_frame E _ _) Hm)|].
    apply Hz. }
  apply ProcessInbound_bot_run in Hb
    as [(_ & _ & ->)|(Hnp & pr & w5 & Hp & Hr)].
  { rewrite (quiet_not_watched _ _ _ _ Hq4 Hext Hin) in Hw. discriminate. }
  destruct (processBotResponse_run E _ _ _ _ _ _ _ _ Hp) as (evs_bot & Hext5 & _).
  destruct Hq4 as (evs4 & Hext4 & Hqe4).
  exists x, w1, y, w2, message, w3, w4, pr, w5, evs_bot.
  assert (Hevs : exists evs_log,
             evs = (evs_log ++ evs_bot ++ evs4)%list
             /\ Forall (fun e => watched e = false) evs_log
             /\ World.conversations w' = World.conversations w5
             /\ World.messages w' = World.messages w5).
  { unfold extends in *. destruct pr as [b|err]; destruct Hr as (_ & ->).
    - exists []. splits; [|constructor|reflexivity|reflexivity].
      simpl. apply (app_inv_tail (World.trace w)).
      rewrite <- Hext, Hext5, Hext4, app_assoc. reflexivity.
    - exists [EvLog "warn" "bot response failed"].
      splits; [|repeat constructor|reflexivity|reflexivity].
      apply (app_inv_tail (World.trace w)).
      rewrite <- Hext. simpl. rewrite Hext5, Hext4, app_assoc. reflexivity. }
  destruct Hevs as (evs_log & -> & Hql & Hc' & Hm').
  splits; try assumption.
  - exists evs4. split; assumption.
  - intros e' Hw'. split.
    + intros Hin'. in_segments Hin'; try not_in_quiet. exact Hin'.
    + intros Hin'. apply in_or_app. right. apply in_or_app. left. exact Hin'.
  - destruct pr as [b|err]; destruct Hr as (Hr & _); inversion Hr; subst bot;
      eexists; (split; [reflexivity|]); simpl; auto.
Qed.

(** C9: in a run of [ProcessInbound] the responder is called only when
    the conversation the delivery resolved to is not paused, and then for
    this workspace, sender and content. When the responder returns
    [ShouldHandoff = true], [ProcessInbound] returns a result, and the
    conversation of that result is written to the table in the state
    [bot_paused] with the reason the responder gave, unless the write
    failed and was logged. *)
Theorem C9_responder_only_when_not_paused_and_handoff_pauses
    (workspaceID channelAccountID : uuid) (inbound : InboundMessage.t)
    (w w' : World.t) (r : Result ProcessResult.t) (evs : list Event) :
  ProcessInbound E workspaceID channelAccountID inbound w = (r, w') ->
  extends w evs w' ->
  (forall ws rc ct res,
      In (EvProcess ws rc ct res) evs ->
      exists x w1 y w2,
        findOrCreateParticipant E workspaceID channelAccountID inbound w
        = (Ok x, w1)
        /\ findOrCreateConversation E workspaceID channelAccountID
             (Participant.ID (fst x)) w1 = (Ok y, w2)
        /\ IsBotPaused (fst y) = false
        /\ ws = workspaceID
        /\ rc = InboundMessage.SenderID inbound
        /\ ct = InboundMessage.Content inbound)
  /\ (forall ws rc ct response,
        In (EvProcess ws rc ct (Ok response)) evs ->
        BotResponse.ShouldHandoff response = true ->
        exists result,
          r = Ok result
          /\ (~ In (EvLog "warn" "failed to pause bot on conversation") evs ->
              exists c,
                In c (World.conversations w')
                /\ Conversation.ID c = ProcessResult.ConversationID result
                /\ Conversation.Status c = StatusBotPaused
                /\ ConversationMetadata.BotHandoffReason (Conversation.Metadata c)
                   = BotResponse.HandoffReason response)).
Proof.
  intros H Hext. split.
  - intros ws rc ct res Hin.
    destruct (ProcessInbound_events _ _ _ _ _ _ _ _ H Hext Hin eq_refl)
      as (x & w1 & y & w2 & message & w3 & w4 & pr & w5 & evs_bot
          & Hx & Hy & Hnp & _ & _ & Hp & Hext5 & _ & _ & Hiff & _).
    exists x, w1, y, w2.
    apply Hiff in Hin; [|reflexivity].
    destruct (processBotResponse_run E _ _ _ _ _ _ _ _ Hp)
      as (evs' & Hext' & _ & Hargs & _).
    rewrite (extends_inj _ _ _ _ Hext5 Hext') in Hin.
    apply Hargs in Hin. tauto.
  - intros ws rc ct response Hin Hhandoff.
    destruct (ProcessInbound_events _ _ _ _ _ _ _ _ H Hext Hin eq_refl)
      as (x & w1 & y & w2 & message & w3 & w4 & pr & w5 & evs_bot
          & Hx & Hy & Hnp & _ & _ & Hp & Hext5 & Hc' & _ & Hiff
          & result & -> & Hcid & _).
    exists result. split; [reflexivity|]. intros Hnolog.
    destruct (processBotResponse_run E _ _ _ _ _ _ _ _ Hp)
      as (evs' & Hext' & _ & _ & Hpause & _).
    rewrite <- (extends_inj _ _ _ _ Hext5 Hext') in Hpause.
    eexists. split.
    + rewrite Hc'. eapply Hpause; [apply Hiff; [reflexivity|exact Hin]|exact Hhandoff|].
      intros Hlog. apply Hnolog. apply Hiff; [reflexivity|exact Hlog].
    + simpl. rewrite Hcid. auto.
Qed.

(** C10: [BotReplied] is true only if a call of [Send] returned
    [Success = true], and [ResponseSent] is then the message sent. When
    [Send] returned without success, or the credentials of the channel
    account could not be read, [ProcessInbound] returns a result and no
    error, with [BotReplied = false] and no [ResponseSent]; and when the
    reply had been persisted, its bot-authored row is in the table, on
    the conversation of the result and with the content given to
    [Send]. *)
Theorem C10_BotReplied_only_when_Send_succeeded
    (workspaceID channelAccountID : uuid) (inbound : InboundMessage.t)
    (w w' : World.t) (r : Result ProcessResult.t) (evs : list Event) :
  ProcessInbound E workspaceID channelAccountID inbound w = (r, w') ->
  extends w evs w' ->
  (forall result,
      r = Ok result -> ProcessResult.BotReplied result = true ->
      exists ch m cr sr,
        In (EvSend ch m cr (Ok sr)) evs
        /\ SendResult.Success sr = true
        /\ ProcessResult.ResponseSent result = Some m)
  /\ ((exists ch m cr sres,
          In (EvSend ch m cr sres) evs
          /\ forall sr, sres = Ok sr -> SendResult.Success sr = false)
      \/ In (EvLog "warn" "failed to get channel account") evs ->
      exists result,
        r = Ok result
        /\ ProcessResult.BotReplied result = false
        /\ ProcessResult.ResponseSent result = None
        /\ (~ In (EvLog "warn" "failed to save bot message") evs ->
            exists row content,
              In row (World.messages w')
              /\ bot_reply_row (ProcessResult.ConversationID result) content row
              /\ forall ch m cr sres,
                   In (EvSend ch m cr sres) evs ->
                   content = OutboundMessage.Content m)).
Proof.
  intros H Hext. split.
  - intros result -> Hreplied.
    pose proof H as H0.
    apply ProcessInbound_run in H0
      as [((e & He) & _)|(x & w1 & y & w2 & message & w3 & w4 & bot
                          & Hx & Hy & Hm & Hz & _ & Hb & Hr)];
      [discriminate|].
    inversion Hr; subst result. clear Hr. simpl in Hreplied.
    destruct bot as [b|]; [|discriminate].
    apply ProcessInbound_bot_run in Hb
      as [(_ & Hr & _)|(Hnp & pr & w5 & Hp & Hr)]; [discriminate|].
    destruct pr as [b'|err]; destruct Hr as (Hr & ->); inversion Hr; subst b'.
    destruct (processBotResponse_run E _ _ _ _ _ _ _ _ Hp)
      as (evs' & Hext' & _ & _ & _ & Hrep & _).
    destruct (Hrep b eq_refl Hreplied) as (ch & m & cr & sr & Hin & Hs & Hsent).
    exists ch, m, cr, sr. splits; try assumption.
    assert (Hq4 : quiet w w4).
    { etransitivity;
        [apply (steps_elim _ _ _ _ _ (findOrCreateParticipant_frame E _ _ _) Hx)|].
      etransitivity;
        [apply (steps_elim _ _ _ _ _ (findOrCreateConversation_frame E _ _ _) Hy)|].
      etransitivity;
        [apply (steps_elim _ _ _ _ _ (saveMessage_frame E _ _) Hm)|].
      apply Hz. }
    destruct Hq4 as (evs4 & Hext4 & _).
    rewrite (extends_inj _ _ _ _ Hext (extends_trans _ _ _ _ _ Hext4 Hext')).
    apply in_or_app. left. exact Hin.
  - intros Hfail.
    assert (Hev : exists e, In e evs /\ watched e = true).
    { destruct Hfail as [(ch & m & cr & sres & Hin & _)|Hin]; eauto. }
    destruct Hev as (e & Hin & Hw).
    destruct (ProcessInbound_events _ _ _ _ _ _ _ _ H Hext Hin Hw)
      as (x & w1 & y & w2 & message & w3 & w4 & pr & w5 & evs_bot
          & Hx & Hy & Hnp & _ & _ & Hp & Hext5 & _ & Hm' & Hiff
          & result & -> & Hcid & Hres).
    destruct (processBotResponse_run E _ _ _ _ _ _ _ _ Hp)
      as (evs' & Hext' & _ & _ & _ & _ & Hfail').
    rewrite <- (extends_inj _ _ _ _ Hext5 Hext') in Hfail'.
    destruct Hfail' as (b & -> & Hreply & Hsent & Hrow).
    { destruct Hfail as [(ch & m & cr & sres & Hin' & Hf)|Hin'].
      - left. exists ch, m, cr, sres. split; [|exact Hf].
        apply Hiff; [reflexivity|exact Hin'].
      - right. apply Hiff; [reflexivity|exact Hin']. }
    exists result. destruct Hres as (Hbr & Hrs).
    splits; try congruence.
    intros Hsaved. destruct Hrow as (row & content & Hinr & Hbot & Hcontent).
    { intros Hlog. apply Hsaved. apply Hiff; [reflexivity|exact Hlog]. }
    exists row, content. splits.
    + rewrite Hm'. exact Hinr.
    + rewrite Hcid. exact Hbot.
    + intros ch m cr sres Hin'. eapply Hcontent. apply Hiff; [reflexivity|exact Hin'].
Qed.

End PipelineClaims.

(* ===================================================================== *)
(** ** One active conversation for a sender *)
(* ===================================================================== *)

Lemma first_by_ID_None {A : Type} (ID : A -> uuid) (rows : list A) :
  first_by_ID ID rows = None -> rows = [].
Proof.
  destruct rows as [|r rest]; simpl; [reflexivity|].
  destruct (first_by_ID ID rest) as [r'|]; [destruct (ID r' <? ID r)%N|];
    discriminate.
Qed.

(** The newest row that passes a filter, after a newer row is added. *)
Lemma last_filter_snoc {A : Type} (P : A -> Prop) `{!forall a, Decision (P a)}
    (rows : list A) (row : A) :
  P row -> last (filter P (rows ++ [row])%list) = Some row.
Proof.
  intros Hrow. rewrite filter_app, filter_cons, filter_nil.
  destruct (decide (P row)); [|contradiction]. apply last_snoc.
Qed.

(** The newest row that passes a filter, after it is overwritten by a row
    that passes the filter too. *)
Lemma last_filter_map {A : Type} (P : A -> Prop) `{!forall a, Decision (P a)}
    (f : A -> A) (row0 row : A) (rows : list A) :
  (forall a, f a = a \/ f a = row) -> f row0 = row -> P row ->
  last (filter P rows) = Some row0 ->
  last (filter P (map f rows)) = Some row.
Proof.
  intros Hf Hrow0 Hrow. induction rows as [|a rows IH] using rev_ind.
  - discriminate.
  - rewrite map_app, !filter_app. simpl map.
    rewrite !filter_cons, !filter_nil.
    destruct (decide (P a)) as [Ha|Ha].
    + rewrite last_snoc. intros Hl. inversion Hl; subst a.
      rewrite Hrow0. destruct (decide (P row)); [|contradiction].
      apply last_snoc.
    + rewrite app_nil_r. intros Hl. specialize (IH Hl).
      destruct (Hf a) as [-> | ->].
      * destruct (decide (P a)); [contradiction|]. rewrite app_nil_r. exact IH.
      * destruct (decide (P row)); [|contradiction]. apply last_snoc.
Qed.

Lemma last_filter_In {A : Type} (P : A -> Prop) `{!forall a, Decision (P a)}
    (rows : list A) (row : A) :
  last (filter P rows) = Some row -> In row rows /\ P row.
Proof.
  intros Hl. apply last_Some_elem_of in Hl.
  apply list_elem_of_filter in Hl as (HP & Hin).
  split; [apply list_elem_of_In; exact Hin|exact HP].
Qed.

Lemma last_filter_save_row {A : Type} (P : A -> Prop)
    `{!forall a, Decision (P a)} (ID : A -> uuid) (row0 row : A)
    (rows : list A) :
  ID row = ID row0 -> P row ->
  last (filter P rows) = Some row0 ->
  last (filter P (save_row ID row rows)) = Some row.
Proof.
  intros HID Hrow Hl. unfold save_row.
  destruct (existsb (fun r => (ID r =? ID row)%N) rows) eqn:Hex.
  - apply (last_filter_map P _ row0); try assumption.
    + intros a. destruct (ID a =? ID row)%N; auto.
    + rewrite HID, N.eqb_refl. reflexivity.
  - apply last_filter_snoc. exact Hrow.
Qed.

Lemma active_conversation_of_Some (participantID : uuid) (w : World.t)
    (c : Conversation.t) :
  active_conversation_of participantID w = Some c ->
  Conversation.ParticipantID c = participantID
  /\ is_active_status (Conversation.Status c) = true.
Proof.
  unfold active_conversation_of. intros H.
  apply last_filter_In in H as (_ & Hp & Hs).
  apply N.eqb_eq in Hp. auto.
Qed.

(** A conversation that is saved with the identifier of the active
    conversation of its participant, in an active state, is the active
    conversation afterwards. *)
Lemma active_conversation_of_save (participantID conversationID : uuid)
    (w w' : World.t) (c : Conversation.t) :
  Conversation.ID <$> active_conversation_of participantID w
  = Some conversationID ->
  Conversation.ID c = conversationID ->
  Conversation.ParticipantID c = participantID ->
  is_active_status (Conversation.Status c) = true ->
  World.conversations w'
  = save_row Conversation.ID c (World.conversations w) ->
  Conversation.ID <$> active_conversation_of participantID w'
  = Some conversationID.
Proof.
  unfold active_conversation_of. intros H HID Hp Hs Hw'.
  destruct (last _) as [c0|] eqn:Hlast in H; [|discriminate].
  inversion H as [HID0]. rewrite Hw'.
  rewrite (last_filter_save_row _ Conversation.ID c0 c).
  - simpl. congruence.
  - congruence.
  - split; [apply N.eqb_eq; exact Hp|exact Hs].
  - exact Hlast.
Qed.

Lemma active_conversation_of_tables (participantID : uuid) (w w' : World.t) :
  World.conversations w' = World.conversations w ->
  active_conversation_of participantID w'
  = active_conversation_of participantID w.
Proof. unfold active_conversation_of. intros ->. reflexivity. Qed.

Lemma participant_of_tables (channelAccountID : uuid) (channelUserID : string)
    (w w' : World.t) :
  World.participants w' = World.participants w ->
  participant_of channelAccountID channelUserID w'
  = participant_of channelAccountID channelUserID w.
Proof. unfold participant_of. intros ->. reflexivity. Qed.

Section Singleton.
Context (E : Env) (Hreliable : reliable E).

Lemma db_exec_reliable (w : World.t) :
  db_exec E w
  = (Ok tt, World.set_db_statements (S (World.db_statements w)) w).
Proof. unfold db_exec. rewrite Hreliable. reflexivity. Qed.

Lemma participantRepo_FindByChannelUserID_reliable (channelAccountID : uuid)
    (channelUserID : string) (w : World.t) :
  participantRepo_FindByChannelUserID E channelAccountID channelUserID w
  = (match participant_of channelAccountID channelUserID w with
     | Some p => Ok p
     | None => Err "record not found"
     end,
     World.set_db_statements (S (World.db_statements w)) w).
Proof.
  unfold participantRepo_FindByChannelUserID.
  rewrite (bind_ok _ _ _ _ _ (db_exec_reliable w)), bind_get_world.
  unfold participant_of. simpl World.participants.
  destruct (first_by_ID _ _); reflexivity.
Qed.

Lemma participantRepo_Create_reliable (participant : Participant.t)
    (w : World.t) :
  exists id w',
    participantRepo_Create E participant w
    = (Ok (Participant.with_ID id participant, Ok tt), w')
    /\ World.participants w'
       = (World.participants w ++ [Participant.with_ID id participant])%list
    /\ World.conversations w' = World.conversations w.
Proof.
  unfold participantRepo_Create, BeforeCreate, uuid_New_, try, bind, modify, ret.
  destruct (Participant.ID participant =? uuid_Nil)%N;
    rewrite db_exec_reliable; eexists; eexists; splits; reflexivity.
Qed.

(** With a database that answers, the participant is found or created,
    and is the one the sender resolves to from then on. *)
Lemma findOrCreateParticipant_reliable (workspaceID channelAccountID : uuid)
    (inbound : InboundMessage.t) (w : World.t) :
  exists x w1,
    findOrCreateParticipant E workspaceID channelAccountID inbound w
    = (Ok x, w1)
    /\ participant_of channelAccountID (InboundMessage.SenderID inbound) w1
       = Some (fst x)
    /\ forall p,
         participant_of channelAccountID (InboundMessage.SenderID inbound) w
         = Some p ->
         x = (p, false).
Proof.
  unfold findOrCreateParticipant. rewrite bind_time_Now.
  match goal with
  | |- context [participantRepo_FindOrCreate E ?p] => set (participant := p)
  end.
  assert (Hfind : exists x w0,
             participantRepo_FindOrCreate E participant w = (Ok x, w0)
             /\ participant_of channelAccountID
                  (InboundMessage.SenderID inbound) w0 = Some (fst x)
             /\ forall p,
                  participant_of channelAccountID
                    (InboundMessage.SenderID inbound) w = Some p ->
                  x = (p, false)).
  { unfold participantRepo_FindOrCreate.
    rewrite (bind_ok _ _ _ _ _
               (try_run _ _ _ _
                  (participantRepo_FindByChannelUserID_reliable _ _ w))).
    change (Participant.ChannelAccountID participant) with channelAccountID.
    change (Participant.ChannelUserID participant)
      with (InboundMessage.SenderID inbound).
    destruct (participant_of channelAccountID
                (InboundMessage.SenderID inbound) w) as [p|] eqn:Hp.
    - eexists; eexists. splits; [reflexivity| |].
      + simpl fst. rewrite <- Hp. apply participant_of_tables. reflexivity.
      + intros p' Hp'. inversion Hp'; subst. reflexivity.
    - destruct (participantRepo_Create_reliable participant
                  (World.set_db_statements (S (World.db_statements w)) w))
        as (id & w' & Hc & Hrows & _).
      rewrite (bind_ok _ _ _ _ _ Hc). eexists; eexists.
      splits; [reflexivity| |discriminate].
      unfold participant_of in *. rewrite Hrows. simpl World.participants.
      apply first_by_ID_None in Hp. rewrite filter_app, Hp.
      rewrite filter_cons, filter_nil.
      destruct (decide _) as [_|Hn]; [reflexivity|].
      exfalso. apply Hn. simpl. split; [apply N.eqb_refl|reflexivity]. }
  destruct Hfind as (x & w0 & Hx & Hof & Hfound).
  rewrite (bind_ok _ _ _ _ _ Hx).
  assert (Hspawn : exists w1,
             (match Participant.Name (fst x) with
              | None =>
                  if InboundMessage.ChannelType inbound =? "facebook"
                  then emit (EvGoFetchAndUpdateFBProfile (fst x) channelAccountID)
                  else ret tt
              | Some _ => ret tt
              end) w0 = (Ok tt, w1)
             /\ World.participants w1 = World.participants w0).
  { destruct (Participant.Name (fst x));
      [|destruct (InboundMessage.ChannelType inbound =? "facebook")];
      eexists; split; reflexivity. }
  destruct Hspawn as (w1 & Hs & Hrows).
  rewrite (bind_ok _ _ _ _ _ Hs). exists x, w1.
  splits; [reflexivity| |exact Hfound].
  rewrite <- Hof. apply participant_of_tables. exact Hrows.
Qed.

Lemma conversationRepo_FindOpenByParticipant_reliable (participantID : uuid)
    (w : World.t) :
  conversationRepo_FindOpenByParticipant E participantID w
  = (match active_conversation_of participantID w with
     | Some c => Ok c
     | None => Err "record not found"
     end,
     World.set_db_statements (S (World.db_statements w)) w).
Proof.
  unfold conversationRepo_FindOpenByParticipant.
  rewrite (bind_ok _ _ _ _ _ (db_exec_reliable w)), bind_get_world.
  unfold active_conversation_of. simpl World.conversations.
  destruct (last _); reflexivity.
Qed.

Lemma conversationRepo_Create_reliable (conv : Conversation.t) (w : World.t) :
  exists id w',
    conversationRepo_Create E conv w
    = (Ok (Conversation.with_ID id conv, Ok tt), w')
    /\ World.conversations w'
       = (World.conversations w ++ [Conversation.with_ID id conv])%list.
Proof.
  unfold conversationRepo_Create, BeforeCreate, uuid_New_, try, bind, modify, ret.
  destruct (Conversation.ID conv =? uuid_Nil)%N;
    rewrite db_exec_reliable; eexists; eexists; splits; reflexivity.
Qed.

(** With a database that answers, the conversation is found or created,
    and is the active conversation of the participant from then on. *)
Lemma findOrCreateConversation_reliable
    (workspaceID channelAccountID participantID : uuid) (w : World.t) :
  exists y w2,
    findOrCreateConversation E workspaceID channelAccountID participantID w
    = (Ok y, w2)
    /\ active_conversation_of participantID w2 = Some (fst y)
    /\ forall c,
         active_conversation_of participantID w = Some c -> y = (c, false).
Proof.
  unfold findOrCreateConversation, conversationRepo_FindOrCreate.
  rewrite (bind_ok _ _ _ _ _
             (try_run _ _ _ _
                (conversationRepo_FindOpenByParticipant_reliable _ w))).
  cbn [Conversation.ParticipantID].
  destruct (active_conversation_of participantID w) as [c|] eqn:Hc.
  - eexists; eexists. splits; [reflexivity| |].
    + simpl fst. rewrite <- Hc. apply active_conversation_of_tables. reflexivity.
    + intros c' Hc'. inversion Hc'; subst. reflexivity.
  - match goal with
    | |- context [conversationRepo_Create E ?c ] => set (conv := c)
    end.
    destruct (conversationRepo_Create_reliable conv
                (World.set_db_statements (S (World.db_statements w)) w))
      as (id & w' & Hcr & Hrows).
    rewrite (bind_ok _ _ _ _ _ Hcr). eexists; eexists.
    splits; [reflexivity| |discriminate].
    unfold active_conversation_of. rewrite Hrows.
    apply last_filter_snoc. simpl. split; [apply N.eqb_refl|reflexivity].
Qed.

Lemma messageRepo_Create_reliable (msg : Message.t) (w : World.t) :
  exists id w',
    messageRepo_Create E msg w = (Ok (Message.with_ID id msg, Ok tt), w').
Proof.
  unfold messageRepo_Create, BeforeCreate, uuid_New_, try, bind, modify, ret.
  destruct (Message.ID msg =? uuid_Nil)%N;
    rewrite db_exec_reliable; eexists; eexists; reflexivity.
Qed.

Lemma saveMessage_reliable (conversationID : uuid)
    (inbound : InboundMessage.t) (w : World.t) :
  exists message w3, saveMessage E conversationID inbound w = (Ok message, w3).
Proof.
  unfold saveMessage.
  match goal with
  | |- context [messageRepo_Create E ?m] =>
      destruct (messageRepo_Create_reliable m w) as (id & w' & Hc)
  end.
  rewrite (bind_ok _ _ _ _ _ Hc). eexists; eexists; reflexivity.
Qed.

End Singleton.

Section SingletonRun.
Context (E : Env).

(** What [processBotResponse] writes to the conversations: nothing, or
    the conversation it was given, paused. *)
Lemma processBotResponse_conversations (workspaceID channelAccountID : uuid)
    (conv : Conversation.t) (inbound : InboundMessage.t)
    (inboundMsg : Message.t) (w w' : World.t)
    (r : Result botProcessResult.t) :
  processBotResponse E workspaceID channelAccountID conv inbound inboundMsg w
  = (r, w') ->
  World.participants w' = World.participants w
  /\ (World.conversations w' = World.conversations w
      \/ exists reason,
           World.conversations w'
           = save_row Conversation.ID (PauseBot reason conv)
               (World.conversations w)).
Proof.
  unfold processBotResponse. intros H.
  apply bind_inv in H as [(botResponse & w1 & Hp & H)|(e & Hp & ->)].
  2:{ apply Process_run in Hp as (w1 & (_ & Hpa & Hco & _) & ->).
      unfold keeps in *. simpl. auto. }
  apply Process_run in Hp as (w0 & (_ & Hpa1 & Hco1 & _) & ->).
  unfold keeps in *.
  apply bind_inv in H as [(sh & w2 & Hh & H)|(e & Hh & _)].
  2:{ apply processBotResponse_handoff_run in Hh as (Hr & _). discriminate. }
  apply processBotResponse_handoff_run in Hh as (_ & Hpa2 & _ & Hh).
  simpl in Hpa2, Hh.
  assert (Hco2 : World.conversations w2 = World.conversations w
                 \/ exists reason,
                      World.conversations w2
                      = save_row Conversation.ID (PauseBot reason conv)
                          (World.conversations w)).
  { destruct (BotResponse.ShouldHandoff botResponse).
    - destruct Hh as [(_ & Hh)|(_ & Hh)].
      + right. eexists. rewrite Hh, Hco1. reflexivity.
      + left. congruence.
    - left. subst w2. simpl. exact Hco1. }
  assert (Htail : World.participants w' = World.participants w2
                  /\ World.conversations w' = World.conversations w2).
  { destruct (BotResponse.ShouldReply botResponse);
      [destruct (BotResponse.Response botResponse) as [response|]|].
    - apply processBotResponse_reply_run in H as (evs & _ & Hco & Hpa & _).
      auto.
    - inversion H; subst. auto.
    - inversion H; subst. auto. }
  destruct Htail as (Hpa3 & Hco3). rewrite Hpa3, Hco3. split; [congruence|].
  exact Hco2.
Qed.

(** X28: with a database that answers every statement, the first of two
    deliveries from one sender on one channel account is processed, and
    leaves the conversation of its result as the active conversation of
    the participant of its result. As long as that conversation is the
    active conversation of this participant, in a state [open],
    [pending] or [bot_paused], a second delivery from the sender on the
    account is processed too, resolves to the same participant and the
    same conversation, and reports [ConversationCreated = false]. *)
Theorem second_delivery_resolves_to_the_same_conversation
    (workspaceID channelAccountID : uuid)
    (inbound1 inbound2 : InboundMessage.t) (w : World.t) :
  reliable E ->
  InboundMessage.SenderID inbound2 = InboundMessage.SenderID inbound1 ->
  exists result1 w1,
    ProcessInbound E workspaceID channelAccountID inbound1 w = (Ok result1, w1)
    /\ Conversation.ID
         <$> active_conversation_of (ProcessResult.ParticipantID result1) w1
       = Some (ProcessResult.ConversationID result1)
    /\ forall w1',
         World.participants w1' = World.participants w1 ->
         Conversation.ID
           <$> active_conversation_of (ProcessResult.ParticipantID result1) w1'
         = Some (ProcessResult.ConversationID result1) ->
         exists result2 w2,
           ProcessInbound E workspaceID channelAccountID inbound2 w1'
           = (Ok result2, w2)
           /\ ProcessResult.ParticipantID result2
              = ProcessResult.ParticipantID result1
           /\ ProcessResult.ConversationID result2
              = ProcessResult.ConversationID result1
           /\ ProcessResult.ConversationCreated result2 = false.
Proof.
  intros Hreliable Hsender.
  (* the first delivery *)
  destruct (findOrCreateParticipant_reliable E Hreliable workspaceID
              channelAccountID inbound1 w) as (x & wa & Hx & Hpx & _).
  destruct (findOrCreateConversation_reliable E Hreliable workspaceID
              channelAccountID (Participant.ID (fst x)) wa)
    as (y & wb & Hy & Hcy & _).
  destruct (saveMessage_reliable E Hreliable (Conversation.ID (fst y))
              inbound1 wb) as (m & wc & Hm).
  destruct (ProcessInbound E workspaceID channelAccountID inbound1 w)
    as [r1 w1] eqn:Hrun1.
  apply ProcessInbound_run in Hrun1
    as [(_ & _ & Hno)|(x' & wa' & y' & wb' & m' & wc' & wd & bot
                        & Hx' & Hy' & Hm' & Hwd & Hcd & Hbot & ->)].
  { destruct (Hno _ _ _ _ _ _ Hx Hy Hm). }
  rewrite Hx in Hx'. inversion Hx'; subst x' wa'. clear Hx'.
  rewrite Hy in Hy'. inversion Hy'; subst y' wb'. clear Hy'.
  rewrite Hm in Hm'. inversion Hm'; subst m' wc'. clear Hm'.
  pose proof (steps_elim _ _ _ _ _ (findOrCreateConversation_frame E _ _ _) Hy)
    as (_ & Hpab & _).
  pose proof (steps_elim _ _ _ _ _ (saveMessage_frame E _ _) Hm)
    as (_ & Hpac & Hcoc).
  destruct Hwd as (_ & Hpad & _). unfold keeps in *.
  destruct (active_conversation_of_Some _ _ _ Hcy) as (Hyp & Hys).
  assert (Hactive_c : Conversation.ID
                        <$> active_conversation_of (Participant.ID (fst x)) wc
                      = Some (Conversation.ID (fst y))).
  { rewrite (active_conversation_of_tables _ _ _ Hcoc), Hcy. reflexivity. }
  assert (Hactive_d : Conversation.ID
                        <$> active_conversation_of (Participant.ID (fst x)) wd
                      = Some (Conversation.ID (fst y))).
  { destruct Hcd as [Hcd|Hcd].
    - rewrite (active_conversation_of_tables _ _ _ Hcd). exact Hactive_c.
    - eapply active_conversation_of_save; [exact Hactive_c| | | |exact Hcd];
        [reflexivity|exact Hyp|exact Hys]. }
  assert (Hfinal : World.participants w1 = World.participants wd
                   /\ Conversation.ID
                        <$> active_conversation_of (Participant.ID (fst x)) w1
                      = Some (Conversation.ID (fst y))).
  { apply ProcessInbound_bot_run in Hbot
      as [(_ & _ & ->)|(_ & pr & we & Hpr & Hr)]; [auto|].
    apply processBotResponse_conversations in Hpr as (Hpae & Hcoe).
    assert (Hactive_e : Conversation.ID
                          <$> active_conversation_of (Participant.ID (fst x)) we
                        = Some (Conversation.ID (fst y))).
    { destruct Hcoe as [Hcoe|(reason & Hcoe)].
      - rewrite (active_conversation_of_tables _ _ _ Hcoe). exact Hactive_d.
      - eapply active_conversation_of_save; [exact Hactive_d| | | |exact Hcoe];
          [reflexivity|exact Hyp|reflexivity]. }
    destruct pr as [b|err]; destruct Hr as (_ & ->); auto. }
  destruct Hfinal as (Hpa1 & Hactive1).
  eexists; eexists. splits; [reflexivity|exact Hactive1|].
  (* the second delivery *)
  cbn [ProcessResult.ParticipantID ProcessResult.ConversationID].
  intros w1' Hpa1' Hactive1'.
  assert (Hpx' : participant_of channelAccountID
                   (InboundMessage.SenderID inbound2) w1' = Some (fst x)).
  { rewrite Hsender, <- Hpx. apply participant_of_tables. congruence. }
  destruct (findOrCreateParticipant_reliable E Hreliable workspaceID
              channelAccountID inbound2 w1') as (x2 & wa2 & Hx2 & _ & Hfound).
  rewrite (Hfound _ Hpx') in Hx2. clear Hfound.
  pose proof (steps_elim _ _ _ _ _ (findOrCreateParticipant_frame E _ _ _) Hx2)
    as (_ & Hcoa2 & _). unfold keeps in Hcoa2.
  destruct (active_conversation_of (Participant.ID (fst x)) w1')
    as [c|] eqn:Hc; [|discriminate].
  inversion Hactive1' as [Hcid].
  destruct (findOrCreateConversation_reliable E Hreliable workspaceID
              channelAccountID (Participant.ID (fst x)) wa2)
    as (y2 & wb2 & Hy2 & _ & Hfound).
  rewrite (Hfound c) in Hy2.
  2:{ rewrite <- Hc. apply active_conversation_of_tables. exact Hcoa2. }
  clear Hfound.
  destruct (saveMessage_reliable E Hreliable (Conversation.ID c) inbound2 wb2)
    as (m2 & wc2 & Hm2).
  destruct (ProcessInbound E workspaceID channelAccountID inbound2 w1')
    as [r2 w2] eqn:Hrun2.
  apply ProcessInbound_run in Hrun2
    as [(_ & _ & Hno)|(x' & wa' & y' & wb' & m' & wc' & wd' & bot'
                        & Hx' & Hy' & _ & _ & _ & _ & ->)].
  { destruct (Hno _ _ _ _ _ _ Hx2 Hy2 Hm2). }
  rewrite Hx2 in Hx'. inversion Hx'; subst x' wa'. clear Hx'.
  cbn [fst] in Hy'. rewrite Hy2 in Hy'. inversion Hy'; subst y' wb'.
  eexists; eexists. splits; [reflexivity| | |]; cbn; congruence.
Qed.

End SingletonRun.

(** C8: [conversationRepo.FindOrCreate] takes every error of
    [FindOpenByParticipant] for a participant that has no active
    conversation, and creates one. Two deliveries from the sender "u1" on
    the mock account, with a database whose statement 12, the lookup of
    the conversation for the second delivery, fails: the first delivery
    leaves its conversation open, as the active conversation of its
    participant; the second delivery is processed all the same, for the
    same participant, and does not resolve to that conversation: it
    creates a second open conversation and reports
    [ConversationCreated = true]. *)
Theorem C8_failed_lookup_opens_a_second_conversation :
  let E := Example.env_failing_at 12 in
  let '(r1, w1) :=
    ProcessInbound E 1%N 2%N (Example.text_from "mock" "u1" "m1" "Xin chao")
      (Example.world Example.greeting_rules) in
  let '(r2, w2) :=
    ProcessInbound E 1%N 2%N (Example.text_from "mock" "u1" "m2" "Xin chao")
      w1 in
  exists result1 result2 conv1,
    r1 = Ok result1 /\ r2 = Ok result2
    /\ active_conversation_of (ProcessResult.ParticipantID result1) w1
       = Some conv1
    /\ Conversation.ID conv1 = ProcessResult.ConversationID result1
    /\ Conversation.Status conv1 = StatusOpen
    /\ ProcessResult.ParticipantID result2 = ProcessResult.ParticipantID result1
    /\ ProcessResult.ConversationID result2
       <> ProcessResult.ConversationID result1
    /\ ProcessResult.ConversationCreated result2 = true
    /\ map Conversation.ParticipantID (World.conversations w2)
       = [ProcessResult.ParticipantID result1;
          ProcessResult.ParticipantID result1]
    /\ map Conversation.Status (World.conversations w2)
       = [StatusOpen; StatusOpen].
Proof.
  vm_compute. do 3 eexists.
  repeat split; try reflexivity. discriminate.
Qed.

(* ===================================================================== *)
(** ** Runs of the pipeline on the example workspace *)
(* ===================================================================== *)

(** An event of a trace that is written out. *)
Ltac in_trace := repeat first [left; reflexivity | right].

(** Two messages of sender "u1" on the mock account. *)
Lemma second_delivery_witness :
  exists result1 w1 result2 w2,
    ProcessInbound Example.env 1%N 2%N
      (Example.text_from "mock" "u1" "m1" "Xin chao")
      (Example.world Example.greeting_rules) = (Ok result1, w1)
    /\ ProcessInbound Example.env 1%N 2%N
         (Example.text_from "mock" "u1" "m2" "Gia bao nhieu?") w1
       = (Ok result2, w2)
    /\ ProcessResult.ConversationID result2
       = ProcessResult.ConversationID result1
    /\ ProcessResult.ConversationCreated result2 = false.
Proof.
  destruct (second_delivery_resolves_to_the_same_conversation
              Example.env 1%N 2%N
              (Example.text_from "mock" "u1" "m1" "Xin chao")
              (Example.text_from "mock" "u1" "m2" "Gia bao nhieu?")
              (Example.world Example.greeting_rules))
    as (result1 & w1 & Hrun1 & Hactive & Hsecond).
  - intros n. reflexivity.
  - reflexivity.
  - destruct (Hsecond w1 eq_refl Hactive)
      as (result2 & w2 & Hrun2 & _ & Hsame & Hcreated).
    exists result1, w1, result2, w2. auto.
Defined.

(** A customer of the mock account asks for an agent. *)
Lemma C9_handoff_witness :
  exists result w' c,
    ProcessInbound Example.env 1%N 2%N
      (Example.text_from "mock" "u1" "m1" "cho toi gap nhan vien")
      (Example.world Example.agent_rules) = (Ok result, w')
    /\ In c (World.conversations w')
    /\ Conversation.ID c = ProcessResult.ConversationID result
    /\ Conversation.Status c = StatusBotPaused.
Proof.
  pose (w := Example.world Example.agent_rules).
  pose (run := ProcessInbound Example.env 1%N 2%N
                 (Example.text_from "mock" "u1" "m1" "cho toi gap nhan vien") w).
  assert (Hrun : ProcessInbound Example.env 1%N 2%N
                   (Example.text_from "mock" "u1" "m1" "cho toi gap nhan vien") w
                 = (fst run, snd run))
    by (vm_compute; reflexivity).
  assert (Hext : extends w (World.trace (snd run)) (snd run))
    by (vm_compute; reflexivity).
  destruct (C9_responder_only_when_not_paused_and_handoff_pauses
              Example.env _ _ _ _ _ _ _ Hrun Hext) as (_ & Hpause).
  assert (Hev : exists ws rc ct response,
             In (EvProcess ws rc ct (Ok response)) (World.trace (snd run))
             /\ BotResponse.ShouldHandoff response = true).
  { vm_compute. do 4 eexists. split; [in_trace|reflexivity]. }
  destruct Hev as (ws & rc & ct & response & Hin & Hhandoff).
  destruct (Hpause ws rc ct response Hin Hhandoff) as (result & Hr & Hc).
  destruct Hc as (c & Hinc & Hid & Hstatus & _).
  { vm_compute. intuition discriminate. }
  exists result, (snd run), c. splits; try assumption.
  rewrite <- Hr. exact Hrun.
Defined.

(** A customer of the Facebook account, which has no page access token,
    sends a greeting: the reply is saved and [Send] fails. *)
Lemma C10_failed_Send_witness :
  exists result w' row content,
    ProcessInbound Example.env 1%N 3%N
      (Example.text_from "facebook" "u1" "m1" "Xin chao")
      (Example.world Example.greeting_rules) = (Ok result, w')
    /\ ProcessResult.BotReplied result = false
    /\ ProcessResult.ResponseSent result = None
    /\ In row (World.messages w')
    /\ bot_reply_row (ProcessResult.ConversationID result) content row.
Proof.
  pose (w := Example.world Example.greeting_rules).
  pose (run := ProcessInbound Example.env 1%N 3%N
                 (Example.text_from "facebook" "u1" "m1" "Xin chao") w).
  assert (Hrun : ProcessInbound Example.env 1%N 3%N
                   (Example.text_from "facebook" "u1" "m1" "Xin chao") w
                 = (fst run, snd run))
    by (vm_compute; reflexivity).
  assert (Hext : extends w (World.trace (snd run)) (snd run))
    by (vm_compute; reflexivity).
  destruct (C10_BotReplied_only_when_Send_succeeded
              Example.env _ _ _ _ _ _ _ Hrun Hext) as (_ & Hfailed).
  destruct Hfailed as (result & Hr & Hreplied & Hsent & Hrow).
  { left. vm_compute. do 4 eexists.
    split; [in_trace|]. intros sr Hsr. inversion Hsr. reflexivity. }
  destruct Hrow as (row & content & Hinr & Hbot & _).
  { vm_compute. intuition discriminate. }
  exists result, (snd run), row, content. splits; try assumption.
  rewrite <- Hr. exact Hrun.
Defined.

(* ===================================================================== *)
(** * The rest of the packages *)
(* ===================================================================== *)

(* ===================================================================== *)
(** ** The channel registry *)
(* ===================================================================== *)

(** X1: [Register] then [Get]: the adapter registered last under a type is
    the one [Get] returns for it, whatever was registered under that type
    before, and the other types are what they were. *)
Theorem Registry_Get_Register (ch : Channel) (channels : gmap string Channel)
    (channelType : string) :
  Registry_Get (Registry_Register ch channels) channelType
  = if decide (channelType = Channel_Type ch) then Ok ch
    else Registry_Get channels channelType.
Proof.
  unfold Registry_Get, Registry_Register.
  destruct (decide (channelType = Channel_Type ch)) as [->|Hne].
  - rewrite lookup_insert_eq. reflexivity.
  - rewrite lookup_insert_ne by congruence. reflexivity.
Qed.

(** X2: [Has], [Get], [GetAll] and [Count] agree: [Has] is true exactly for
    the types [Get] returns an adapter for, which are the types [GetAll]
    lists, each once, and [Count] is their number. *)
Theorem Registry_views_agree (channels : gmap string Channel)
    (channelType : string) :
  (Registry_Has channels channelType = true
   <-> exists ch, Registry_Get channels channelType = Ok ch)
  /\ (Registry_Has channels channelType = true
      <-> In channelType (Registry_GetAll channels))
  /\ NoDup (Registry_GetAll channels)
  /\ length (Registry_GetAll channels) = Registry_Count channels.
Proof.
  unfold Registry_Has, Registry_Get, Registry_GetAll, Registry_Count.
  split; [|split; [|split]].
  - destruct (channels !! channelType) as [ch|]; split.
    + eauto.
    + reflexivity.
    + discriminate.
    + intros (ch & H). discriminate.
  - rewrite <- list_elem_of_In, list_elem_of_fmap.
    split.
    + destruct (channels !! channelType) as [ch|] eqn:Hl; [|discriminate].
      intros _. exists (channelType, ch). split; [reflexivity|].
      apply elem_of_map_to_list. exact Hl.
    + intros ([k ch] & -> & Hin). apply elem_of_map_to_list in Hin.
      simpl. rewrite Hin. reflexivity.
  - apply NoDup_fst_map_to_list.
  - rewrite length_fmap. apply length_map_to_list.
Qed.

Lemma filed_by_type_empty : filed_by_type NewRegistry.
Proof.
  unfold filed_by_type, NewRegistry. intros t c H.
  rewrite lookup_empty in H. discriminate.
Qed.

Lemma filed_by_type_Register (ch : Channel) (channels : gmap string Channel) :
  filed_by_type channels -> filed_by_type (Registry_Register ch channels).
Proof.
  unfold filed_by_type, Registry_Register. intros Hwf t c H.
  destruct (decide (t = Channel_Type ch)) as [->|Hne].
  - rewrite lookup_insert_eq in H. congruence.
  - rewrite lookup_insert_ne in H by congruence. eauto.
Qed.

(** X3: A registry that is filled by [Register] files every adapter under
    the adapter's own type: the empty registry does, [Register] keeps it
    so, and it counts one adapter more exactly when the type is new. *)
Theorem Registry_Register_filed_by_type (ch : Channel)
    (channels : gmap string Channel) :
  filed_by_type NewRegistry
  /\ (filed_by_type channels -> filed_by_type (Registry_Register ch channels))
  /\ Registry_Count (Registry_Register ch channels)
     = (if Registry_Has channels (Channel_Type ch) then Registry_Count channels
        else S (Registry_Count channels)).
Proof.
  split; [exact filed_by_type_empty|]. split; [apply filed_by_type_Register|].
  unfold Registry_Register, Registry_Count, Registry_Has.
  rewrite map_size_insert.
  destruct (channels !! Channel_Type ch); reflexivity.
Qed.

Lemma Registry_Register_filed_by_type_witness :
  filed_by_type (Registry_Register MockChannel
                   (Registry_Register FacebookChannel NewRegistry)).
Proof.
  apply (Registry_Register_filed_by_type MockChannel).
  apply (Registry_Register_filed_by_type FacebookChannel).
  apply (Registry_Register_filed_by_type FacebookChannel ∅).
Defined.

(* ===================================================================== *)
(** ** Strings, by their bytes *)
(* ===================================================================== *)

Lemma length_append (s1 s2 : string) :
  String.length (s1 +:+ s2) = (String.length s1 + String.length s2)%nat.
Proof. induction s1 as [|c s1 IH]; simpl; [reflexivity|]. rewrite IH. reflexivity. Qed.

Lemma length_substring_0 (n : nat) (s : string) :
  (n <= String.length s)%nat -> String.length (substring 0 n s) = n.
Proof.
  revert s. induction n as [|n IH]; intros s Hn.
  - destruct s; reflexivity.
  - destruct s as [|c s]; simpl in *; [lia|]. rewrite IH by lia. reflexivity.
Qed.

(** [s[:n]] when it does not panic. *)
Lemma slice_to_Ok (s : string) (n : Z) :
  (0 <= n <= Z.of_nat (String.length s))%Z ->
  slice_to s n = Ok (substring 0 (Z.to_nat n) s)
  /\ Z.of_nat (String.length (substring 0 (Z.to_nat n) s)) = n.
Proof.
  intros Hn. unfold slice_to.
  destruct (n <? 0)%Z eqn:H0; [lia|].
  destruct (Z.of_nat (String.length s) <? n)%Z eqn:H1; [lia|].
  split; [reflexivity|]. rewrite length_substring_0 by lia. lia.
Qed.

Lemma slice_to_Err (s : string) (n : Z) :
  (n < 0)%Z -> slice_to s n = Err "panic: slice bounds out of range".
Proof.
  intros Hn. unfold slice_to. destruct (n <? 0)%Z eqn:H0; [reflexivity|lia].
Qed.

(* ===================================================================== *)
(** ** Previews and log excerpts *)
(* ===================================================================== *)

(** X4: [truncate] (mock.go) and [truncateForLog] (responder.go) are the same
    function. With a limit of at least 3 bytes it returns the string as it
    is when it fits, and otherwise its first [maxLen - 3] bytes followed
    by three dots, [maxLen] bytes in all. With a limit below 3 it panics
    on every string that is longer than the limit. *)
Theorem truncate_within_limit (s : string) (maxLen : Z) :
  truncateForLog s maxLen = truncate s maxLen
  /\ (3 <= maxLen ->
      exists r,
        truncate s maxLen = Ok r
        /\ Z.of_nat (String.length r) <= maxLen
        /\ (Z.of_nat (String.length s) <= maxLen -> r = s)
        /\ (maxLen < Z.of_nat (String.length s) ->
            r = substring 0 (Z.to_nat (maxLen - 3)) s +:+ "..."
            /\ Z.of_nat (String.length r) = maxLen))
  /\ (maxLen < 3 -> maxLen < Z.of_nat (String.length s) ->
      truncate s maxLen = Err "panic: slice bounds out of range").
Proof.
  split; [reflexivity|]. unfold truncate. split.
  - intros H3. destruct (Z.of_nat (String.length s) <=? maxLen)%Z eqn:Hfit.
    + exists s. split; [reflexivity|]. split; [lia|]. split; [reflexivity|lia].
    + destruct (slice_to_Ok s (maxLen - 3)) as (-> & Hlen); [lia|].
      eexists. split; [reflexivity|].
      rewrite length_append. simpl String.length.
      split; [lia|]. split; [lia|]. intros _. split; [reflexivity|lia].
  - intros H3 Hlong.
    destruct (Z.of_nat (String.length s) <=? maxLen)%Z eqn:Hfit; [lia|].
    rewrite slice_to_Err by lia. reflexivity.
Qed.

Lemma truncate_within_limit_witness :
  truncate "mock channel" 10 = Ok "mock ch..."
  /\ truncate "mock channel" 2 = Err "panic: slice bounds out of range".
Proof.
  destruct (truncate_within_limit "mock channel" 10) as (_ & Hfit & _).
  destruct (truncate_within_limit "mock channel" 2) as (_ & _ & Hpanic).
  split.
  - destruct Hfit as (r & -> & _ & _ & Hcut); [lia|].
    destruct Hcut as (-> & _); [simpl; lia|]. reflexivity.
  - apply Hpanic; simpl; lia.
Defined.

(** X5: [GetContentPreview] of a message with content, with a limit of at
    least 3 bytes: never more than [maxLen] bytes, the content itself when
    it fits and its first [maxLen - 3] bytes with three dots otherwise.
    With a limit below 3 it panics on longer content. A message without
    content gives ["[Attachment]"] or the empty string, whatever the
    limit. *)
Theorem GetContentPreview_within_limit (m : Message.t) (maxLen : Z) :
  (forall content,
      Message.Content m = Some content -> 3 <= maxLen ->
      exists preview,
        GetContentPreview m maxLen = Ok preview
        /\ Z.of_nat (String.length preview) <= maxLen
        /\ (Z.of_nat (String.length content) <= maxLen -> preview = content)
        /\ (maxLen < Z.of_nat (String.length content) ->
            preview = substring 0 (Z.to_nat (maxLen - 3)) content +:+ "..."))
  /\ (forall content,
        Message.Content m = Some content ->
        maxLen < 3 -> maxLen < Z.of_nat (String.length content) ->
        GetContentPreview m maxLen = Err "panic: slice bounds out of range")
  /\ (Message.Content m = None ->
      GetContentPreview m maxLen
      = Ok (if HasAttachments m then "[Attachment]" else "")).
Proof.
  unfold GetContentPreview. split; [|split].
  - intros content -> H3.
    destruct (maxLen <? Z.of_nat (String.length content))%Z eqn:Hlong.
    + destruct (slice_to_Ok content (maxLen - 3)) as (-> & Hlen); [lia|].
      eexists. split; [reflexivity|].
      rewrite length_append. simpl String.length.
      split; [lia|]. split; [lia|]. intros _. reflexivity.
    + exists content. split; [reflexivity|]. split; [lia|].
      split; [reflexivity|lia].
  - intros content -> H3 Hlong.
    destruct (maxLen <? Z.of_nat (String.length content))%Z eqn:Hl; [|lia].
    rewrite slice_to_Err by lia. reflexivity.
  - intros ->. destruct (HasAttachments m); reflexivity.
Qed.

Lemma GetContentPreview_within_limit_witness :
  GetContentPreview
    (Message.mk 1%N 2%N DirectionIn SenderCustomer (Some "Xin chao shop")
       ContentText [] None MessageMetadata.zero) 10
  = Ok "Xin cha..."
  /\ GetContentPreview
       (Message.mk 1%N 2%N DirectionIn SenderCustomer None
          ContentText [] None MessageMetadata.zero) 0
     = Ok "".
Proof.
  split.
  - destruct (GetContentPreview_within_limit
                (Message.mk 1%N 2%N DirectionIn SenderCustomer
                   (Some "Xin chao shop") ContentText [] None
                   MessageMetadata.zero) 10) as (Hfit & _).
    destruct (Hfit "Xin chao shop" eq_refl) as (preview & -> & _ & _ & Hcut);
      [lia|].
    rewrite Hcut by (simpl; lia). reflexivity.
  - destruct (GetContentPreview_within_limit
                (Message.mk 1%N 2%N DirectionIn SenderCustomer None
                   ContentText [] None MessageMetadata.zero) 0)
      as (_ & _ & Hnone).
    rewrite Hnone by reflexivity. reflexivity.
Defined.

(* ===================================================================== *)
(** ** The conversation and its states *)
(* ===================================================================== *)

(** X6: [UpdateLastMessage] stores the time and a preview of at most 500
    bytes: the content when it has no more than 500 bytes, else its first
    497 bytes and three dots; it changes nothing else. *)
Theorem UpdateLastMessage_preview (content : string) (at_ : Time)
    (c : Conversation.t) :
  let c' := UpdateLastMessage content at_ c in
  let preview :=
    if (String.length content <=? 500)%nat then content
    else substring 0 497 content +:+ "..." in
  Conversation.LastMessagePreview c' = Some preview
  /\ (String.length preview <= 500)%nat
  /\ Conversation.LastMessageAt c' = Some at_
  /\ c' = Conversation.mk (Conversation.ID c) (Conversation.WorkspaceID c)
            (Conversation.ChannelAccountID c) (Conversation.ParticipantID c)
            (Conversation.Status c) (Conversation.AssignedTo c)
            (Conversation.Priority c) (Some at_) (Some preview)
            (Conversation.ResolvedAt c) (Conversation.Metadata c).
Proof.
  cbv zeta. unfold UpdateLastMessage. cbn [Conversation.LastMessagePreview
    Conversation.LastMessageAt].
  assert (Hp : (if (500 <? String.length content)%nat
                then substring 0 497 content +:+ "..." else content)
               = (if (String.length content <=? 500)%nat then content
                  else substring 0 497 content +:+ "...")).
  { destruct (Nat.ltb_spec 500 (String.length content)),
             (Nat.leb_spec (String.length content) 500); try reflexivity; lia. }
  rewrite Hp. split; [reflexivity|]. split; [|split; reflexivity].
  destruct (Nat.leb_spec (String.length content) 500); [assumption|].
  rewrite length_append, length_substring_0 by lia. simpl. lia.
Qed.

(** X7: Pausing and resuming the bot, and closing and reopening, give the
    conversation back as it was only if it was open with no handoff reason
    (no resolution time and closing reason) on it: [ResumeBot] and
    [Reopen] always leave it open, also when it was pending or closed
    before. *)
Theorem Conversation_round_trips (c : Conversation.t) (reason : string)
    (now : Time) :
  (ResumeBot (PauseBot reason c) = c
   <-> Conversation.Status c = StatusOpen
       /\ ConversationMetadata.BotHandoffReason (Conversation.Metadata c) = "")
  /\ (Reopen (Close reason now c) = c
      <-> Conversation.Status c = StatusOpen
          /\ Conversation.ResolvedAt c = None
          /\ ConversationMetadata.ClosedReason (Conversation.Metadata c) = "")
  /\ Conversation.Status (ResumeBot (PauseBot reason c)) = StatusOpen
  /\ Conversation.Status (Reopen (Close reason now c)) = StatusOpen
  /\ IsBotPaused (PauseBot reason c) = true
  /\ IsClosed (Close reason now c) = true.
Proof.
  destruct c as [id ws acc pid st asg pr lma lmp res [bhr cr]].
  unfold ResumeBot, PauseBot, Reopen, Close, IsBotPaused, IsClosed. simpl.
  split; [|split; [|repeat split]].
  - split.
    + intros H. inversion H. auto.
    + intros (-> & ->). reflexivity.
  - split.
    + intros H. inversion H. auto.
    + intros (-> & -> & ->). reflexivity.
Qed.

(* ===================================================================== *)
(** ** Working hours of a workspace *)
(* ===================================================================== *)

Lemma Ascii_compare_N (x y : ascii) :
  Ascii.compare x y = N.compare (N_of_ascii x) (N_of_ascii y).
Proof. reflexivity. Qed.

Lemma String_leb_trans (a b c : string) :
  String.leb a b = true -> String.leb b c = true -> String.leb a c = true.
Proof.
  unfold String.leb. revert b c.
  induction a as [|x a IH]; intros [|y b] [|z c]; simpl; try congruence.
  rewrite !Ascii_compare_N.
  destruct (N.compare_spec (N_of_ascii x) (N_of_ascii y)) as [Hxy|Hxy|Hxy],
           (N.compare_spec (N_of_ascii y) (N_of_ascii z)) as [Hyz|Hyz|Hyz],
           (N.compare_spec (N_of_ascii x) (N_of_ascii z)) as [Hxz|Hxz|Hxz];
    try congruence; try lia.
  apply IH.
Qed.

Lemma String_ltb_not_leb (a b : string) :
  String.ltb a b = true -> String.leb b a = false.
Proof.
  unfold String.ltb, String.leb. rewrite (String.compare_antisym a b).
  destruct (String.compare b a); simpl; congruence.
Qed.

(** X8: [IsWithinWorkingHours]: a workspace without working hours is always
    within them. With working hours, an empty list of days gives no
    working day at all, and a window whose end is before its start, such
    as 22:00 to 06:00, is never entered: unlike a time window rule, it is
    not read as running over midnight. The time zone of the settings is
    not read. *)
Theorem IsWithinWorkingHours_edges (w : Workspace.t) (now : Time)
    (loc : Location) :
  (WorkspaceSettings.WorkingHours (Workspace.Settings w) = None ->
   IsWithinWorkingHours w now loc = true)
  /\ (forall wh,
        WorkspaceSettings.WorkingHours (Workspace.Settings w) = Some wh ->
        WorkingHours.Days wh = [] ->
        IsWithinWorkingHours w now loc = false)
  /\ (forall wh,
        WorkspaceSettings.WorkingHours (Workspace.Settings w) = Some wh ->
        String.ltb (WorkingHours.End_ wh) (WorkingHours.Start wh) = true ->
        IsWithinWorkingHours w now loc = false)
  /\ (forall timezone,
        IsWithinWorkingHours
          (Workspace.mk (Workspace.ID w) (Workspace.Name w) (Workspace.Slug w)
             (WorkspaceSettings.mk timezone
                (WorkspaceSettings.WorkingHours (Workspace.Settings w))
                (WorkspaceSettings.BotEnabled (Workspace.Settings w))
                (WorkspaceSettings.Language (Workspace.Settings w)))
             (Workspace.IsActive w))
          now loc
        = IsWithinWorkingHours w now loc).
Proof.
  unfold IsWithinWorkingHours. split; [|split; [|split]].
  - intros ->. reflexivity.
  - intros wh -> ->. reflexivity.
  - intros wh -> Hlt.
    destruct (isWorkingDay_loop _ _); [|reflexivity]. cbn [negb].
    destruct (String.leb (WorkingHours.Start wh) _) eqn:H1; [|reflexivity].
    destruct (String.leb _ (WorkingHours.End_ wh)) eqn:H2; [|reflexivity].
    pose proof (String_leb_trans _ _ _ H1 H2) as H3.
    rewrite (String_ltb_not_leb _ _ Hlt) in H3. discriminate.
  - intros timezone. reflexivity.
Qed.

(** A shop open from 22:00 to 06:00 on every day of the week, asked at
    23:30 UTC on 1 January 1970. *)
Lemma IsWithinWorkingHours_edges_witness :
  IsWithinWorkingHours
    (Workspace.mk 1%N "Shop" "shop"
       (WorkspaceSettings.mk "UTC"
          (Some (WorkingHours.mk "22:00" "06:00" [0; 1; 2; 3; 4; 5; 6]))
          true "vi")
       true)
    (84600 * 1000000000) UTC
  = false.
Proof.
  destruct (IsWithinWorkingHours_edges
              (Workspace.mk 1%N "Shop" "shop"
                 (WorkspaceSettings.mk "UTC"
                    (Some (WorkingHours.mk "22:00" "06:00" [0; 1; 2; 3; 4; 5; 6]))
                    true "vi")
                 true)
              (84600 * 1000000000) UTC) as (_ & _ & Hovernight & _).
  apply (Hovernight _ eq_refl). reflexivity.
Defined.

(* ===================================================================== *)
(** ** Pagination *)
(* ===================================================================== *)

(** X9: [SetDefaults] of a pagination request leaves a page and a limit of at
    least 1, keeps the ones that were positive, and changes nothing when
    applied again. [Offset] is then [(Page - 1) * Limit] and not negative
    as long as that product is below [2^63]; beyond, it wraps around. *)
Theorem PaginationRequest_SetDefaults_Offset (p : PaginationRequest.t) :
  let p' := PaginationRequest_SetDefaults p in
  1 <= PaginationRequest.Page p'
  /\ 1 <= PaginationRequest.Limit p'
  /\ PaginationRequest.Page p'
     = (if PaginationRequest.Page p <=? 0 then 1 else PaginationRequest.Page p)%Z
  /\ PaginationRequest.Limit p'
     = (if PaginationRequest.Limit p <=? 0 then 20 else PaginationRequest.Limit p)%Z
  /\ PaginationRequest_SetDefaults p' = p'
  /\ ((PaginationRequest.Page p' - 1) * PaginationRequest.Limit p' < 2 ^ 63 ->
      PaginationRequest_Offset p'
      = (PaginationRequest.Page p' - 1) * PaginationRequest.Limit p'
      /\ 0 <= PaginationRequest_Offset p').
Proof.
  destruct p as [page limit]. cbv zeta.
  unfold PaginationRequest_SetDefaults, PaginationRequest_Offset.
  cbn [PaginationRequest.Page PaginationRequest.Limit].
  set (P := if (page <=? 0)%Z then 1 else page).
  set (L := if (limit <=? 0)%Z then 20 else limit).
  assert (HP : 1 <= P) by (subst P; destruct (Z.leb_spec page 0); lia).
  assert (HL : 1 <= L) by (subst L; destruct (Z.leb_spec limit 0); lia).
  split; [exact HP|]. split; [exact HL|].
  split; [reflexivity|]. split; [reflexivity|]. split.
  - destruct (Z.leb_spec P 0), (Z.leb_spec L 0); try lia. reflexivity.
  - intros Hlt. unfold int_wrap.
    assert (HP1 : P - 1 < 2 ^ 63) by nia.
    rewrite (Z.mod_small (P - 1 + 2 ^ 63)) by lia.
    replace (P - 1 + 2 ^ 63 - 2 ^ 63) with (P - 1) by lia.
    rewrite Z.mod_small by nia. nia.
Qed.

(** Page 3 with 20 rows a page starts at row 40; page [2^62 + 1] with 2
    rows a page starts at a negative row. *)
Lemma PaginationRequest_SetDefaults_Offset_witness :
  PaginationRequest_Offset
    (PaginationRequest_SetDefaults (PaginationRequest.mk 3 0)) = 40
  /\ PaginationRequest_Offset
       (PaginationRequest_SetDefaults (PaginationRequest.mk (2 ^ 62 + 1) 2))
     < 0.
Proof.
  split.
  - destruct (PaginationRequest_SetDefaults_Offset (PaginationRequest.mk 3 0))
      as (_ & _ & _ & _ & _ & Hoff).
    destruct Hoff as (-> & _); simpl; lia.
  - vm_compute. reflexivity.
Defined.

(* ===================================================================== *)
(** ** The Facebook adapter *)
(* ===================================================================== *)

Lemma substring_0_length (s : string) : substring 0 (String.length s) s = s.
Proof. induction s as [|c s IH]; simpl; [reflexivity|]. rewrite IH. reflexivity. Qed.

Lemma prefix_append (p s : string) :
  String.prefix p s = true -> exists tail, s = p +:+ tail.
Proof.
  revert s. induction p as [|c p IH]; intros s H.
  - exists s. reflexivity.
  - destruct s as [|d s]; simpl in H; [discriminate|].
    destruct (ascii_dec c d) as [->|]; [|discriminate].
    destruct (IH s H) as (tail & ->). exists tail. reflexivity.
Qed.

Lemma substring_after_prefix (p tail : string) :
  substring (String.length p) (String.length (p +:+ tail) - String.length p)
    (p +:+ tail)
  = tail.
Proof.
  induction p as [|c p IH]; simpl.
  - rewrite Nat.sub_0_r. apply substring_0_length.
  - exact IH.
Qed.

Section FacebookVerifyFacts.
Context (hmac_sha256_hex : string -> string -> string).

(** X10: [Verify] accepts a signature header exactly when it is ["sha256="]
    followed by the hexadecimal HMAC-SHA256 of the body under the
    secret. *)
Theorem FacebookChannel_Verify_exact (signature body secret : string) :
  FacebookChannel_Verify hmac_sha256_hex signature body secret = true
  <-> signature = "sha256=" +:+ hmac_sha256_hex secret body.
Proof.
  unfold FacebookChannel_Verify. split.
  - destruct (String.prefix "sha256=" signature) eqn:Hp; [|discriminate].
    cbn [negb]. apply prefix_append in Hp as (tail & ->).
    pose proof (substring_after_prefix "sha256=" tail) as Hs.
    cbn [String.length] in Hs. rewrite Hs. intros H.
    apply String.eqb_eq in H. subst tail. reflexivity.
  - intros ->.
    assert (Hp : String.prefix "sha256="
                   ("sha256=" +:+ hmac_sha256_hex secret body) = true).
    { simpl. destruct (hmac_sha256_hex secret body); reflexivity. }
    rewrite Hp. cbn [negb].
    pose proof (substring_after_prefix "sha256=" (hmac_sha256_hex secret body))
      as Hs.
    cbn [String.length] in Hs. rewrite Hs. apply String.eqb_refl.
Qed.

End FacebookVerifyFacts.

(* ===================================================================== *)
(** ** Decoding a webhook payload *)
(* ===================================================================== *)

Lemma insert_key_In (k k0 : string) (sorted : list string) :
  In k (insert_key k0 sorted) <-> k = k0 \/ In k sorted.
Proof.
  induction sorted as [|k' rest IH]; simpl; [intuition congruence|].
  destruct (k0 =? k') eqn:He.
  - apply String.eqb_eq in He. subst k'. simpl. intuition congruence.
  - destruct (String.ltb k0 k'); simpl; [intuition congruence|].
    rewrite IH. intuition congruence.
Qed.

Lemma keys_in_order_In (k : string) (keys : list string) :
  In k (keys_in_order keys) <-> In k keys.
Proof.
  induction keys as [|k0 keys IH]; simpl; [tauto|].
  rewrite insert_key_In, IH. intuition congruence.
Qed.

(** Keys that are all one key: this key, once. *)
Lemma keys_in_order_const (name : string) (keys : list string) :
  (forall k, In k keys -> k = name) ->
  keys_in_order keys = match keys with [] => [] | _ :: _ => [name] end.
Proof.
  induction keys as [|k0 keys IH]; intros Hall; [reflexivity|].
  simpl. rewrite (Hall k0) by (left; reflexivity).
  rewrite IH by (intros k Hk; apply Hall; right; exact Hk).
  destruct keys; simpl; [reflexivity|]. rewrite String.eqb_refl. reflexivity.
Qed.

Lemma jobj_get_is_Some (k : string) (fields : list (string * JValue)) :
  In k (map fst fields) <-> is_Some (jobj_get k fields).
Proof.
  induction fields as [|[k0 v0] rest IH]; simpl.
  - split; [intros []|intros [x Hx]; discriminate].
  - destruct (jobj_get k rest) as [v|] eqn:Hrest.
    + split; [eauto|]. intros _. right. apply IH. eauto.
    + destruct (k0 =? k) eqn:He.
      * apply String.eqb_eq in He. split; eauto.
      * apply String.eqb_neq in He. split.
        -- intros [H|H]; [contradiction|]. apply IH in H as [x Hx]. discriminate.
        -- intros [x Hx]. discriminate.
Qed.

(** The values decoded into a field are held by keys that name it. *)
Lemma payload_values_In (name : string) (payload : Payload) (v : JValue) :
  In v (payload_values name payload) ->
  exists k, json_name_match name k = true /\ payload !! k = Some v.
Proof.
  unfold payload_values. intros H.
  apply list_elem_of_In, list_elem_of_omap in H as (k & Hk & Hv).
  apply list_elem_of_In, keys_in_order_In, List.filter_In in Hk as (_ & Hm).
  eauto.
Qed.

Lemma object_values_In (name : string) (fields : list (string * JValue))
    (v : JValue) :
  In v (object_values name fields) ->
  exists k, json_name_match name k = true /\ jobj_get k fields = Some v.
Proof.
  unfold object_values. intros H.
  apply list_elem_of_In, list_elem_of_omap in H as (k & Hk & Hv).
  apply list_elem_of_In, keys_in_order_In, List.filter_In in Hk as (_ & Hm).
  eauto.
Qed.

(** When the name itself is the only key that names a field, the field
    is decoded from the value of that key. *)
Lemma payload_values_exact (name : string) (payload : Payload) :
  json_name_match name name = true ->
  (forall k, is_Some (payload !! k) -> json_name_match name k = true ->
             k = name) ->
  payload_values name payload
  = match payload !! name with Some v => [v] | None => [] end.
Proof.
  intros Hname Hexact. unfold payload_values.
  set (l := List.filter (json_name_match name) (map fst (map_to_list payload))).
  assert (Hl : forall k, In k l <->
                         is_Some (payload !! k)
                         /\ json_name_match name k = true).
  { intros k. unfold l. rewrite List.filter_In, in_map_iff. split.
    - intros (([k0 x] & Hk & Hin) & Hm). simpl in Hk. subst k0.
      apply list_elem_of_In, elem_of_map_to_list in Hin. eauto.
    - intros ([x Hx] & Hm). split; [|exact Hm]. exists (k, x).
      split; [reflexivity|]. apply list_elem_of_In, elem_of_map_to_list.
      exact Hx. }
  rewrite (keys_in_order_const name).
  2:{ intros k Hk. apply Hl in Hk as (Hs & Hm). apply Hexact; assumption. }
  destruct l as [|k0 l0] eqn:Hl0.
  - destruct (payload !! name) as [v|] eqn:Hv; [|reflexivity].
    destruct (proj2 (Hl name)) as []. split; [eauto|exact Hname].
  - simpl. destruct (payload !! name); reflexivity.
Qed.

Lemma object_values_exact (name : string) (fields : list (string * JValue)) :
  json_name_match name name = true ->
  (forall k, is_Some (jobj_get k fields) -> json_name_match name k = true ->
             k = name) ->
  object_values name fields
  = match jobj_get name fields with Some v => [v] | None => [] end.
Proof.
  intros Hname Hexact. unfold object_values.
  set (l := List.filter (json_name_match name) (map fst fields)).
  assert (Hl : forall k, In k l <->
                         is_Some (jobj_get k fields)
                         /\ json_name_match name k = true).
  { intros k. unfold l. rewrite List.filter_In, jobj_get_is_Some. tauto. }
  rewrite (keys_in_order_const name).
  2:{ intros k Hk. apply Hl in Hk as (Hs & Hm). apply Hexact; assumption. }
  destruct l as [|k0 l0] eqn:Hl0.
  - destruct (jobj_get name fields) as [v|] eqn:Hv; [|reflexivity].
    destruct (proj2 (Hl name)) as []. split; [eauto|exact Hname].
  - simpl. destruct (jobj_get name fields); reflexivity.
Qed.

(** What a field holds after the values were decoded into it: what it
    held before, or what one of the values left. *)
Lemma into_all_inv {T : Type} (into : T -> JValue -> Result T)
    (P : T -> Prop) (Q : JValue -> Prop) :
  (forall cur v t, into cur v = Ok t -> P t -> P cur \/ Q v) ->
  forall vals cur t,
    into_all into vals cur = Ok t -> P t ->
    P cur \/ exists v, In v vals /\ Q v.
Proof.
  intros Hstep vals. induction vals as [|v vals IH]; simpl; intros cur t H Ht.
  - inversion H; subst. left. exact Ht.
  - destruct (into cur v) as [t1|e] eqn:H1; [|discriminate].
    destruct (IH _ _ H Ht) as [Ht1|(v' & Hin & Hq)].
    + destruct (Hstep _ _ _ H1 Ht1) as [Hc|Hq]; [left; exact Hc|].
      right. exists v. auto.
    + right. exists v'. auto.
Qed.

Lemma into_slice_cons {T : Type} (zero : T) (into : T -> JValue -> Result T)
    (cur : list T * list T) (v : JValue) (a : T) (l spare : list T) :
  into_slice zero into cur v = Ok (a :: l, spare) ->
  exists item items,
    v = JArr (item :: items)
    /\ into (hd zero (fst cur ++ snd cur)) item = Ok a.
Proof.
  destruct v as [| | | |items|]; simpl; try discriminate.
  destruct items as [|item items]; [discriminate|].
  simpl. intros H. exists item, items. split; [reflexivity|].
  destruct (into _ item) as [a'|e]; [|discriminate].
  destruct (into_each _ _ _ items) as [l'|e]; [|discriminate].
  inversion H; subst. reflexivity.
Qed.

Ltac break_matches :=
  repeat match goal with
         | |- context [match ?x with _ => _ end] => destruct x
         end;
  discriminate.

Lemma dec_FBWebhookPayload_Ok (payload : Payload) (fb : FBWebhookPayload.t) :
  dec_FBWebhookPayload payload = Ok fb ->
  into_all into_string (payload_values "object" payload) ""
  = Ok (FBWebhookPayload.Object fb)
  /\ into_all (into_slice (FBWebhookEntry.mk "" 0 [] []) into_FBWebhookEntry)
       (payload_values "entry" payload) ([], [])
     = Ok (FBWebhookPayload.Entry fb, FBWebhookPayload.Entry_spare fb).
Proof.
  unfold dec_FBWebhookPayload.
  destruct (into_all into_string _ _) as [object|e] eqn:Ho.
  2:{ break_matches. }
  destruct (into_all (into_slice _ _) _ _) as [[entry spare]|e] eqn:He;
    [|discriminate].
  intros H. inversion H; subst. auto.
Qed.

Lemma into_FBWebhookEntry_Ok (cur entry : FBWebhookEntry.t)
    (f : list (string * JValue)) :
  into_FBWebhookEntry cur (JObj f) = Ok entry ->
  into_all into_string (object_values "id" f) (FBWebhookEntry.ID cur)
  = Ok (FBWebhookEntry.ID entry).
Proof.
  unfold into_FBWebhookEntry, into_struct.
  destruct (into_all into_string _ _) as [id|e] eqn:Hid.
  2:{ break_matches. }
  destruct (into_all into_int64 _ _) as [time|e].
  2:{ break_matches. }
  destruct (into_all (into_slice _ _) _ _) as [[ms spare]|e]; [|discriminate].
  intros H. inversion H; subst. reflexivity.
Qed.

(** A payload [FacebookChannel.Normalize] returns a message for, and its
    decoding. *)
Lemma FacebookChannel_Normalize_inv (channelAccountID : uuid)
    (payload : Payload) (w w' : World.t) (m : InboundMessage.t) :
  FacebookChannel_Normalize channelAccountID payload w = (Ok m, w') ->
  exists fb entry entries event events,
    dec_FBWebhookPayload payload = Ok fb
    /\ FBWebhookPayload.Object fb = "page"
    /\ FBWebhookPayload.Entry fb = entry :: entries
    /\ FBWebhookEntry.Messaging entry = event :: events
    /\ w' = w
    /\ InboundMessage.ChannelType m = "facebook"
    /\ InboundMessage.RawPayload m = payload.
Proof.
  unfold FacebookChannel_Normalize. intros H.
  destruct (dec_FBWebhookPayload payload) as [fb|e] eqn:Hdec;
    [|inversion H].
  destruct (FBWebhookPayload.Object fb =? "page") eqn:Hobj;
    cbn [negb] in H; [|inversion H].
  destruct (FBWebhookPayload.Entry fb) as [|entry entries] eqn:Hentry;
    [inversion H|].
  destruct (FBWebhookEntry.Messaging entry) as [|event events] eqn:Hmsg;
    [inversion H|].
  exists fb, entry, entries, event, events.
  apply String.eqb_eq in Hobj.
  repeat match goal with |- _ /\ _ => split end; try assumption;
    try reflexivity;
    simpl in H;
    (destruct (FBMessagingEvent.Message_ event) as [message|];
     [destruct (fb_attachments "text" (FBMessage.Attachments message))|];
     destruct (FBMessagingEvent.Postback event);
     inversion H; subst; reflexivity).
Qed.

(** X11: What [FacebookChannel.Normalize] accepts. It returns a message only
    for a payload that decodes to an object type ["page"] with a first
    entry that has a first messaging event; such a payload holds the
    string ["page"] under a key that is [object] up to case, and an array
    that is not empty under a key that is [entry] up to case. The message
    has the channel type ["facebook"] and carries the payload, and the
    world is left as it was. *)
Theorem FacebookChannel_Normalize_accepts (channelAccountID : uuid)
    (payload : Payload) (w w' : World.t) (m : InboundMessage.t) :
  FacebookChannel_Normalize channelAccountID payload w = (Ok m, w') ->
  w' = w
  /\ InboundMessage.ChannelType m = "facebook"
  /\ InboundMessage.RawPayload m = payload
  /\ (exists fb entry entries event events,
        dec_FBWebhookPayload payload = Ok fb
        /\ FBWebhookPayload.Object fb = "page"
        /\ FBWebhookPayload.Entry fb = entry :: entries
        /\ FBWebhookEntry.Messaging entry = event :: events)
  /\ (exists key,
        json_name_match "object" key = true
        /\ payload !! key = Some (JStr "page"))
  /\ (exists key item items,
        json_name_match "entry" key = true
        /\ payload !! key = Some (JArr (item :: items))).
Proof.
  intros H.
  destruct (FacebookChannel_Normalize_inv _ _ _ _ _ H)
    as (fb & entry & entries & event & events
        & Hdec & Hobj & Hentry & Hmsg & Hw & Hct & Hraw).
  split; [exact Hw|]. split; [exact Hct|]. split; [exact Hraw|].
  split; [exists fb, entry, entries, event, events; auto|].
  apply dec_FBWebhookPayload_Ok in Hdec as (Ho & He).
  rewrite Hobj in Ho. rewrite Hentry in He. split.
  - assert (Hstep : forall cur v t,
               into_string cur v = Ok t -> t = "page" ->
               cur = "page" \/ v = JStr "page").
    { intros cur v t Hv ->.
      destruct v; simpl in Hv; inversion Hv; subst; auto. }
    destruct (into_all_inv into_string _ _ Hstep _ _ _ Ho eq_refl)
      as [Hd|(v & Hin & ->)]; [discriminate|].
    apply payload_values_In in Hin as (key & Hm & Hk). eauto.
  - assert (Hstep : forall cur v (t : list FBWebhookEntry.t
                                      * list FBWebhookEntry.t),
               into_slice (FBWebhookEntry.mk "" 0 [] []) into_FBWebhookEntry
                 cur v = Ok t ->
               fst t <> [] ->
               fst cur <> [] \/ exists item items, v = JArr (item :: items)).
    { intros cur v [[|a l] spare] Hv Hne; [destruct Hne; reflexivity|].
      right. apply into_slice_cons in Hv as (item & items & -> & _). eauto. }
    destruct (into_all_inv _ _ _ Hstep _ _ _ He)
      as [Hd|(v & Hin & item & items & ->)];
      [discriminate|destruct Hd; reflexivity|].
    apply payload_values_In in Hin as (key & Hm & Hk). eauto.
Qed.

(** A page payload whose keys are written with capitals. *)
Lemma FacebookChannel_Normalize_accepts_witness :
  exists key,
    json_name_match "object" key = true
    /\ Example.fb_payload_capitals !! key = Some (JStr "page").
Proof.
  pose (run := FacebookChannel_Normalize 3%N Example.fb_payload_capitals
                 (Example.world [])).
  assert (H : exists m, run = (Ok m, snd run))
    by (vm_compute; eexists; reflexivity).
  destruct H as (m & H).
  destruct (FacebookChannel_Normalize_accepts _ _ _ _ _ H)
    as (_ & _ & _ & _ & Hobject & _).
  exact Hobject.
Defined.




(** X13: The webhook handler reads the page it looks the channel account up
    by from the keys ["entry"] and ["id"] as they are written, while
    [Normalize] decodes the entry from every key that is [entry] or [id]
    up to case. For a payload [Normalize] returns a message for, in which
    these two names are the only keys of their spelling, [extractPageID]
    is the [id] of the first entry as [Normalize] decodes it. Without
    that they differ: for a first entry that writes its identifier under
    ["ID"], [Normalize] reads the page "page1" and [extractPageID] the
    empty string. *)
Theorem extractPageID_agrees_on_exact_keys :
  (forall (channelAccountID : uuid) (payload : Payload) (w w' : World.t)
          (m : InboundMessage.t),
      FacebookChannel_Normalize channelAccountID payload w = (Ok m, w') ->
      exists fb entry entries,
        dec_FBWebhookPayload payload = Ok fb
        /\ FBWebhookPayload.Entry fb = entry :: entries
        /\ ((forall k, is_Some (payload !! k) ->
                       json_name_match "entry" k = true -> k = "entry") ->
            (forall f rest k,
                payload !! "entry" = Some (JArr (JObj f :: rest)) ->
                is_Some (jobj_get k f) ->
                json_name_match "id" k = true -> k = "id") ->
            extractPageID payload = FBWebhookEntry.ID entry))
  /\ (exists m fb entry entries,
        FacebookChannel_Normalize 3%N Example.fb_payload_capital_ID
          (Example.world []) = (Ok m, Example.world [])
        /\ dec_FBWebhookPayload Example.fb_payload_capital_ID = Ok fb
        /\ FBWebhookPayload.Entry fb = entry :: entries
        /\ FBWebhookEntry.ID entry = "page1"
        /\ extractPageID Example.fb_payload_capital_ID = "").
Proof.
  split.
  2:{ vm_compute. do 4 eexists. repeat split; reflexivity. }
  intros channelAccountID payload w w' m H.
  destruct (FacebookChannel_Normalize_inv _ _ _ _ _ H)
    as (fb & entry & entries & event & events
        & Hdec & _ & Hentry & Hmsg & _).
  exists fb, entry, entries. split; [exact Hdec|]. split; [exact Hentry|].
  intros Hexact_entry Hexact_id.
  apply dec_FBWebhookPayload_Ok in Hdec as (_ & He).
  rewrite Hentry in He.
  rewrite (payload_values_exact "entry" payload eq_refl Hexact_entry) in He.
  destruct (payload !! "entry") as [v|] eqn:Hv; [|discriminate].
  simpl in He.
  destruct (into_slice _ _ _ v) as [[l spare]|e] eqn:Hslice; [|discriminate].
  inversion He; subst l. clear He.
  apply into_slice_cons in Hslice as (item & items & -> & Hitem).
  simpl in Hitem. unfold extractPageID. rewrite Hv.
  destruct item as [| | | | |f]; try discriminate.
  { simpl in Hitem. inversion Hitem; subst entry. discriminate. }
  apply into_FBWebhookEntry_Ok in Hitem. simpl in Hitem.
  rewrite (object_values_exact "id" f eq_refl
             (fun k => Hexact_id f items k eq_refl)) in Hitem.
  unfold getString.
  destruct (jobj_get "id" f) as [[| | |s| |]|]; simpl in Hitem;
    try discriminate; inversion Hitem; reflexivity.
Qed.

Lemma extractPageID_agrees_on_exact_keys_witness :
  extractPageID Example.fb_payload_without_sender = "page1".
Proof.
  pose (run := FacebookChannel_Normalize 3%N Example.fb_payload_without_sender
                 (Example.world [])).
  assert (H : exists m, run = (Ok m, snd run))
    by (vm_compute; eexists; reflexivity).
  destruct H as (m & H).
  destruct (proj1 extractPageID_agrees_on_exact_keys _ _ _ _ _ H)
    as (fb & entry & entries & Hdec & Hentry & Hagree).
  rewrite Hagree.
  - vm_compute in Hdec. inversion Hdec; subst fb.
    simpl in Hentry. inversion Hentry; subst entry. reflexivity.
  - intros k [x Hx] Hm.
    assert (Hk : k = "object" \/ k = "entry").
    { unfold Example.fb_payload_without_sender in Hx.
      destruct (decide (k = "object")) as [->|Hn1]; [auto|].
      rewrite lookup_insert_ne in Hx by congruence.
      destruct (decide (k = "entry")) as [->|Hn2]; [auto|].
      rewrite lookup_insert_ne in Hx by congruence.
      rewrite lookup_empty in Hx. discriminate. }
    destruct Hk as [->| ->]; [discriminate Hm|reflexivity].
  - intros f rest k Hf Hs Hm. vm_compute in Hf. inversion Hf; subst f rest.
    apply jobj_get_is_Some in Hs. simpl in Hs.
    destruct Hs as [<-|[<-|[]]]; [reflexivity|discriminate Hm].
Defined.

(* ===================================================================== *)
(** ** The mock adapter and its endpoints *)
(* ===================================================================== *)

Lemma filed_by_type_mock (channels : gmap string Channel) (ch : Channel) :
  filed_by_type channels -> Registry_Get channels "mock" = Ok ch ->
  ch = MockChannel.
Proof.
  unfold Registry_Get. intros Hwf H.
  destruct (channels !! "mock") as [c|] eqn:Hl; [|discriminate].
  inversion H; subst c. apply Hwf in Hl. destruct ch; [discriminate|reflexivity].
Qed.

(** A [Send] to a recipient. *)
Lemma MockChannel_Send_run (msg : OutboundMessage.t)
    (credentials : gmap string string) (w : World.t) :
  (OutboundMessage.RecipientID msg =? "") = false ->
  MockChannel_Send msg credentials w
  = (Ok (SendResult.mk true ("mock_sent_" +:+ format_int (World.now w)) None),
     World.set_sentMessages (World.sentMessages w ++ [msg])%list w).
Proof. intros H. unfold MockChannel_Send. rewrite H. reflexivity. Qed.

Lemma MockChannel_GetSentMessages_run (w : World.t) :
  MockChannel_GetSentMessages w = (Ok (World.sentMessages w), w).
Proof. reflexivity. Qed.

(** [GetLastSentMessage] returns the last of the sent messages. *)
Lemma MockChannel_GetLastSentMessage_run (w : World.t) :
  MockChannel_GetLastSentMessage w = (Ok (last (World.sentMessages w)), w).
Proof.
  unfold MockChannel_GetLastSentMessage. rewrite bind_get_world.
  destruct (World.sentMessages w) as [|a l] using rev_ind; [reflexivity|].
  rewrite last_snoc, length_app. simpl.
  replace (length l + 1 =? 0)%nat with false
    by (symmetry; apply Nat.eqb_neq; lia).
  replace (length l + 1 - 1)%nat with (length l) by lia.
  rewrite nth_error_app2 by lia. rewrite Nat.sub_diag. reflexivity.
Qed.

(** X14: What the mock adapter records: a [Send] to a recipient is appended to
    the sent messages, where [GetLastSentMessage] and [GetSentMessages]
    find it, whatever the credentials; a [Send] without a recipient is
    refused and records nothing; after [ClearSentMessages] there is no
    sent message and no last one. *)
Theorem MockChannel_Send_recorded (msg : OutboundMessage.t)
    (credentials : gmap string string) (w : World.t) :
  (if OutboundMessage.RecipientID msg =? "" then
     exists result,
       MockChannel_Send msg credentials w = (Ok result, w)
       /\ SendResult.Success result = false
   else
     exists result w1,
       MockChannel_Send msg credentials w = (Ok result, w1)
       /\ SendResult.Success result = true
       /\ MockChannel_GetSentMessages w1
          = (Ok (World.sentMessages w ++ [msg])%list, w1)
       /\ MockChannel_GetLastSentMessage w1 = (Ok (Some msg), w1))
  /\ exists w2,
       MockChannel_ClearSentMessages w = (Ok tt, w2)
       /\ MockChannel_GetSentMessages w2 = (Ok [], w2)
       /\ MockChannel_GetLastSentMessage w2 = (Ok None, w2).
Proof.
  split.
  - unfold MockChannel_Send.
    destruct (OutboundMessage.RecipientID msg =? "").
    + eexists. split; reflexivity.
    + rewrite bind_time_Now, bind_modify. eexists; eexists.
      split; [reflexivity|]. split; [reflexivity|].
      split; [reflexivity|].
      rewrite MockChannel_GetLastSentMessage_run. simpl World.sentMessages.
      rewrite last_snoc. reflexivity.
  - eexists. split; [reflexivity|]. split; reflexivity.
Qed.

Lemma Example_world_filed_by_type (rules : list Rule.t) :
  filed_by_type (World.channels (Example.world rules)).
Proof.
  apply filed_by_type_Register, filed_by_type_Register, filed_by_type_empty.
Qed.

Section MockEndpoints.
Context (E : Env).

(** X15: [POST /api/mock/outbound] on a registry filled by [Register] that has
    the mock adapter: a request with a recipient and a message is always
    sent, never answered with SEND_FAILED, and the message is then the
    last one [GET /api/mock/sent] lists, counted with the others;
    [DELETE /api/mock/sent] leaves the list empty. *)
Theorem SimulateOutbound_recorded (req : MockOutboundRequest.t) (w : World.t) :
  filed_by_type (World.channels w) ->
  Registry_Has (World.channels w) "mock" = true ->
  MockOutboundRequest.RecipientID req <> "" ->
  MockOutboundRequest.Message_ req <> "" ->
  let outbound :=
    OutboundMessage.mk (MockOutboundRequest.RecipientID req) ""
      (MockOutboundRequest.Message_ req) "text" []
      (MockOutboundRequest.QuickReplies req) [] ∅ in
  exists messageID w1,
    SimulateOutbound E req w = (Ok messageID, w1)
    /\ MockHandler_GetSentMessages w1
       = (Ok (S (length (World.sentMessages w)),
              (World.sentMessages w ++ [outbound])%list), w1)
    /\ exists w2,
         MockHandler_ClearSentMessages w1 = (Ok tt, w2)
         /\ MockHandler_GetSentMessages w2 = (Ok (0%nat, []), w2).
Proof.
  intros Hwf Hhas Hrcp Hmsg outbound.
  assert (Hget : Registry_Get (World.channels w) "mock" = Ok MockChannel).
  { unfold Registry_Has in Hhas. unfold Registry_Get.
    destruct (World.channels w !! "mock") as [ch|] eqn:Hl; [|discriminate].
    rewrite (filed_by_type_mock (World.channels w) ch Hwf); [reflexivity|].
    unfold Registry_Get. rewrite Hl. reflexivity. }
  apply String.eqb_neq in Hrcp. apply String.eqb_neq in Hmsg.
  pose proof (MockChannel_Send_run outbound ∅ w Hrcp) as Hsend.
  apply (traced_run (EvSend MockChannel outbound ∅)) in Hsend.
  unfold SimulateOutbound. rewrite Hrcp, Hmsg. cbn [orb].
  rewrite bind_get_world, Hget. fold outbound.
  unfold Channel_Send. rewrite (bind_ok _ _ _ _ _ (try_run _ _ _ _ Hsend)).
  cbn [SendResult.Success negb].
  eexists; eexists. split; [reflexivity|].
  unfold MockHandler_GetSentMessages, MockHandler_ClearSentMessages.
  rewrite !bind_get_world.
  cbn [World.channels World.set_trace World.set_sentMessages].
  rewrite Hget. split.
  - rewrite (bind_ok _ _ _ _ _ (MockChannel_GetSentMessages_run _)).
    cbn [World.sentMessages World.set_trace World.set_sentMessages].
    unfold ret. rewrite length_app. simpl length.
    replace (length (World.sentMessages w) + 1)%nat
      with (S (length (World.sentMessages w))) by lia.
    reflexivity.
  - eexists. split; [reflexivity|].
    rewrite bind_get_world.
    cbn [World.channels World.set_sentMessages World.set_trace].
    rewrite Hget.
    rewrite (bind_ok _ _ _ _ _ (MockChannel_GetSentMessages_run _)).
    reflexivity.
Qed.

End MockEndpoints.

Lemma SimulateOutbound_recorded_witness :
  exists messageID w1,
    SimulateOutbound Example.env
      (MockOutboundRequest.mk "u1" "Xin chao" []) (Example.world [])
    = (Ok messageID, w1)
    /\ fst (MockHandler_GetSentMessages w1)
       = Ok (1%nat, [OutboundMessage.mk "u1" "" "Xin chao" "text" [] [] [] ∅]).
Proof.
  destruct (SimulateOutbound_recorded Example.env
              (MockOutboundRequest.mk "u1" "Xin chao" []) (Example.world []))
    as (messageID & w1 & Hrun & Hsent & _).
  - apply Example_world_filed_by_type.
  - reflexivity.
  - discriminate.
  - discriminate.
  - exists messageID, w1. split; [exact Hrun|]. rewrite Hsent. reflexivity.
Defined.

Section MockInbound.
Context (E : Env).

(** X16: [POST /api/mock/inbound] on a registry filled by [Register] that has
    the mock adapter: a request that passes the binding is never answered
    with NORMALIZE_FAILED. It is [ProcessInbound] of the workspace and
    the account of the request on a text message of the mock channel
    with the sender, the name and the content of the request, received
    now, under the message id of the request or, when the request has
    none, ["mock_<sender>_<now>"]; an error of [ProcessInbound] is
    answered with PROCESS_FAILED. *)
Theorem SimulateInbound_is_ProcessInbound (req : MockInboundRequest.t)
    (w : World.t) :
  filed_by_type (World.channels w) ->
  Registry_Has (World.channels w) "mock" = true ->
  MockInboundRequest.WorkspaceID req <> uuid_Nil ->
  MockInboundRequest.ChannelAccountID req <> uuid_Nil ->
  MockInboundRequest.SenderID req <> "" ->
  MockInboundRequest.Message_ req <> "" ->
  let payload : Payload :=
    <["sender_id" := JStr (MockInboundRequest.SenderID req)]>
    (<["sender_name" := JStr (MockInboundRequest.SenderName req)]>
    (<["message" := JStr (MockInboundRequest.Message_ req)]>
    (<["message_id" := JStr (MockInboundRequest.MessageID req)]> ∅))) in
  let inbound :=
    InboundMessage.mk "mock"
      (if MockInboundRequest.MessageID req =? "" then
         "mock_" +:+ MockInboundRequest.SenderID req +:+ "_" +:+
         format_int (World.now w)
       else MockInboundRequest.MessageID req)
      (MockInboundRequest.SenderID req) (MockInboundRequest.SenderName req)
      "" (uuid_String E (MockInboundRequest.ChannelAccountID req)) ""
      (MockInboundRequest.Message_ req) "text" [] (World.now w) payload in
  SimulateInbound E req w
  = (match fst (ProcessInbound E (MockInboundRequest.WorkspaceID req)
                  (MockInboundRequest.ChannelAccountID req) inbound w) with
     | Ok result => Ok result
     | Err _ => Err "PROCESS_FAILED"
     end,
     snd (ProcessInbound E (MockInboundRequest.WorkspaceID req)
            (MockInboundRequest.ChannelAccountID req) inbound w)).
Proof.
  intros Hwf Hhas Hws Hacc Hsender Hmsg payload inbound.
  assert (Hget : Registry_Get (World.channels w) "mock" = Ok MockChannel).
  { unfold Registry_Has in Hhas. unfold Registry_Get.
    destruct (World.channels w !! "mock") as [ch|] eqn:Hl; [|discriminate].
    rewrite (filed_by_type_mock (World.channels w) ch Hwf); [reflexivity|].
    unfold Registry_Get. rewrite Hl. reflexivity. }
  apply N.eqb_neq in Hws. apply N.eqb_neq in Hacc.
  apply String.eqb_neq in Hsender. apply String.eqb_neq in Hmsg.
  unfold SimulateInbound. rewrite Hws, Hacc, Hsender, Hmsg. cbn [orb].
  rewrite bind_get_world, Hget. fold payload.
  assert (Hnorm : Channel_Normalize E MockChannel
                    (MockInboundRequest.ChannelAccountID req) payload w
                  = (Ok inbound, w)).
  { unfold Channel_Normalize, MockChannel_Normalize, assert_string.
    assert (H1 : payload !! "sender_id"
                 = Some (JStr (MockInboundRequest.SenderID req)))
      by (subst payload; simplify_map_eq; reflexivity).
    assert (H2 : payload !! "message"
                 = Some (JStr (MockInboundRequest.Message_ req)))
      by (subst payload; simplify_map_eq; reflexivity).
    assert (H3 : payload !! "message_id"
                 = Some (JStr (MockInboundRequest.MessageID req)))
      by (subst payload; simplify_map_eq; reflexivity).
    assert (H4 : payload !! "sender_name"
                 = Some (JStr (MockInboundRequest.SenderName req)))
      by (subst payload; simplify_map_eq; reflexivity).
    assert (H5 : payload !! "timestamp" = None)
      by (subst payload; simplify_map_eq; reflexivity).
    assert (H6 : payload !! "attachments" = None)
      by (subst payload; simplify_map_eq; reflexivity).
    rewrite H1, H2, H3, H4, H5, H6. cbn [negb orb].
    rewrite Hsender.
    destruct (MockInboundRequest.MessageID req =? "") eqn:Hid;
      subst inbound; rewrite ?Hid; reflexivity. }
  rewrite (bind_ok _ _ _ _ _ (try_run _ _ _ _ Hnorm)).
  unfold bind, try.
  destruct (ProcessInbound E (MockInboundRequest.WorkspaceID req)
              (MockInboundRequest.ChannelAccountID req) inbound w)
    as [[result|e] w']; reflexivity.
Qed.

End MockInbound.

Lemma SimulateInbound_is_ProcessInbound_witness :
  fst (SimulateInbound Example.env Example.hello
         (Example.world Example.greeting_rules))
  = fst (ProcessInbound Example.env 1%N 2%N
           (InboundMessage.mk "mock" "m1" "u1" "Test" "" "2" "" "Xin Chao"
              "text" [] 1700000000000000000
              (<["sender_id" := JStr "u1"]>
               (<["sender_name" := JStr "Test"]>
               (<["message" := JStr "Xin Chao"]>
               (<["message_id" := JStr "m1"]> ∅)))))
           (Example.world Example.greeting_rules)).
Proof.
  rewrite (SimulateInbound_is_ProcessInbound Example.env Example.hello
             (Example.world Example.greeting_rules)).
  - vm_compute. reflexivity.
  - apply Example_world_filed_by_type.
  - reflexivity.
  - discriminate.
  - discriminate.
  - discriminate.
  - discriminate.
Defined.

(* ===================================================================== *)
(** ** The rule store and the responder *)
(* ===================================================================== *)

Lemma insert_by_priority_Permutation (r : Rule.t) (sorted : list Rule.t) :
  Permutation (insert_by_priority r sorted) (r :: sorted).
Proof.
  induction sorted as [|r' rest IH]; simpl; [reflexivity|].
  destruct (Rule.Priority r' <=? Rule.Priority r)%Z; [reflexivity|].
  rewrite IH. apply perm_swap.
Qed.

Lemma order_by_priority_desc_Permutation (rows : list Rule.t) :
  Permutation (order_by_priority_desc rows) rows.
Proof.
  induction rows as [|r rows IH]; simpl; [reflexivity|].
  rewrite insert_by_priority_Permutation, IH. reflexivity.
Qed.

Lemma insert_by_priority_sorted (r : Rule.t) (sorted : list Rule.t) :
  priority_descending sorted -> priority_descending (insert_by_priority r sorted).
Proof.
  unfold priority_descending.
  induction sorted as [|r' rest IH]; simpl; intros Hs.
  - constructor; constructor.
  - apply StronglySorted_inv in Hs as (Hrest & Hr').
    destruct (Z.leb_spec (Rule.Priority r') (Rule.Priority r)).
    + constructor; [constructor; assumption|].
      constructor; [lia|].
      eapply List.Forall_impl; [|exact Hr']. simpl. intros. lia.
    + constructor; [apply IH; exact Hrest|].
      rewrite insert_by_priority_Permutation. constructor; [lia|exact Hr'].
Qed.

Lemma order_by_priority_desc_sorted (rows : list Rule.t) :
  priority_descending (order_by_priority_desc rows).
Proof.
  induction rows as [|r rows IH]; simpl.
  - constructor.
  - apply insert_by_priority_sorted. exact IH.
Qed.

Lemma insert_by_rank_Permutation (rank : uuid -> N) (r : Rule.t)
    (sorted : list Rule.t) :
  Permutation (insert_by_rank rank r sorted) (r :: sorted).
Proof.
  induction sorted as [|r' rest IH]; simpl; [reflexivity|].
  destruct (rank (Rule.ID r) <=? rank (Rule.ID r'))%N; [reflexivity|].
  rewrite IH. apply perm_swap.
Qed.

Lemma order_by_rank_Permutation (rank : uuid -> N) (rows : list Rule.t) :
  Permutation (order_by_rank rank rows) rows.
Proof.
  induction rows as [|r rows IH]; simpl; [reflexivity|].
  rewrite insert_by_rank_Permutation, IH. reflexivity.
Qed.

Section RuleStore.
Context (E : Env).

Lemma rules_as_read_sorted (workspaceID : uuid) (w : World.t) :
  priority_descending (rules_as_read E workspaceID w).
Proof. apply order_by_priority_desc_sorted. Qed.

Lemma rules_as_read_Permutation (workspaceID : uuid) (w : World.t) :
  Permutation (rules_as_read E workspaceID w) (active_rules workspaceID w).
Proof.
  unfold rules_as_read.
  rewrite order_by_priority_desc_Permutation. apply order_by_rank_Permutation.
Qed.

Lemma ruleRepo_FindActiveByWorkspace_run (workspaceID : uuid) (w : World.t) :
  ruleRepo_FindActiveByWorkspace E workspaceID w
  = (if db_fails E (World.db_statements w) then Err "database error"
     else Ok (rules_as_read E workspaceID w),
     World.set_db_statements (S (World.db_statements w)) w).
Proof.
  unfold ruleRepo_FindActiveByWorkspace, bind, db_exec, get_world, ret.
  destruct (db_fails E (World.db_statements w)); reflexivity.
Qed.

(** X17: [FindActiveByWorkspace] hands the responder what the rule engine
    asks of its caller: the list it returns is in descending order of
    priority, and it is made of the active rules of the workspace, each
    as often as the table has it. *)
Theorem ruleRepo_FindActiveByWorkspace_sorted (workspaceID : uuid)
    (w w' : World.t) (rules : list Rule.t) :
  ruleRepo_FindActiveByWorkspace E workspaceID w = (Ok rules, w') ->
  priority_descending rules
  /\ Permutation rules (active_rules workspaceID w)
  /\ (forall r,
        In r rules
        <-> In r (World.rules w)
            /\ Rule.WorkspaceID r = workspaceID /\ Rule.IsActive r = true)
  /\ World.rules w' = World.rules w.
Proof.
  rewrite ruleRepo_FindActiveByWorkspace_run.
  destruct (db_fails E (World.db_statements w)); intros H; inversion H; subst.
  split; [apply rules_as_read_sorted|].
  split; [apply rules_as_read_Permutation|].
  split; [|reflexivity].
  intros r. rewrite <- !list_elem_of_In.
  rewrite (rules_as_read_Permutation workspaceID w).
  unfold active_rules. rewrite list_elem_of_filter, N.eqb_eq. tauto.
Qed.

End RuleStore.

Lemma ruleRepo_FindActiveByWorkspace_sorted_witness :
  exists rules w',
    ruleRepo_FindActiveByWorkspace Example.env 1%N
      (Example.world [Example.r10; Example.r90; Example.r50]) = (Ok rules, w')
    /\ priority_descending rules
    /\ Permutation rules [Example.r10; Example.r90; Example.r50].
Proof.
  eexists; eexists. split; [reflexivity|].
  destruct (ruleRepo_FindActiveByWorkspace_sorted Example.env 1%N
              (Example.world [Example.r10; Example.r90; Example.r50]) _ _
              eq_refl) as (Hsorted & Hperm & _).
  split; [exact Hsorted|exact Hperm].
Defined.

Section ResponderFacts.
Context (E : Env).

(** The rule [Match] returns is the one the two passes select. *)
Lemma Match_Rule_select (now : Time) (rules : list Rule.t) (content : string) :
  MatchResult.Rule_ (Match E now rules content)
  = option_map fst (select_rule E now rules content)
  /\ MatchResult.Matched (Match E now rules content)
     = match MatchResult.Rule_ (Match E now rules content) with
       | Some _ => true
       | None => false
       end
  /\ (forall rule,
        MatchResult.Rule_ (Match E now rules content) = Some rule ->
        In rule rules /\ Rule.IsActive rule = true
        /\ select_rule E now rules content
           = Some (rule, MatchResult.Confidence (Match E now rules content))).
Proof.
  pose proof (Match_first_pass_find E now rules content) as H1.
  pose proof (Match_fallback_pass_find rules) as H2.
  unfold Match, select_rule.
  destruct (List.find (fires E now content) rules) as [r|] eqn:Hf.
  - destruct H1 as (kw & ->). simpl. split; [reflexivity|].
    split; [reflexivity|]. intros rule Hr. inversion Hr; subst rule.
    apply List.find_some in Hf as (Hin & Hfires).
    split; [exact Hin|]. split; [|reflexivity].
    unfold fires in Hfires. apply andb_prop in Hfires as (Ha & _). exact Ha.
  - rewrite H1, H2.
    destruct (List.find active_fallback rules) as [r|] eqn:Hfb; simpl.
    + split; [reflexivity|]. split; [reflexivity|].
      intros rule Hr. inversion Hr; subst rule.
      apply List.find_some in Hfb as (Hin & Hact).
      split; [exact Hin|]. split; [|reflexivity].
      unfold active_fallback in Hact. apply andb_prop in Hact as (_ & Ha).
      exact Ha.
    + split; [reflexivity|]. split; [reflexivity|]. discriminate.
Qed.

(** The row [IncrementHitCount] leaves for a rule. *)
Lemma ruleRepo_IncrementHitCount_run (ruleID : uuid) (w : World.t) :
  ruleRepo_IncrementHitCount E ruleID w
  = if db_fails E (World.db_statements w) then
      (Err "database error",
       World.set_db_statements (S (World.db_statements w)) w)
    else
      (Ok tt,
       World.set_rules
         (map (fun r =>
                 if (Rule.ID r =? ruleID)%N then
                   Rule.mk (Rule.ID r) (Rule.WorkspaceID r) (Rule.Name r)
                     (Rule.TriggerType r) (Rule.TriggerConfig r)
                     (Rule.ResponseType r) (Rule.ResponseConfig r)
                     (Rule.Priority r) (Rule.IsActive r)
                     (Rule.HitCount r + 1)%Z (Some (World.now w))
                 else r)
              (World.rules w))
         (World.set_db_statements (S (World.db_statements w)) w)).
Proof.
  unfold ruleRepo_IncrementHitCount, bind, time_Now, db_exec, modify.
  destruct (db_fails E (World.db_statements w)); reflexivity.
Qed.

(** [Process], case by case: the rules cannot be read; no rule is
    selected; a rule is selected, its hit is counted or not, and the
    response is made from it. *)
Lemma Process_cases (workspaceID : uuid) (recipientID content : string)
    (w : World.t) :
  let n := World.db_statements w in
  let w1 := World.set_db_statements (S n) w in
  let rules := rules_as_read E workspaceID w in
  let m := Match E (World.now w) rules content in
  exists r w2,
    Process E workspaceID recipientID content w
    = (r, World.set_trace
            (EvProcess workspaceID recipientID content r :: World.trace w2) w2)
    /\ if db_fails E n then
         r = Err "database error"
         /\ w2 = World.set_trace
                   (EvLog "error" "failed to get rules" :: World.trace w1) w1
       else
         match MatchResult.Rule_ m with
         | None =>
             r = Ok (BotResponse.mk false None false "" None "" 0%Q)
             /\ w2 = w1
         | Some rule =>
             let Message :=
               ResponseConfig.Message (Rule.ResponseConfig rule) in
             r = Ok (BotResponse.mk
                       (if IsHandoffResponse rule then negb (Message =? "")
                        else true)
                       (if IsHandoffResponse rule && (Message =? "")
                        then None
                        else Some (BuildFromRule rule recipientID))
                       (IsHandoffResponse rule)
                       (if IsHandoffResponse rule then
                          if Message =? "" then "Customer requested agent"
                          else Message
                        else "")
                       (Some rule)
                       (MatchResult.MatchedKeyword m)
                       (MatchResult.Confidence m))
             /\ exists ri wi,
                  ruleRepo_IncrementHitCount E (Rule.ID rule) w1 = (ri, wi)
                  /\ w2 = match ri with
                          | Ok _ => wi
                          | Err _ =>
                              World.set_trace
                                (EvLog "warn" "failed to increment hit count"
                                 :: World.trace wi) wi
                          end
         end.
Proof.
  cbv zeta. unfold Process.
  pose proof (ruleRepo_FindActiveByWorkspace_run E workspaceID w) as Hfind.
  set (rules := rules_as_read E workspaceID w) in *.
  set (w1 := World.set_db_statements (S (World.db_statements w)) w) in *.
  destruct (Match_Rule_select (World.now w) rules content)
    as (_ & Hmatched & _).
  destruct (db_fails E (World.db_statements w)).
  - eexists; eexists. split; [|split; reflexivity].
    apply traced_run.
    rewrite (bind_ok _ _ _ _ _ (try_run _ _ _ _ Hfind)).
    rewrite bind_log. reflexivity.
  - destruct (MatchResult.Rule_ (Match E (World.now w) rules content))
      as [rule|] eqn:Hrule.
    + destruct (ruleRepo_IncrementHitCount E (Rule.ID rule) w1)
        as [ri wi] eqn:Hinc.
      eexists; eexists. split; [|split; [reflexivity|]].
      2:{ exists ri, wi. split; reflexivity. }
      apply traced_run.
      rewrite (bind_ok _ _ _ _ _ (try_run _ _ _ _ Hfind)).
      assert (Hne : Nat.eqb (length rules) 0 = false).
      { destruct rules; [discriminate Hrule|reflexivity]. }
      rewrite Hne, bind_time_Now.
      change (World.now w1) with (World.now w).
      rewrite Hmatched, Hrule. cbn [negb].
      rewrite (bind_ok _ _ _ _ _ (try_run _ _ _ _ Hinc)).
      destruct ri as [[]|e0];
        destruct (IsHandoffResponse rule);
        destruct (ResponseConfig.Message (Rule.ResponseConfig rule) =? "");
        reflexivity.
    + eexists; eexists. split; [|split; reflexivity].
      apply traced_run.
      rewrite (bind_ok _ _ _ _ _ (try_run _ _ _ _ Hfind)).
      destruct (Nat.eqb (length rules) 0); [reflexivity|].
      rewrite bind_time_Now. change (World.now w1) with (World.now w).
      rewrite Hmatched, Hrule. reflexivity.
Qed.

End ResponderFacts.

Section ResponderClaims.
Context (E : Env).

Lemma active_rules_In (workspaceID : uuid) (w : World.t) (rule : Rule.t) :
  In rule (rules_as_read E workspaceID w) ->
  In rule (World.rules w) /\ Rule.WorkspaceID rule = workspaceID.
Proof.
  rewrite <- !list_elem_of_In.
  rewrite (rules_as_read_Permutation E workspaceID w).
  unfold active_rules. rewrite list_elem_of_filter, N.eqb_eq. tauto.
Qed.

(** Whether a rule is selected does not depend on the order of the
    rules. *)
Lemma select_rule_None_Permutation (now : Time) (content : string)
    (rules rules' : list Rule.t) :
  Permutation rules rules' ->
  select_rule E now rules content = None ->
  select_rule E now rules' content = None.
Proof.
  intros Hp. unfold select_rule.
  destruct (List.find (fires E now content) rules) eqn:Hf; [discriminate|].
  destruct (List.find active_fallback rules) eqn:Hb; [discriminate|].
  intros _.
  destruct (List.find (fires E now content) rules') as [r|] eqn:Hf'.
  { apply List.find_some in Hf' as (Hin & Hr).
    rewrite (List.find_none _ _ Hf r) in Hr; [discriminate|].
    apply list_elem_of_In. rewrite Hp. apply list_elem_of_In. exact Hin. }
  destruct (List.find active_fallback rules') as [r|] eqn:Hb'; [|reflexivity].
  apply List.find_some in Hb' as (Hin & Hr).
  rewrite (List.find_none _ _ Hb r) in Hr; [discriminate|].
  apply list_elem_of_In. rewrite Hp. apply list_elem_of_In. exact Hin.
Qed.

(** The rule selected from the rules as they are read has the greatest
    priority among the active rules that fire, and, when none fires,
    among the active fallback rules. *)
Lemma select_rule_as_read (workspaceID : uuid) (w : World.t)
    (content : string) (rule : Rule.t) (confidence : Q) :
  select_rule E (World.now w) (rules_as_read E workspaceID w) content
  = Some (rule, confidence) ->
  (confidence = 1%Q
   /\ fires E (World.now w) content rule = true
   /\ forall r,
        In r (active_rules workspaceID w) ->
        fires E (World.now w) content r = true ->
        (Rule.Priority r <= Rule.Priority rule)%Z)
  \/ (confidence = (1 # 2)%Q
      /\ active_fallback rule = true
      /\ (forall r,
            In r (active_rules workspaceID w) ->
            fires E (World.now w) content r = false)
      /\ forall r,
           In r (active_rules workspaceID w) ->
           active_fallback r = true ->
           (Rule.Priority r <= Rule.Priority rule)%Z).
Proof.
  pose proof (rules_as_read_sorted E workspaceID w) as Hsorted.
  assert (Hin : forall r, In r (active_rules workspaceID w) ->
                          In r (rules_as_read E workspaceID w)).
  { intros r Hr. apply list_elem_of_In.
    rewrite (rules_as_read_Permutation E workspaceID w).
    apply list_elem_of_In. exact Hr. }
  assert (Hmax : forall f r0,
             List.find f (rules_as_read E workspaceID w) = Some r0 ->
             forall r, In r (active_rules workspaceID w) -> f r = true ->
                       (Rule.Priority r <= Rule.Priority r0)%Z).
  { intros f r0 Hfind r Hr Hfr.
    destruct (find_sorted_max f _ r Hsorted (Hin r Hr) Hfr)
      as (r1 & Hfind1 & _ & Hle).
    rewrite Hfind in Hfind1. inversion Hfind1; subst r1. exact Hle. }
  unfold select_rule.
  destruct (List.find (fires E (World.now w) content) _) as [r0|] eqn:Hf.
  - intros H. inversion H; subst r0 confidence. left.
    split; [reflexivity|]. split; [|exact (Hmax _ _ Hf)].
    apply List.find_some in Hf as (_ & Hf). exact Hf.
  - destruct (List.find active_fallback _) as [r0|] eqn:Hb; [|discriminate].
    intros H. inversion H; subst r0 confidence. right.
    split; [reflexivity|]. split; [|split; [|exact (Hmax _ _ Hb)]].
    + apply List.find_some in Hb as (_ & Hb). exact Hb.
    + intros r Hr. apply (List.find_none _ _ Hf). apply Hin. exact Hr.
Qed.

(** X18: [Process] returns an error exactly when the statement that reads the
    rules fails, and the error is then the one of the database: the rule
    of a match is never a nil pointer. When it returns a response without
    a matched rule, no rule was selected: the workspace has no active
    rule, or none fires and none is a fallback; the response is then the
    empty one, and no rule is written. *)
Theorem Process_fails_only_on_rule_lookup (workspaceID : uuid)
    (recipientID content : string) (w w' : World.t)
    (r : Result BotResponse.t) :
  Process E workspaceID recipientID content w = (r, w') ->
  (db_fails E (World.db_statements w) = true <-> exists e, r = Err e)
  /\ (forall e, r = Err e ->
      e = "database error" /\ World.rules w' = World.rules w)
  /\ (forall response,
        r = Ok response -> BotResponse.MatchedRule response = None ->
        response = BotResponse.mk false None false "" None "" 0%Q
        /\ World.rules w' = World.rules w
        /\ select_rule E (World.now w)
             (order_by_priority_desc (active_rules workspaceID w)) content
           = None).
Proof.
  intros H.
  destruct (Process_cases E workspaceID recipientID content w)
    as (r0 & w2 & Hrun & Hcase).
  rewrite Hrun in H. inversion H; subst r0 w'. clear H Hrun.
  cbv zeta in Hcase.
  destruct (Match_Rule_select E (World.now w)
              (rules_as_read E workspaceID w) content)
    as (Hsel & _ & _).
  destruct (db_fails E (World.db_statements w)).
  - destruct Hcase as (-> & ->). split; [split; eauto|].
    split; [|discriminate]. intros e He. inversion He. auto.
  - split.
    { split; [discriminate|]. intros (e & ->).
      destruct (MatchResult.Rule_ _); [destruct Hcase as (Hr & _)|
                                       destruct Hcase as (Hr & _)];
        discriminate. }
    destruct (MatchResult.Rule_ _) as [rule|].
    + destruct Hcase as (-> & _). split; [discriminate|].
      intros response Hr. inversion Hr; subst response. discriminate.
    + destruct Hcase as (-> & ->). split; [discriminate|].
      intros response Hr _. inversion Hr; subst response.
      split; [reflexivity|]. split; [reflexivity|].
      apply (select_rule_None_Permutation _ _ (rules_as_read E workspaceID w)).
      { rewrite (rules_as_read_Permutation E workspaceID w).
        symmetry. apply order_by_priority_desc_Permutation. }
      destruct (select_rule _ _ _ _); [discriminate|reflexivity].
Qed.

(** X19: Whenever [Process] is to be answered it has a matched rule, and the
    answer is built from it: the rule is an active rule of the workspace.
    With confidence 1 it fires on the content, and no active rule of the
    workspace that fires has a greater priority; with confidence 1/2 it is
    an active fallback rule, no active rule of the workspace fires, and no
    active fallback rule has a greater priority. Which of several such
    rules of one priority it is, is the database's choice. The response
    is [BuildFromRule] of this rule for the recipient, a text message; a
    rule that does not hand off is always answered, and never sets
    [ShouldHandoff]. *)
Theorem Process_replies_from_the_selected_rule (workspaceID : uuid)
    (recipientID content : string) (w w' : World.t)
    (response : BotResponse.t) :
  Process E workspaceID recipientID content w = (Ok response, w') ->
  (BotResponse.ShouldReply response = true ->
   exists rule out,
     BotResponse.MatchedRule response = Some rule
     /\ BotResponse.Response response = Some out)
  /\ (forall rule,
        BotResponse.MatchedRule response = Some rule ->
        In rule (World.rules w)
        /\ Rule.WorkspaceID rule = workspaceID
        /\ Rule.IsActive rule = true
        /\ ((BotResponse.Confidence response = 1%Q
             /\ fires E (World.now w) content rule = true
             /\ forall r,
                  In r (active_rules workspaceID w) ->
                  fires E (World.now w) content r = true ->
                  (Rule.Priority r <= Rule.Priority rule)%Z)
            \/ (BotResponse.Confidence response = (1 # 2)%Q
                /\ active_fallback rule = true
                /\ (forall r,
                      In r (active_rules workspaceID w) ->
                      fires E (World.now w) content r = false)
                /\ forall r,
                     In r (active_rules workspaceID w) ->
                     active_fallback r = true ->
                     (Rule.Priority r <= Rule.Priority rule)%Z))
        /\ BotResponse.ShouldHandoff response = IsHandoffResponse rule
        /\ (IsHandoffResponse rule = false ->
            BotResponse.ShouldReply response = true
            /\ BotResponse.Response response
               = Some (BuildFromRule rule recipientID))
        /\ (forall out,
              BotResponse.Response response = Some out ->
              BotResponse.ShouldReply response = true
              /\ out = BuildFromRule rule recipientID
              /\ OutboundMessage.RecipientID out = recipientID
              /\ OutboundMessage.ContentType out = "text")).
Proof.
  intros H.
  destruct (Process_cases E workspaceID recipientID content w)
    as (r0 & w2 & Hrun & Hcase).
  rewrite Hrun in H. inversion H; subst r0 w'. clear H Hrun.
  cbv zeta in Hcase.
  destruct (Match_Rule_select E (World.now w)
              (rules_as_read E workspaceID w) content)
    as (_ & _ & Hsel).
  destruct (db_fails E (World.db_statements w));
    [destruct Hcase; discriminate|].
  destruct (MatchResult.Rule_ _) as [rule|].
  - destruct Hcase as (Hr & _). inversion Hr; subst response. clear Hr.
    destruct (Hsel rule eq_refl) as (Hin & Hact & Hselect).
    apply active_rules_In in Hin as (Hin & Hws).
    simpl. split.
    + intros Hreply. exists rule.
      destruct (IsHandoffResponse rule); simpl in *.
      * destruct (ResponseConfig.Message (Rule.ResponseConfig rule) =? "");
          [discriminate|]. eauto.
      * eauto.
    + intros rule' Hr. inversion Hr; subst rule'.
      split; [exact Hin|]. split; [exact Hws|]. split; [exact Hact|].
      split; [exact (select_rule_as_read _ _ _ _ _ Hselect)|].
      split; [reflexivity|]. split.
      * intros ->. split; reflexivity.
      * intros out Hout.
        destruct (IsHandoffResponse rule); simpl in *;
          [destruct (ResponseConfig.Message (Rule.ResponseConfig rule) =? "");
           simpl in *; [discriminate|]|];
          inversion Hout; subst out; repeat split; reflexivity.
  - destruct Hcase as (Hr & _). inversion Hr; subst response. simpl.
    split; [discriminate|]. discriminate.
Qed.

(** X20: [Process] writes nothing to the rules but the hit statistics of the
    matched rule: every row keeps its settings, a row is either as it was
    or has one hit more and the time of this call as the time it last
    fired, and only rows with the identifier of the matched rule change.
    When the statement of the counter does not fail, the rows of the
    matched rule do have one hit more. *)
Theorem Process_counts_the_hit (workspaceID : uuid)
    (recipientID content : string) (w w' : World.t)
    (r : Result BotResponse.t) :
  Process E workspaceID recipientID content w = (r, w') ->
  Forall2
    (fun old new =>
       same_settings old new
       /\ (new = old
           \/ (Rule.HitCount new = Rule.HitCount old + 1
               /\ Rule.LastTriggeredAt new = Some (World.now w)
               /\ exists response rule,
                    r = Ok response
                    /\ BotResponse.MatchedRule response = Some rule
                    /\ Rule.ID old = Rule.ID rule)))
    (World.rules w) (World.rules w')
  /\ (forall response rule,
        r = Ok response -> BotResponse.MatchedRule response = Some rule ->
        db_fails E (S (World.db_statements w)) = false ->
        Forall2
          (fun old new =>
             Rule.HitCount new
             = if (Rule.ID old =? Rule.ID rule)%N then Rule.HitCount old + 1
               else Rule.HitCount old)
          (World.rules w) (World.rules w')).
Proof.
  intros H.
  destruct (Process_cases E workspaceID recipientID content w)
    as (r0 & w2 & Hrun & Hcase).
  rewrite Hrun in H. inversion H; subst r0 w'. clear H Hrun.
  cbv zeta in Hcase.
  assert (Hsame : forall l : list Rule.t,
             Forall2
               (fun old new =>
                  same_settings old new
                  /\ (new = old
                      \/ (Rule.HitCount new = Rule.HitCount old + 1
                          /\ Rule.LastTriggeredAt new = Some (World.now w)
                          /\ exists response rule,
                               r = Ok response
                               /\ BotResponse.MatchedRule response = Some rule
                               /\ Rule.ID old = Rule.ID rule))) l l).
  { intros l. apply Forall2_same_length_lookup. split; [reflexivity|].
    intros i x y Hx Hy. rewrite Hx in Hy. inversion Hy; subst y.
    split; [repeat split|left; reflexivity]. }
  destruct (db_fails E (World.db_statements w)).
  { destruct Hcase as (-> & ->). simpl. split; [apply Hsame|discriminate]. }
  destruct (MatchResult.Rule_ _) as [rule|].
  2:{ destruct Hcase as (-> & ->). simpl. split; [apply Hsame|].
      intros response rule Hr. inversion Hr; subst response. discriminate. }
  destruct Hcase as (Hr & ri & wi & Hinc & ->).
  rewrite ruleRepo_IncrementHitCount_run in Hinc.
  cbn [World.db_statements World.set_db_statements] in Hinc.
  destruct (db_fails E (S (World.db_statements w))).
  - inversion Hinc; subst ri wi. simpl. split; [apply Hsame|discriminate].
  - inversion Hinc; subst ri wi. simpl. split.
    + apply Forall2_fmap_r, Forall2_same_length_lookup. split; [reflexivity|].
      intros i x y Hx Hy. rewrite Hx in Hy. inversion Hy; subst y.
      unfold compose. cbv beta. destruct (Rule.ID x =? Rule.ID rule)%N eqn:Hid.
      * split; [unfold same_settings; simpl; repeat split; reflexivity|].
        right. simpl.
        split; [reflexivity|]. split; [reflexivity|].
        eexists; exists rule. split; [exact Hr|]. split; [reflexivity|].
        apply N.eqb_eq. exact Hid.
      * split; [repeat split|left; reflexivity].
    + intros response rule' Hr' Hm _. rewrite Hr in Hr'.
      inversion Hr'; subst response. simpl in Hm. inversion Hm; subst rule'.
      apply Forall2_fmap_r, Forall2_same_length_lookup. split; [reflexivity|].
      intros i x y Hx Hy. rewrite Hx in Hy. inversion Hy; subst y.
      unfold compose. cbv beta.
      destruct (Rule.ID x =? Rule.ID rule)%N; reflexivity.
Qed.

End ResponderClaims.

Lemma Process_fails_only_on_rule_lookup_witness :
  fst (Process (Example.env_failing_at 0) 1%N "u1" "Xin chao"
         (Example.world Example.greeting_rules))
  = Err "database error".
Proof.
  destruct (Process (Example.env_failing_at 0) 1%N "u1" "Xin chao"
              (Example.world Example.greeting_rules)) as [r w'] eqn:H.
  destruct (Process_fails_only_on_rule_lookup _ _ _ _ _ _ _ H)
    as (Hiff & Herr & _).
  destruct (proj1 Hiff eq_refl) as (e & ->).
  destruct (Herr e eq_refl) as (-> & _). reflexivity.
Defined.

Lemma Process_replies_from_the_selected_rule_witness :
  exists response w',
    Process Example.env 1%N "u1" "Xin Chao"
      (Example.world Example.greeting_rules) = (Ok response, w')
    /\ option_map OutboundMessage.Content (BotResponse.Response response)
       = Some "Xin chao!".
Proof.
  assert (H : exists response w',
             Process Example.env 1%N "u1" "Xin Chao"
               (Example.world Example.greeting_rules) = (Ok response, w'))
    by (vm_compute; eexists; eexists; reflexivity).
  destruct H as (response & w' & H). exists response, w'.
  split; [exact H|].
  destruct (Process_replies_from_the_selected_rule _ _ _ _ _ _ _ H)
    as (_ & Hrule).
  assert (Hm : BotResponse.MatchedRule response
               = Some (Example.keyword_rule 11%N 100 ["xin chao"] "Xin chao!"))
    by (vm_compute in H; inversion H; reflexivity).
  destruct (Hrule _ Hm) as (_ & _ & _ & _ & _ & Hreply & _).
  destruct Hreply as (_ & ->); reflexivity.
Defined.

Lemma Process_counts_the_hit_witness :
  exists r w',
    Process Example.env 1%N "u1" "Xin Chao"
      (Example.world Example.greeting_rules) = (r, w')
    /\ map Rule.HitCount (World.rules w') = [1].
Proof.
  assert (H : exists response w',
             Process Example.env 1%N "u1" "Xin Chao"
               (Example.world Example.greeting_rules) = (Ok response, w'))
    by (vm_compute; eexists; eexists; reflexivity).
  destruct H as (response & w' & H). exists (Ok response), w'.
  split; [exact H|].
  destruct (Process_counts_the_hit _ _ _ _ _ _ _ H) as (_ & Hcount).
  assert (Hm : BotResponse.MatchedRule response
               = Some (Example.keyword_rule 11%N 100 ["xin chao"] "Xin chao!"))
    by (vm_compute in H; inversion H; reflexivity).
  specialize (Hcount _ _ eq_refl Hm eq_refl).
  simpl World.rules in Hcount. unfold Example.greeting_rules in Hcount.
  inversion Hcount as [|old new l l' Hhit Hrest Hl Hl']; subst.
  inversion Hrest; subst. simpl. rewrite Hhit. reflexivity.
Defined.

(* ===================================================================== *)
(** ** The pipeline: errors *)
(* ===================================================================== *)

Section Fallible.

Lemma db_fallible_ret {A : Type} (P : A -> Prop) (a : A) :
  P a -> db_fallible P (ret a).
Proof. intros Ha w r w' H. inversion H; subst. exact Ha. Qed.

Lemma db_fallible_fail {A : Type} (P : A -> Prop) :
  db_fallible P (@fail A "database error").
Proof. intros w r w' H. inversion H; subst. reflexivity. Qed.

Lemma db_fallible_bind {A B : Type} (Q : A -> Prop) (P : B -> Prop)
    (m : M A) (k : A -> M B) :
  db_fallible Q m -> (forall a, Q a -> db_fallible P (k a)) ->
  db_fallible P (bind m k).
Proof.
  intros Hm Hk w r w' H.
  apply bind_inv in H as [(a & w1 & H1 & H2)|(e & H1 & ->)].
  - apply (Hk a (Hm _ _ _ H1) _ _ _ H2).
  - apply (Hm _ _ _ H1).
Qed.

Lemma db_fallible_try {A : Type} (P : A -> Prop) (m : M A) :
  db_fallible P m ->
  db_fallible (fun r => match r with Ok a => P a | Err e => e = "database error" end)
    (try m).
Proof.
  intros Hm w r w' H. apply try_inv in H as (r0 & H & ->). apply (Hm _ _ _ H).
Qed.

Lemma db_fallible_any {A : Type} (m : M A) :
  (forall w, exists a w', m w = (Ok a, w')) -> db_fallible (fun _ => True) m.
Proof.
  intros Hm w r w' H. destruct (Hm w) as (a & w1 & Ha).
  rewrite Ha in H. inversion H; subst. exact I.
Qed.

Lemma db_fallible_weaken {A : Type} (P Q : A -> Prop) (m : M A) :
  (forall a, P a -> Q a) -> db_fallible P m -> db_fallible Q m.
Proof.
  intros HPQ Hm w r w' H. specialize (Hm _ _ _ H).
  destruct r; [apply HPQ|]; exact Hm.
Qed.

Lemma db_fallible_db_exec (E : Env) : db_fallible (fun _ => True) (db_exec E).
Proof.
  intros w r w' H. unfold db_exec in H.
  destruct (db_fails E (World.db_statements w)); inversion H; subst;
    [reflexivity|exact I].
Qed.

Lemma db_fallible_BeforeCreate (E : Env) (id : uuid) :
  db_fallible (fun _ => True) (BeforeCreate E id).
Proof.
  apply db_fallible_any. intros w. unfold BeforeCreate.
  destruct (id =? uuid_Nil)%N; eexists; eexists; reflexivity.
Qed.

(** The statement of a [Create] and the append that follows it. *)
Lemma db_fallible_insert (E : Env) (f : World.t -> World.t) :
  db_fallible (fun _ => True) (db_exec E ;;; modify f).
Proof.
  eapply db_fallible_bind; [apply db_fallible_db_exec|].
  intros _ _. apply db_fallible_any. intros w. eexists; eexists; reflexivity.
Qed.

End Fallible.

Section PipelineErrors.
Context (E : Env).

Lemma participantRepo_Create_fallible (participant : Participant.t) :
  db_fallible db_result (participantRepo_Create E participant).
Proof.
  unfold participantRepo_Create.
  eapply db_fallible_bind; [apply db_fallible_BeforeCreate|]. intros id _.
  eapply db_fallible_bind; [apply db_fallible_try, db_fallible_insert|].
  intros r Hr. apply db_fallible_ret. destruct r; [exact I|exact Hr].
Qed.

Lemma conversationRepo_Create_fallible (conv : Conversation.t) :
  db_fallible db_result (conversationRepo_Create E conv).
Proof.
  unfold conversationRepo_Create.
  eapply db_fallible_bind; [apply db_fallible_BeforeCreate|]. intros id _.
  eapply db_fallible_bind; [apply db_fallible_try, db_fallible_insert|].
  intros r Hr. apply db_fallible_ret. destruct r; [exact I|exact Hr].
Qed.

Lemma messageRepo_Create_fallible (msg : Message.t) :
  db_fallible db_result (messageRepo_Create E msg).
Proof.
  unfold messageRepo_Create.
  eapply db_fallible_bind; [apply db_fallible_BeforeCreate|]. intros id _.
  eapply db_fallible_bind; [apply db_fallible_try, db_fallible_insert|].
  intros r Hr. apply db_fallible_ret. destruct r; [exact I|exact Hr].
Qed.

Lemma db_fallible_created {A : Type} (c : A * Result unit) :
  db_result c ->
  db_fallible (fun _ => True)
    (match c with
     | (_, Err err) => fail err
     | (a, Ok _) => ret (a, true)
     end).
Proof.
  destruct c as [a [u|e]]; unfold db_result; simpl; intros H.
  - apply db_fallible_ret. exact I.
  - subst e. apply db_fallible_fail.
Qed.

Lemma findOrCreateParticipant_fallible (workspaceID channelAccountID : uuid)
    (inbound : InboundMessage.t) :
  db_fallible (fun _ => True)
    (findOrCreateParticipant E workspaceID channelAccountID inbound).
Proof.
  unfold findOrCreateParticipant, participantRepo_FindOrCreate.
  eapply db_fallible_bind.
  { apply db_fallible_any. intros w. eexists; eexists; reflexivity. }
  intros now _.
  eapply db_fallible_bind with (Q := fun _ => True).
  - eapply db_fallible_bind with (Q := fun _ => True).
    + apply db_fallible_any. intros w. unfold try.
      destruct (participantRepo_FindByChannelUserID _ _ _ w) as [r w1].
      eexists; eexists; reflexivity.
    + intros [existing|e0] _.
      * apply db_fallible_ret. exact I.
      * eapply db_fallible_bind; [apply participantRepo_Create_fallible|].
        intros c Hc. apply db_fallible_created. exact Hc.
  - intros x _. eapply db_fallible_bind with (Q := fun _ => True).
    + apply db_fallible_any. intros w.
      destruct (Participant.Name (fst x));
        [|destruct (InboundMessage.ChannelType inbound =? "facebook")];
        eexists; eexists; reflexivity.
    + intros _ _. apply db_fallible_ret. exact I.
Qed.

Lemma findOrCreateConversation_fallible
    (workspaceID channelAccountID participantID : uuid) :
  db_fallible (fun _ => True)
    (findOrCreateConversation E workspaceID channelAccountID participantID).
Proof.
  unfold findOrCreateConversation, conversationRepo_FindOrCreate.
  eapply db_fallible_bind with (Q := fun _ => True).
  - apply db_fallible_any. intros w. unfold try.
    destruct (conversationRepo_FindOpenByParticipant _ _ w) as [r w1].
    eexists; eexists; reflexivity.
  - intros [existing|e0] _.
    + apply db_fallible_ret. exact I.
    + eapply db_fallible_bind; [apply conversationRepo_Create_fallible|].
      intros c Hc. apply db_fallible_created. exact Hc.
Qed.

Lemma saveMessage_fallible (conversationID : uuid) (inbound : InboundMessage.t) :
  db_fallible (fun _ => True) (saveMessage E conversationID inbound).
Proof.
  unfold saveMessage.
  eapply db_fallible_bind; [apply messageRepo_Create_fallible|].
  intros [m [u|e]] Hc; unfold db_result in Hc; simpl in Hc.
  - apply db_fallible_ret. exact I.
  - subst e. apply db_fallible_fail.
Qed.

(** A [saveMessage] that failed wrote no row. *)
Lemma saveMessage_failed (conversationID : uuid) (inbound : InboundMessage.t)
    (w w' : World.t) (e : error) :
  saveMessage E conversationID inbound w = (Err e, w') ->
  World.messages w' = World.messages w.
Proof.
  unfold saveMessage, messageRepo_Create. intros H.
  apply bind_inv in H as [(c & w1 & Hc & H)|(e' & Hc & _)].
  - apply bind_inv in Hc as [(id & w2 & Hid & Hc)|(e' & _ & Hd)]; [|discriminate].
    apply bind_try_inv in Hc as (r0 & w3 & Hins & Hc).
    inversion Hc; subst c w3; clear Hc.
    destruct r0 as [u|e0]; [inversion H|].
    inversion H; subst e0 w'; clear H.
    assert (Hk : World.messages w2 = World.messages w).
    { unfold BeforeCreate in Hid.
      destruct (_ =? _)%N; inversion Hid; subst; reflexivity. }
    apply bind_inv in Hins as [(u & w4 & Hdb & Hm)|(e' & Hdb & _)].
    + inversion Hm.
    + unfold db_exec in Hdb.
      destruct (db_fails E (World.db_statements w2)); inversion Hdb; subst.
      exact Hk.
  - apply bind_inv in Hc as [(id & w2 & Hid & Hc)|(e'' & Hid & _)].
    + apply bind_try_inv in Hc as (r0 & w3 & Hins & Hc). inversion Hc.
    + unfold BeforeCreate in Hid. destruct (_ =? _)%N; inversion Hid.
Qed.

End PipelineErrors.

Section PipelineErrorTheorems.
Context (E : Env).

(** X21: ProcessInbound returns an error only from one of its first three
    steps, and then it is the error of the failed database statement,
    unwrapped; no message row has been written, the responder has not
    been called and nothing has been sent. *)
Theorem ProcessInbound_error_is_early (workspaceID channelAccountID : uuid)
    (inbound : InboundMessage.t) (w w' : World.t) (e : error) :
  ProcessInbound E workspaceID channelAccountID inbound w = (Err e, w') ->
  e = "database error"
  /\ World.messages w' = World.messages w
  /\ quiet w w'.
Proof.
  intros Hrun. pose proof Hrun as H.
  apply ProcessInbound_run in Hrun
    as [(_ & Hq & _)|(x & w1 & y & w2 & m & w3 & w4 & bot & _ & _ & _ & _ & _ & _
                      & Hr)]; [|discriminate].
  unfold ProcessInbound in H.
  apply bind_inv in H as [(x & w1 & Hx & H)|(e' & Hx & He)].
  2:{ inversion He; subst e'. splits; [|
        |exact Hq].
      - apply (findOrCreateParticipant_fallible E _ _ _ _ _ _ Hx).
      - apply (steps_elim _ _ _ _ _ (findOrCreateParticipant_frame E _ _ _) Hx). }
  pose proof (steps_elim _ _ _ _ _ (findOrCreateParticipant_frame E _ _ _) Hx)
    as (_ & _ & Hm1).
  apply bind_inv in H as [(y & w2 & Hy & H)|(e' & Hy & He)].
  2:{ inversion He; subst e'. splits; [| |exact Hq].
      - apply (findOrCreateConversation_fallible E _ _ _ _ _ _ Hy).
      - pose proof (steps_elim _ _ _ _ _
                      (findOrCreateConversation_frame E _ _ _) Hy)
          as (_ & _ & Hm2).
        unfold keeps in *. congruence. }
  pose proof (steps_elim _ _ _ _ _ (findOrCreateConversation_frame E _ _ _) Hy)
    as (_ & _ & Hm2).
  apply bind_inv in H as [(m & w3 & Hm & H)|(e' & Hm & He)].
  2:{ inversion He; subst e'. splits; [| |exact Hq].
      - apply (saveMessage_fallible E _ _ _ _ _ Hm).
      - apply saveMessage_failed in Hm. unfold keeps in *. congruence. }
  exfalso.
  assert (Hrun : ProcessInbound E workspaceID channelAccountID inbound w
                 = (Err e, w')).
  { unfold ProcessInbound.
    rewrite (bind_ok _ _ _ _ _ Hx), (bind_ok _ _ _ _ _ Hy),
      (bind_ok _ _ _ _ _ Hm). exact H. }
  apply ProcessInbound_run in Hrun
    as [(_ & _ & Hno)|(x' & w1' & y' & w2' & m' & w3' & w4 & bot & _ & _ & _ & _
                        & _ & _ & Hr)]; [|discriminate].
  apply (Hno _ _ _ _ _ _ Hx Hy Hm).
Qed.

End PipelineErrorTheorems.

(** The insert of the inbound message fails: the participant and the
    conversation created before it stay in their tables. *)
Lemma ProcessInbound_error_is_early_witness :
  exists e w',
    ProcessInbound (Example.env_failing_at 4) 1%N 2%N
      (Example.text_from "mock" "u1" "m1" "Xin chao")
      (Example.world Example.greeting_rules) = (Err e, w')
    /\ e = "database error"
    /\ World.messages w' = []
    /\ length (World.participants w') = 1%nat
    /\ length (World.conversations w') = 1%nat.
Proof.
  destruct (ProcessInbound (Example.env_failing_at 4) 1%N 2%N
              (Example.text_from "mock" "u1" "m1" "Xin chao")
              (Example.world Example.greeting_rules)) as [r w'] eqn:Hrun.
  assert (Hr : exists e, r = Err e /\ length (World.participants w') = 1%nat
                         /\ length (World.conversations w') = 1%nat).
  { vm_compute in Hrun. inversion Hrun; subst. eexists. splits; reflexivity. }
  destruct Hr as (e & -> & Hp & Hc).
  destruct (ProcessInbound_error_is_early _ _ _ _ _ _ _ Hrun) as (He & Hm & _).
  exists e, w'. splits; try assumption; reflexivity.
Defined.

(* ===================================================================== *)
(** ** The pipeline with a database that answers *)
(* ===================================================================== *)

Lemma active_conversation_of_save_row (participantID : uuid) (w w' : World.t)
    (c0 c : Conversation.t) :
  active_conversation_of participantID w = Some c0 ->
  Conversation.ID c = Conversation.ID c0 ->
  Conversation.ParticipantID c = participantID ->
  is_active_status (Conversation.Status c) = true ->
  World.conversations w'
  = save_row Conversation.ID c (World.conversations w) ->
  active_conversation_of participantID w' = Some c.
Proof.
  unfold active_conversation_of. intros H HID Hp Hs ->.
  apply (last_filter_save_row _ Conversation.ID c0 c); [exact HID| |exact H].
  split; [apply N.eqb_eq; exact Hp|exact Hs].
Qed.

Lemma active_conversation_of_closed (participantID : uuid) (w : World.t) :
  (forall c, In c (World.conversations w) ->
             Conversation.ParticipantID c = participantID ->
             IsClosed c = true) ->
  active_conversation_of participantID w = None.
Proof.
  intros Hclosed. unfold active_conversation_of.
  destruct (last _) as [c|] eqn:Hl; [|reflexivity].
  apply last_filter_In in Hl as (Hin & Hp & Hs).
  apply N.eqb_eq in Hp. specialize (Hclosed c Hin Hp).
  unfold IsClosed in Hclosed. apply String.eqb_eq in Hclosed.
  rewrite Hclosed in Hs. discriminate.
Qed.

(** A [saveMessage] that returned a message appended it, an inbound row
    of the customer in the conversation it was given. *)
Lemma saveMessage_row (E : Env) (conversationID : uuid)
    (inbound : InboundMessage.t) (w w' : World.t) (m : Message.t) :
  saveMessage E conversationID inbound w = (Ok m, w') ->
  World.messages w' = (World.messages w ++ [m])%list
  /\ Message.ConversationID m = conversationID
  /\ Message.Direction m = DirectionIn
  /\ Message.SenderType m = SenderCustomer
  /\ Message.Content m
     = (if InboundMessage.Content inbound =? "" then None
        else Some (InboundMessage.Content inbound))
  /\ Message.ChannelMessageID m
     = (if InboundMessage.ChannelMessageID inbound =? "" then None
        else Some (InboundMessage.ChannelMessageID inbound)).
Proof.
  unfold saveMessage, messageRepo_Create. intros H.
  apply bind_inv in H as [(c & w1 & Hc & H)|(e' & Hc & Hd)]; [|discriminate].
  apply bind_inv in Hc as [(id & w2 & Hid & Hc)|(e' & _ & Hd)]; [|discriminate].
  apply bind_try_inv in Hc as (r0 & w3 & Hins & Hc).
  inversion Hc; subst c w3; clear Hc.
  destruct r0 as [u|e0]; [|inversion H].
  inversion H; subst m w'; clear H.
  assert (Hk : World.messages w2 = World.messages w).
  { unfold BeforeCreate in Hid.
    destruct (_ =? _)%N; inversion Hid; subst; reflexivity. }
  apply bind_inv in Hins as [(u' & w4 & Hdb & Hm)|(e' & Hdb & Hd)];
    [|discriminate].
  assert (Hk4 : World.messages w4 = World.messages w2).
  { unfold db_exec in Hdb.
    destruct (db_fails E (World.db_statements w2)); inversion Hdb; subst;
      reflexivity. }
  inversion Hm; subst. simpl. rewrite Hk4, Hk.
  splits; reflexivity.
Qed.

Section ReliableRun.
Context (E : Env) (Hreliable : reliable E).

(** No active conversation: one is created, open, at the end of the
    table. *)
Lemma findOrCreateConversation_reliable_new
    (workspaceID channelAccountID participantID : uuid) (w : World.t) :
  active_conversation_of participantID w = None ->
  exists y w2,
    findOrCreateConversation E workspaceID channelAccountID participantID w
    = (Ok (y, true), w2)
    /\ Conversation.Status y = StatusOpen
    /\ Conversation.ParticipantID y = participantID
    /\ World.conversations w2 = (World.conversations w ++ [y])%list.
Proof.
  intros Hnone.
  unfold findOrCreateConversation, conversationRepo_FindOrCreate.
  rewrite (bind_ok _ _ _ _ _
             (try_run _ _ _ _
                (conversationRepo_FindOpenByParticipant_reliable E Hreliable _ w))).
  cbn [Conversation.ParticipantID]. rewrite Hnone.
  match goal with
  | |- context [conversationRepo_Create E ?c ] => set (conv := c)
  end.
  destruct (conversationRepo_Create_reliable E Hreliable conv
              (World.set_db_statements (S (World.db_statements w)) w))
    as (id & w' & Hcr & Hrows).
  rewrite (bind_ok _ _ _ _ _ Hcr). eexists; eexists.
  splits; [reflexivity|reflexivity|reflexivity|exact Hrows].
Qed.

Lemma processBotResponse_handoff_reliable (conv : Conversation.t)
    (botResponse : BotResponse.t) (w w' : World.t) (r : Result bool) :
  BotResponse.ShouldHandoff botResponse = true ->
  processBotResponse_handoff E conv botResponse w = (r, w') ->
  World.conversations w'
  = save_row Conversation.ID
      (PauseBot (BotResponse.HandoffReason botResponse) conv)
      (World.conversations w).
Proof.
  unfold processBotResponse_handoff. intros -> H. cbv zeta in H.
  unfold conversationRepo_Update in H.
  rewrite (bind_ok _ _ _ _ _
             (try_run _ _ _ _
                (bind_ok _ _ _ _ _ (db_exec_reliable E Hreliable w)))) in H.
  unfold modify, bind, ret in H. inversion H; subst. reflexivity.
Qed.

(** A result of [processBotResponse] that reports a handoff: the
    conversation has been written back, paused. *)
Lemma processBotResponse_paused (workspaceID channelAccountID : uuid)
    (conv : Conversation.t) (inbound : InboundMessage.t)
    (inboundMsg : Message.t) (w w' : World.t) (b : botProcessResult.t) :
  processBotResponse E workspaceID channelAccountID conv inbound inboundMsg w
  = (Ok b, w') ->
  botProcessResult.ShouldHandoff b = true ->
  exists reason,
    World.conversations w'
    = save_row Conversation.ID (PauseBot reason conv) (World.conversations w).
Proof.
  unfold processBotResponse. intros H Hb.
  apply bind_inv in H as [(botResponse & w1 & Hp & H)|(e & Hp & Hd)];
    [|discriminate].
  apply Process_run in Hp as (w0 & (_ & _ & Hco1 & _) & ->).
  unfold keeps in Hco1.
  apply bind_inv in H as [(sh & w2 & Hh & H)|(e & Hh & Hd)]; [|discriminate].
  pose proof (processBotResponse_handoff_run _ _ _ _ _ _ Hh) as (Hr & _).
  inversion Hr; subst sh. clear Hr.
  assert (Htail : botProcessResult.ShouldHandoff b
                  = BotResponse.ShouldHandoff botResponse
                  /\ World.conversations w' = World.conversations w2).
  { destruct (BotResponse.ShouldReply botResponse);
      [destruct (BotResponse.Response botResponse) as [response|]|].
    - apply processBotResponse_reply_run in H as (evs & _ & Hco & _ & _ & Hsh & _).
      split; [apply Hsh; reflexivity|exact Hco].
    - inversion H; subst. auto.
    - inversion H; subst. auto. }
  destruct Htail as (Hsh & Hco3). rewrite Hb in Hsh. symmetry in Hsh.
  apply (processBotResponse_handoff_reliable _ _ _ _ _ Hsh) in Hh.
  exists (BotResponse.HandoffReason botResponse).
  rewrite Hco3, Hh. simpl. rewrite Hco1. reflexivity.
Qed.

(** A run of [ProcessInbound]: every step is taken. *)
Lemma ProcessInbound_reliable_run (workspaceID channelAccountID : uuid)
    (inbound : InboundMessage.t) (w : World.t) :
  exists x wa y wb m wc wd c bot w',
    findOrCreateParticipant E workspaceID channelAccountID inbound w = (Ok x, wa)
    /\ participant_of channelAccountID (InboundMessage.SenderID inbound) wa
       = Some (fst x)
    /\ (forall p,
          participant_of channelAccountID (InboundMessage.SenderID inbound) w
          = Some p -> x = (p, false))
    /\ World.conversations wa = World.conversations w
    /\ findOrCreateConversation E workspaceID channelAccountID
         (Participant.ID (fst x)) wa = (Ok y, wb)
    /\ active_conversation_of (Participant.ID (fst x)) wb = Some (fst y)
    /\ (forall c0,
          active_conversation_of (Participant.ID (fst x)) wa = Some c0 ->
          y = (c0, false))
    /\ saveMessage E (Conversation.ID (fst y)) inbound wb = (Ok m, wc)
    /\ World.messages wb = World.messages w
    /\ World.messages wd = World.messages wc
    /\ quiet w wd
    /\ World.participants wd = World.participants wa
    /\ active_conversation_of (Participant.ID (fst x)) wd = Some c
    /\ Conversation.ID c = Conversation.ID (fst y)
    /\ Conversation.Status c = Conversation.Status (fst y)
    /\ ProcessInbound_bot E workspaceID channelAccountID
         (UpdateLastMessage (InboundMessage.Content inbound)
            (InboundMessage.Timestamp inbound) (fst y))
         inbound m wd = (Ok bot, w')
    /\ ProcessInbound E workspaceID channelAccountID inbound w
       = (Ok (ProcessResult.mk (Participant.ID (fst x)) (snd x)
                (Conversation.ID (fst y)) (snd y) (Message.ID m)
                (match bot with
                 | Some b => botProcessResult.ShouldReply b
                 | None => false
                 end)
                (match bot with
                 | Some b => botProcessResult.ShouldHandoff b
                 | None => false
                 end)
                (match bot with
                 | Some b => botProcessResult.ResponseSent b
                 | None => None
                 end)), w').
Proof.
  destruct (findOrCreateParticipant_reliable E Hreliable workspaceID
              channelAccountID inbound w) as (x & wa & Hx & Hpx & Hfound).
  destruct (findOrCreateConversation_reliable E Hreliable workspaceID
              channelAccountID (Participant.ID (fst x)) wa)
    as (y & wb & Hy & Hcy & Hfoundc).
  destruct (saveMessage_reliable E Hreliable (Conversation.ID (fst y))
              inbound wb) as (m & wc & Hm).
  destruct (ProcessInbound E workspaceID channelAccountID inbound w)
    as [r1 w1] eqn:Hrun1.
  apply ProcessInbound_run in Hrun1
    as [(_ & _ & Hno)|(x' & wa' & y' & wb' & m' & wc' & wd & bot
                        & Hx' & Hy' & Hm' & Hwd & Hcd & Hbot & ->)].
  { destruct (Hno _ _ _ _ _ _ Hx Hy Hm). }
  rewrite Hx in Hx'. inversion Hx'; subst x' wa'. clear Hx'.
  rewrite Hy in Hy'. inversion Hy'; subst y' wb'. clear Hy'.
  rewrite Hm in Hm'. inversion Hm'; subst m' wc'. clear Hm'.
  pose proof (steps_elim _ _ _ _ _ (findOrCreateParticipant_frame E _ _ _) Hx)
    as (Hqa & Hcoa & Hmea).
  pose proof (steps_elim _ _ _ _ _ (findOrCreateConversation_frame E _ _ _) Hy)
    as (Hqb & Hpab & Hmeb).
  pose proof (steps_elim _ _ _ _ _ (saveMessage_frame E _ _) Hm)
    as (Hqc & Hpac & Hcoc).
  destruct Hwd as (Hqd & Hpad & Hmed). unfold keeps in *.
  destruct (active_conversation_of_Some _ _ _ Hcy) as (Hyp & Hys).
  assert (Hactive_c : active_conversation_of (Participant.ID (fst x)) wc
                      = Some (fst y)).
  { rewrite (active_conversation_of_tables _ _ _ Hcoc). exact Hcy. }
  assert (Hactive_d : exists c,
             active_conversation_of (Participant.ID (fst x)) wd = Some c
             /\ Conversation.ID c = Conversation.ID (fst y)
             /\ Conversation.Status c = Conversation.Status (fst y)).
  { destruct Hcd as [Hcd|Hcd].
    - exists (fst y). rewrite (active_conversation_of_tables _ _ _ Hcd). auto.
    - exists (UpdateLastMessage (InboundMessage.Content inbound)
                (InboundMessage.Timestamp inbound) (fst y)).
      split; [|split; reflexivity].
      apply (active_conversation_of_save_row _ wc wd (fst y));
        [exact Hactive_c|reflexivity|exact Hyp|exact Hys|exact Hcd]. }
  destruct Hactive_d as (c & Hc & Hcid & Hcs).
  exists x, wa, y, wb, m, wc, wd, c, bot, w1.
  splits; try assumption; try reflexivity.
  - congruence.
  - transitivity wa; [exact Hqa|]. transitivity wb; [exact Hqb|].
    transitivity wc; [exact Hqc|exact Hqd].
  - congruence.
Qed.

End ReliableRun.

Section ReliablePipeline.
Context (E : Env) (Hreliable : reliable E).

(** A delivery to a paused conversation. *)
Lemma ProcessInbound_on_paused (workspaceID channelAccountID : uuid)
    (inbound : InboundMessage.t) (w : World.t) (p : Participant.t)
    (c : Conversation.t) :
  participant_of channelAccountID (InboundMessage.SenderID inbound) w = Some p ->
  active_conversation_of (Participant.ID p) w = Some c ->
  IsBotPaused c = true ->
  exists m w' c',
    ProcessInbound E workspaceID channelAccountID inbound w
    = (Ok (ProcessResult.mk (Participant.ID p) false (Conversation.ID c) false
             (Message.ID m) false false None), w')
    /\ World.messages w' = (World.messages w ++ [m])%list
    /\ Message.ConversationID m = Conversation.ID c
    /\ Message.Direction m = DirectionIn
    /\ quiet w w'
    /\ participant_of channelAccountID (InboundMessage.SenderID inbound) w'
       = Some p
    /\ active_conversation_of (Participant.ID p) w' = Some c'
    /\ Conversation.ID c' = Conversation.ID c
    /\ IsBotPaused c' = true.
Proof.
  intros Hp Hc Hpaused.
  destruct (ProcessInbound_reliable_run E Hreliable workspaceID
              channelAccountID inbound w)
    as (x & wa & y & wb & m & wc & wd & c' & bot & w'
        & Hx & Hpx & Hfound & Hcoa & Hy & Hcy & Hfoundc & Hm & Hmeb & Hmed
        & Hq & Hpad & Hc' & Hcid & Hcs & Hbot & Hrun).
  rewrite (Hfound _ Hp) in *. clear Hfound. cbn [fst snd] in *.
  assert (Hyc : y = (c, false)).
  { apply Hfoundc. rewrite <- Hc.
    apply active_conversation_of_tables. exact Hcoa. }
  subst y. clear Hfoundc. cbn [fst snd] in *.
  apply saveMessage_row in Hm as (Hrows & Hmc & Hmd & _).
  apply ProcessInbound_bot_run in Hbot as [(_ & Hr & ->)|(Hnp & _)].
  2:{ unfold IsBotPaused, UpdateLastMessage in Hnp. simpl in Hnp.
      unfold IsBotPaused in Hpaused. congruence. }
  inversion Hr; subst bot. clear Hr.
  exists m, wd, c'. splits; try assumption.
  - rewrite Hmed, Hrows, Hmeb. reflexivity.
  - rewrite <- Hpx. apply participant_of_tables. exact Hpad.
  - unfold IsBotPaused in *. rewrite Hcs. exact Hpaused.
Qed.

(** X22: With a database that answers, a message for a participant whose
    active conversation is paused is stored in that conversation, as the
    one new message row; the responder is not called and nothing is
    sent; the result reports no reply and no handoff, and the
    conversation stays the participant's active conversation,
    paused. *)
Theorem ProcessInbound_paused_conversation_stays_silent
    (workspaceID channelAccountID : uuid) (inbound : InboundMessage.t)
    (w : World.t) (p : Participant.t) (c : Conversation.t) :
  participant_of channelAccountID (InboundMessage.SenderID inbound) w = Some p ->
  active_conversation_of (Participant.ID p) w = Some c ->
  IsBotPaused c = true ->
  exists result w' m c',
    ProcessInbound E workspaceID channelAccountID inbound w = (Ok result, w')
    /\ ProcessResult.ConversationID result = Conversation.ID c
    /\ ProcessResult.ConversationCreated result = false
    /\ ProcessResult.BotReplied result = false
    /\ ProcessResult.BotHandoff result = false
    /\ ProcessResult.ResponseSent result = None
    /\ World.messages w' = (World.messages w ++ [m])%list
    /\ Message.ID m = ProcessResult.MessageID result
    /\ Message.ConversationID m = Conversation.ID c
    /\ Message.Direction m = DirectionIn
    /\ quiet w w'
    /\ active_conversation_of (Participant.ID p) w' = Some c'
    /\ Conversation.ID c' = Conversation.ID c
    /\ IsBotPaused c' = true.
Proof.
  intros Hp Hc Hpaused.
  destruct (ProcessInbound_on_paused workspaceID channelAccountID inbound w p c
              Hp Hc Hpaused)
    as (m & w' & c' & Hrun & Hrows & Hmc & Hmd & Hq & _ & Hc' & Hid & Hpa).
  eexists; exists w', m, c'. split; [exact Hrun|].
  cbn. splits; try assumption; reflexivity.
Qed.

(** X23: With a database that answers, a delivery whose result reports a
    handoff silences the next one of the sender: it is processed in the
    same conversation, without a call of the responder and without a
    send, and reports no reply. *)
Theorem ProcessInbound_handoff_silences_the_next_delivery
    (workspaceID channelAccountID : uuid)
    (inbound1 inbound2 : InboundMessage.t) (w w1 : World.t)
    (result1 : ProcessResult.t) :
  ProcessInbound E workspaceID channelAccountID inbound1 w = (Ok result1, w1) ->
  ProcessResult.BotHandoff result1 = true ->
  InboundMessage.SenderID inbound2 = InboundMessage.SenderID inbound1 ->
  exists result2 w2,
    ProcessInbound E workspaceID channelAccountID inbound2 w1 = (Ok result2, w2)
    /\ ProcessResult.ParticipantID result2 = ProcessResult.ParticipantID result1
    /\ ProcessResult.ConversationID result2
       = ProcessResult.ConversationID result1
    /\ ProcessResult.BotReplied result2 = false
    /\ ProcessResult.BotHandoff result2 = false
    /\ ProcessResult.ResponseSent result2 = None
    /\ quiet w1 w2.
Proof.
  intros Hrun1 Hhandoff Hsender.
  destruct (ProcessInbound_reliable_run E Hreliable workspaceID
              channelAccountID inbound1 w)
    as (x & wa & y & wb & m & wc & wd & c & bot & w'
        & Hx & Hpx & _ & _ & Hy & Hcy & _ & Hm & _ & _
        & _ & Hpad & Hc & Hcid & Hcs & Hbot & Hrun).
  rewrite Hrun in Hrun1. inversion Hrun1; subst result1 w'. clear Hrun1 Hrun.
  cbn [ProcessResult.BotHandoff ProcessResult.ParticipantID
         ProcessResult.ConversationID] in *.
  destruct bot as [b|]; [|discriminate].
  destruct (active_conversation_of_Some _ _ _ Hcy) as (Hyp & _).
  apply ProcessInbound_bot_run in Hbot as [(_ & Hr & _)|(_ & pr & we & Hpr & Hr)];
    [discriminate|].
  destruct pr as [b'|err]; destruct Hr as (Hr & ->); [|discriminate].
  inversion Hr; subst b'. clear Hr.
  pose proof (processBotResponse_conversations _ _ _ _ _ _ _ _ _ Hpr)
    as (Hpae & _).
  destruct (processBotResponse_paused E Hreliable _ _ _ _ _ _ _ _ Hpr Hhandoff)
    as (reason & Hcoe).
  assert (Hactive : active_conversation_of (Participant.ID (fst x)) we
                    = Some (PauseBot reason
                              (UpdateLastMessage
                                 (InboundMessage.Content inbound1)
                                 (InboundMessage.Timestamp inbound1) (fst y)))).
  { apply (active_conversation_of_save_row _ wd we c);
      [exact Hc|symmetry; exact Hcid|exact Hyp|reflexivity|exact Hcoe]. }
  assert (Hpart : participant_of channelAccountID
                    (InboundMessage.SenderID inbound2) we = Some (fst x)).
  { rewrite Hsender, <- Hpx. apply participant_of_tables. congruence. }
  destruct (ProcessInbound_on_paused workspaceID channelAccountID inbound2 we
              _ _ Hpart Hactive eq_refl)
    as (m2 & w2 & c2 & Hrun2 & _ & _ & _ & Hq & _).
  eexists; exists w2. split; [exact Hrun2|].
  cbn. splits; try reflexivity. exact Hq.
Qed.

(** X24: With a database that answers, a known participant all of whose
    conversations are closed gets a new conversation with the next
    delivery: the result reports it as created, and it is the
    participant's active conversation from then on. *)
Theorem ProcessInbound_after_close_opens_a_new_conversation
    (workspaceID channelAccountID : uuid) (inbound : InboundMessage.t)
    (w : World.t) (p : Participant.t) :
  participant_of channelAccountID (InboundMessage.SenderID inbound) w = Some p ->
  (forall c, In c (World.conversations w) ->
             Conversation.ParticipantID c = Participant.ID p ->
             IsClosed c = true) ->
  exists result w' c,
    ProcessInbound E workspaceID channelAccountID inbound w = (Ok result, w')
    /\ ProcessResult.ParticipantID result = Participant.ID p
    /\ ProcessResult.ParticipantCreated result = false
    /\ ProcessResult.ConversationCreated result = true
    /\ active_conversation_of (Participant.ID p) w' = Some c
    /\ Conversation.ID c = ProcessResult.ConversationID result
    /\ IsClosed c = false.
Proof.
  intros Hp Hclosed.
  destruct (ProcessInbound_reliable_run E Hreliable workspaceID
              channelAccountID inbound w)
    as (x & wa & y & wb & m & wc & wd & c & bot & w'
        & Hx & Hpx & Hfound & Hcoa & Hy & Hcy & _ & Hm & _ & _
        & _ & Hpad & Hc & Hcid & Hcs & Hbot & Hrun).
  rewrite (Hfound _ Hp) in *. clear Hfound. cbn [fst snd] in *.
  destruct (findOrCreateConversation_reliable_new E Hreliable workspaceID
              channelAccountID (Participant.ID p) wa)
    as (y0 & wb0 & Hy0 & Hopen & Hyp & _).
  { rewrite (active_conversation_of_tables _ _ _ Hcoa).
    apply active_conversation_of_closed. exact Hclosed. }
  rewrite Hy0 in Hy. inversion Hy; subst y wb0. clear Hy. cbn [fst snd] in *.
  assert (Hfinal : exists c',
             active_conversation_of (Participant.ID p) w' = Some c'
             /\ Conversation.ID c' = Conversation.ID y0
             /\ IsClosed c' = false).
  { apply ProcessInbound_bot_run in Hbot
      as [(_ & _ & ->)|(_ & pr & we & Hpr & Hr)].
    - exists c. splits; [exact Hc|exact Hcid|].
      unfold IsClosed. rewrite Hcs, Hopen. reflexivity.
    - assert (Hw' : World.conversations w' = World.conversations we).
      { destruct pr; destruct Hr as (_ & ->); reflexivity. }
      apply processBotResponse_conversations in Hpr as (_ & Hcoe).
      destruct Hcoe as [Hcoe|(reason & Hcoe)].
      + exists c. splits; [|exact Hcid|].
        * rewrite <- Hc. apply active_conversation_of_tables. congruence.
        * unfold IsClosed. rewrite Hcs, Hopen. reflexivity.
      + exists (PauseBot reason
                  (UpdateLastMessage (InboundMessage.Content inbound)
                     (InboundMessage.Timestamp inbound) y0)).
        splits; [|reflexivity|reflexivity].
        apply (active_conversation_of_save_row _ wd w' c);
          [exact Hc|symmetry; exact Hcid|exact Hyp|reflexivity|congruence]. }
  destruct Hfinal as (c' & Hc' & Hid' & Hnc).
  eexists; exists w', c'. split; [exact Hrun|].
  cbn. splits; try assumption; reflexivity.
Qed.

End ReliablePipeline.

(** The message after the one that asked for an agent. *)
Lemma ProcessInbound_paused_conversation_stays_silent_witness :
  exists result w',
    ProcessInbound Example.env 1%N 2%N
      (Example.text_from "mock" "u1" "m2" "Xin chao")
      (snd (ProcessInbound Example.env 1%N 2%N
              (Example.text_from "mock" "u1" "m1" "cho toi gap nhan vien")
              (Example.world Example.agent_rules)))
    = (Ok result, w')
    /\ ProcessResult.BotReplied result = false
    /\ ProcessResult.ResponseSent result = None.
Proof.
  set (w1 := snd (ProcessInbound Example.env 1%N 2%N
                    (Example.text_from "mock" "u1" "m1" "cho toi gap nhan vien")
                    (Example.world Example.agent_rules))).
  assert (H : exists p c,
             participant_of 2%N "u1" w1 = Some p
             /\ active_conversation_of (Participant.ID p) w1 = Some c
             /\ IsBotPaused c = true).
  { eexists; eexists. split; [vm_compute; reflexivity|].
    split; vm_compute; reflexivity. }
  destruct H as (p & c & Hp & Hc & Hpaused).
  destruct (ProcessInbound_paused_conversation_stays_silent Example.env
              (fun n => eq_refl) 1%N 2%N
              (Example.text_from "mock" "u1" "m2" "Xin chao") w1 p c
              Hp Hc Hpaused)
    as (result & w' & m & c' & Hrun & _ & _ & Hb & _ & Hs & _).
  exists result, w'. auto.
Defined.

(** A customer asks for an agent, and writes again. *)
Lemma ProcessInbound_handoff_silences_the_next_delivery_witness :
  exists result1 w1 result2 w2,
    ProcessInbound Example.env 1%N 2%N
      (Example.text_from "mock" "u1" "m1" "cho toi gap nhan vien")
      (Example.world Example.agent_rules) = (Ok result1, w1)
    /\ ProcessResult.BotHandoff result1 = true
    /\ ProcessInbound Example.env 1%N 2%N
         (Example.text_from "mock" "u1" "m2" "nhan vien oi") w1
       = (Ok result2, w2)
    /\ ProcessResult.BotReplied result2 = false
    /\ ProcessResult.BotHandoff result2 = false.
Proof.
  assert (H : exists result1 w1,
             ProcessInbound Example.env 1%N 2%N
               (Example.text_from "mock" "u1" "m1" "cho toi gap nhan vien")
               (Example.world Example.agent_rules) = (Ok result1, w1)
             /\ ProcessResult.BotHandoff result1 = true).
  { vm_compute. eexists; eexists. split; reflexivity. }
  destruct H as (result1 & w1 & Hrun1 & Hhandoff).
  destruct (ProcessInbound_handoff_silences_the_next_delivery Example.env
              (fun n => eq_refl) 1%N 2%N
              (Example.text_from "mock" "u1" "m1" "cho toi gap nhan vien")
              (Example.text_from "mock" "u1" "m2" "nhan vien oi")
              _ _ _ Hrun1 Hhandoff eq_refl)
    as (result2 & w2 & Hrun2 & _ & _ & Hb & Hh & _).
  exists result1, w1, result2, w2. auto.
Defined.

(** A customer whose only conversation was closed writes again. *)
Lemma ProcessInbound_after_close_opens_a_new_conversation_witness :
  exists result w',
    ProcessInbound Example.env 1%N 2%N
      (Example.text_from "mock" "u1" "m9" "Xin chao")
      (World.set_conversations
         [Conversation.mk 7%N 1%N 2%N 5%N StatusClosed None PriorityNormal
            None None None ConversationMetadata.zero]
         (World.set_participants
            [Participant.mk 5%N 1%N 2%N "u1" (Some "An") None 0%Z]
            (Example.world Example.greeting_rules)))
    = (Ok result, w')
    /\ ProcessResult.ConversationCreated result = true.
Proof.
  set (p := Participant.mk 5%N 1%N 2%N "u1" (Some "An") None 0%Z).
  set (c0 := Conversation.mk 7%N 1%N 2%N 5%N StatusClosed None PriorityNormal
               None None None ConversationMetadata.zero).
  set (w := World.set_conversations [c0]
              (World.set_participants [p]
                 (Example.world Example.greeting_rules))).
  destruct (ProcessInbound_after_close_opens_a_new_conversation Example.env
              (fun n => eq_refl) 1%N 2%N
              (Example.text_from "mock" "u1" "m9" "Xin chao") w p)
    as (result & w' & c & Hrun & _ & _ & Hcreated & Hactive & Hid & Hnc).
  - vm_compute. reflexivity.
  - intros c [<-|[]] _. reflexivity.
  - exists result, w'. split; [exact Hrun|exact Hcreated].
Defined.

(* ===================================================================== *)
(** ** Where a reply is sent *)
(* ===================================================================== *)

Lemma first_by_ID_In {A : Type} (ID : A -> uuid) (rows : list A) (row : A) :
  first_by_ID ID rows = Some row -> In row rows.
Proof.
  revert row. induction rows as [|r rest IH]; intros row H; [discriminate|].
  simpl in H. destruct (first_by_ID ID rest) as [r'|].
  - destruct (ID r' <? ID r)%N; inversion H; subst.
    + right. apply IH. reflexivity.
    + left. reflexivity.
  - inversion H; subst. left. reflexivity.
Qed.

Section StepsTraced.
Context {R : World.t -> World.t -> Prop} `{!PreOrder R}.

Lemma steps_traced {A : Type} (ev : Result A -> Event) (m : M A) :
  steps R m ->
  (forall w r, R w (World.set_trace (ev r :: World.trace w) w)) ->
  steps R (traced ev m).
Proof.
  intros Hm Hev w r w' H. apply traced_inv in H as (w1 & H & ->).
  transitivity w1; [eapply Hm; exact H|apply Hev].
Qed.

End StepsTraced.

#[export] Instance routed_PreOrder (channelType : string)
    (channelAccountID : uuid) (recipientID : string) :
  PreOrder (routed channelType channelAccountID recipientID).
Proof.
  split.
  - intros w. unfold routed. splits; [reflexivity|reflexivity|].
    exists []. split; [apply extends_refl|constructor].
  - intros w w1 w2 (Hc1 & Ha1 & evs1 & He1 & Hr1) (Hc2 & Ha2 & evs2 & He2 & Hr2).
    unfold routed. splits; [congruence|congruence|].
    exists (evs2 ++ evs1)%list. split; [eapply extends_trans; eassumption|].
    apply Forall_app. split; [|exact Hr1].
    rewrite Hc1, Ha1 in Hr2. exact Hr2.
Qed.

Section Routing.
Context (channelType : string) (channelAccountID : uuid)
  (recipientID : string).

Lemma routed_same (w w' : World.t) :
  World.channels w' = World.channels w ->
  World.channel_accounts w' = World.channel_accounts w ->
  World.trace w' = World.trace w ->
  routed channelType channelAccountID recipientID w w'.
Proof.
  intros Hc Ha Ht. unfold routed. splits; [exact Hc|exact Ha|].
  exists []. split; [exact Ht|constructor].
Qed.

Lemma routed_other (w : World.t) (e : Event) :
  match e with EvSend _ _ _ _ => False | _ => True end ->
  routed channelType channelAccountID recipientID w
    (World.set_trace (e :: World.trace w) w).
Proof.
  intros He. unfold routed. splits; [reflexivity|reflexivity|].
  exists [e]. split; [reflexivity|].
  repeat constructor. destruct e; try exact I. destruct He.
Qed.

Lemma routed_Send (w w1 : World.t) (ch : Channel) (msg : OutboundMessage.t)
    (a : ChannelAccount.t) (r : Result SendResult.t) :
  routed channelType channelAccountID recipientID w w1 ->
  Registry_Get (World.channels w) channelType = Ok ch ->
  OutboundMessage.RecipientID msg = recipientID ->
  In a (World.channel_accounts w) ->
  ChannelAccount.ID a = channelAccountID ->
  routed channelType channelAccountID recipientID w
    (World.set_trace (EvSend ch msg (credentials_of a) r :: World.trace w1) w1).
Proof.
  intros (Hc & Ha & evs & He & Hr) Hch Hm Hin Hid.
  unfold routed. splits; [exact Hc|exact Ha|].
  exists (EvSend ch msg (credentials_of a) r :: evs). split.
  - unfold extends in *. simpl. rewrite He. reflexivity.
  - constructor; [|exact Hr]. simpl. splits; [exact Hch|exact Hm|].
    exists a. auto.
Qed.

End Routing.

Ltac route_update :=
  intros;
  first
    [ apply routed_same; reflexivity
    | apply routed_other; exact I ].

Ltac route_steps_with known :=
  repeat first
    [ known
    | apply steps_ret
    | apply steps_fail
    | apply steps_get_world
    | apply steps_time_Now
    | apply steps_try
    | apply steps_db_exec; route_update
    | apply steps_uuid_New_; route_update
    | apply steps_modify; route_update
    | apply steps_emit; route_update
    | apply steps_traced; [|route_update]
    | apply steps_bind; [|intros ?]
    | assumption
    | match goal with
      | |- steps _ (match ?x with _ => _ end) => destruct x
      | |- steps _ (let '(_, _) := ?x in _) => destruct x
      end ].

Ltac route_steps := route_steps_with fail.

Section RoutedPipeline.
Context (E : Env).

Lemma channelAccountRepo_FindByID_found (id : uuid) (w w' : World.t)
    (a : ChannelAccount.t) :
  channelAccountRepo_FindByID E id w = (Ok a, w') ->
  In a (World.channel_accounts w) /\ ChannelAccount.ID a = id.
Proof.
  unfold channelAccountRepo_FindByID. intros H.
  apply bind_inv in H as [([] & w1 & Hdb & H)|(e & _ & Hd)]; [|discriminate].
  rewrite bind_get_world in H.
  assert (Hw1 : World.channel_accounts w1 = World.channel_accounts w).
  { unfold db_exec in Hdb.
    destruct (db_fails E (World.db_statements w)); inversion Hdb; subst;
      reflexivity. }
  destruct (first_by_ID _ _) as [a'|] eqn:Hfirst; [|discriminate].
  inversion H; subst a' w'. apply first_by_ID_In in Hfirst.
  apply list_elem_of_In, list_elem_of_filter in Hfirst as (Hid & Hin).
  rewrite Hw1 in Hin. split; [apply list_elem_of_In; exact Hin|].
  apply N.eqb_eq. exact Hid.
Qed.

(** The response of the responder is addressed to the recipient it was
    called for. *)
Lemma Process_response_recipient (workspaceID : uuid)
    (recipientID content : string) (w w' : World.t) (b : BotResponse.t)
    (response : OutboundMessage.t) :
  Process E workspaceID recipientID content w = (Ok b, w') ->
  BotResponse.Response b = Some response ->
  OutboundMessage.RecipientID response = recipientID.
Proof.
  intros H Hresp.
  destruct (Process_cases E workspaceID recipientID content w)
    as (r & w2 & Hrun & Hcases).
  rewrite Hrun in H. inversion H; subst r. clear H.
  destruct (db_fails E (World.db_statements w)).
  - destruct Hcases as (Hd & _). discriminate.
  - destruct (MatchResult.Rule_ _) as [rule|].
    + destruct Hcases as (Hb & _). inversion Hb; subst b. simpl in Hresp.
      destruct (IsHandoffResponse rule && _); inversion Hresp. reflexivity.
    + destruct Hcases as (Hb & _). inversion Hb; subst b. discriminate.
Qed.

Section OneDelivery.
Context (workspaceID channelAccountID : uuid) (inbound : InboundMessage.t).

Lemma Process_routed (recipientID content : string) :
  steps (routed (InboundMessage.ChannelType inbound) channelAccountID
       (InboundMessage.SenderID inbound))
    (Process E workspaceID recipientID content).
Proof.
  unfold Process, ruleRepo_FindActiveByWorkspace, ruleRepo_IncrementHitCount, log.
  cbv zeta. route_steps.
Qed.

Lemma Channel_Send_body_routed (ch : Channel) (msg : OutboundMessage.t)
    (credentials : gmap string string) :
  steps (routed (InboundMessage.ChannelType inbound) channelAccountID
       (InboundMessage.SenderID inbound))
    (match ch with
     | FacebookChannel => FacebookChannel_Send E msg credentials
     | MockChannel => MockChannel_Send msg credentials
     end).
Proof.
  destruct ch; unfold FacebookChannel_Send, MockChannel_Send, log; cbv zeta;
    route_steps.
Qed.

Lemma processBotResponse_send_routed (response : OutboundMessage.t)
    (outboundMsg : Message.t) (ShouldHandoff : bool) :
  OutboundMessage.RecipientID response = InboundMessage.SenderID inbound ->
  steps (routed (InboundMessage.ChannelType inbound) channelAccountID
       (InboundMessage.SenderID inbound))
    (processBotResponse_send E channelAccountID inbound response outboundMsg
       ShouldHandoff).
Proof.
  intros Hrcp w r w' H. unfold processBotResponse_send in H.
  rewrite bind_get_world in H.
  destruct (Registry_Get (World.channels w) (InboundMessage.ChannelType inbound))
    as [ch|err] eqn:Hch.
  2:{ inversion H; subst. reflexivity. }
  apply bind_try_inv in H as (a0 & w1 & Ha & H).
  assert (Hw1 : routed (InboundMessage.ChannelType inbound) channelAccountID
                  (InboundMessage.SenderID inbound) w w1).
  { eapply (steps_elim _); [|exact Ha].
    unfold channelAccountRepo_FindByID. route_steps. }
  destruct a0 as [a|err].
  2:{ transitivity w1; [exact Hw1|]. eapply (steps_elim _); [|exact H].
      unfold log. route_steps. }
  apply channelAccountRepo_FindByID_found in Ha as (Hin & Hid).
  cbv zeta in H. fold (credentials_of a) in H.
  apply bind_try_inv in H as (s0 & w2 & Hs & H).
  unfold Channel_Send in Hs. apply traced_inv in Hs as (w1' & Hs & ->).
  assert (Hw2 : routed (InboundMessage.ChannelType inbound) channelAccountID
                  (InboundMessage.SenderID inbound) w
                  (World.set_trace
                     (EvSend ch response (credentials_of a) s0
                      :: World.trace w1') w1')).
  { apply routed_Send; try assumption.
    transitivity w1; [exact Hw1|].
    eapply (steps_elim _); [apply Channel_Send_body_routed|exact Hs]. }
  etransitivity; [exact Hw2|]. eapply (steps_elim _); [|exact H].
  unfold messageRepo_Update, log. route_steps.
Qed.

Lemma processBotResponse_routed (conv : Conversation.t)
    (inboundMsg : Message.t) :
  steps (routed (InboundMessage.ChannelType inbound) channelAccountID
       (InboundMessage.SenderID inbound))
    (processBotResponse E workspaceID channelAccountID conv inbound inboundMsg).
Proof.
  intros w r w' H. unfold processBotResponse in H.
  apply bind_inv in H as [(botResponse & w1 & Hp & H)|(e & Hp & _)].
  2:{ eapply (steps_elim _); [apply Process_routed|exact Hp]. }
  transitivity w1; [eapply (steps_elim _); [apply Process_routed|exact Hp]|].
  pose proof (fun response =>
                Process_response_recipient _ _ _ _ _ _ response Hp) as Hrcp.
  eapply (steps_elim _); [|exact H].
  apply steps_bind.
  { unfold processBotResponse_handoff, conversationRepo_Update, log.
    route_steps. }
  intros sh. destruct (BotResponse.ShouldReply botResponse);
    [destruct (BotResponse.Response botResponse) as [response|]|];
    try apply steps_ret.
  specialize (Hrcp response eq_refl).
  unfold processBotResponse_reply, messageRepo_Create, BeforeCreate, log.
  route_steps_with ltac:(apply processBotResponse_send_routed; exact Hrcp).
Qed.

Lemma ProcessInbound_routed :
  steps (routed (InboundMessage.ChannelType inbound) channelAccountID
       (InboundMessage.SenderID inbound))
    (ProcessInbound E workspaceID channelAccountID inbound).
Proof.
  unfold ProcessInbound, findOrCreateParticipant, participantRepo_FindOrCreate,
    participantRepo_FindByChannelUserID, participantRepo_Create,
    findOrCreateConversation, conversationRepo_FindOrCreate,
    conversationRepo_FindOpenByParticipant, conversationRepo_Create,
    saveMessage, messageRepo_Create, updateConversationLastMessage,
    conversationRepo_Update, ProcessInbound_bot, BeforeCreate, log.
  cbv zeta.
  route_steps_with ltac:(apply processBotResponse_routed).
Qed.

(** X25: Every call of [Send] in a run of [ProcessInbound] is made on the
    adapter registered for the channel type of the inbound message, with
    a message addressed to its sender and the credentials of the channel
    account it arrived on; with no adapter registered for the type, or
    no such channel account, there is no call. *)
Theorem ProcessInbound_replies_on_the_inbound_channel (w w' : World.t)
    (r : Result ProcessResult.t) (evs : list Event) (ch : Channel)
    (msg : OutboundMessage.t) (credentials : gmap string string)
    (sres : Result SendResult.t) :
  ProcessInbound E workspaceID channelAccountID inbound w = (r, w') ->
  extends w evs w' ->
  In (EvSend ch msg credentials sres) evs ->
  Registry_Get (World.channels w) (InboundMessage.ChannelType inbound) = Ok ch
  /\ OutboundMessage.RecipientID msg = InboundMessage.SenderID inbound
  /\ exists a,
       In a (World.channel_accounts w)
       /\ ChannelAccount.ID a = channelAccountID
       /\ credentials = credentials_of a.
Proof.
  intros Hrun Hext Hin.
  destruct (ProcessInbound_routed _ _ _ Hrun) as (_ & _ & evs' & Hext' & Hr).
  rewrite (extends_inj _ _ _ _ Hext Hext') in Hin.
  rewrite Forall_forall in Hr.
  apply (Hr (EvSend ch msg credentials sres)).
  apply list_elem_of_In. exact Hin.
Qed.

End OneDelivery.
End RoutedPipeline.

(** The greeting of sender "u1" on the mock account is answered on the
    mock adapter. *)
Lemma ProcessInbound_replies_on_the_inbound_channel_witness :
  exists msg credentials sres,
    In (EvSend MockChannel msg credentials sres)
      (World.trace
         (snd (ProcessInbound Example.env 1%N 2%N
                 (Example.text_from "mock" "u1" "m1" "Xin chao")
                 (Example.world Example.greeting_rules))))
    /\ OutboundMessage.RecipientID msg = "u1".
Proof.
  pose (w := Example.world Example.greeting_rules).
  pose (run := ProcessInbound Example.env 1%N 2%N
                 (Example.text_from "mock" "u1" "m1" "Xin chao") w).
  assert (Hrun : ProcessInbound Example.env 1%N 2%N
                   (Example.text_from "mock" "u1" "m1" "Xin chao") w
                 = (fst run, snd run))
    by (vm_compute; reflexivity).
  assert (Hext : extends w (World.trace (snd run)) (snd run))
    by (vm_compute; reflexivity).
  assert (Hin : exists msg credentials sres,
             In (EvSend MockChannel msg credentials sres)
               (World.trace (snd run))).
  { vm_compute. do 3 eexists. in_trace. }
  destruct Hin as (msg & credentials & sres & Hin).
  destruct (ProcessInbound_replies_on_the_inbound_channel Example.env
              _ _ _ _ _ _ _ _ _ _ _ Hrun Hext Hin) as (_ & Hrcp & _).
  exists msg, credentials, sres. split; [exact Hin|exact Hrcp].
Defined.

(* ===================================================================== *)
(** ** The agent's message on its way to the channel *)
(* ===================================================================== *)

Section AgentSend.
Context (E : Env).

Lemma participantRepo_FindByID_found (id : uuid) (w w' : World.t)
    (p : Participant.t) :
  participantRepo_FindByID E id w = (Ok p, w') ->
  In p (World.participants w) /\ Participant.ID p = id.
Proof.
  unfold participantRepo_FindByID. intros H.
  apply bind_inv in H as [([] & w1 & Hdb & H)|(e & _ & Hd)]; [|discriminate].
  rewrite bind_get_world in H.
  assert (Hw1 : World.participants w1 = World.participants w).
  { unfold db_exec in Hdb.
    destruct (db_fails E (World.db_statements w)); inversion Hdb; subst;
      reflexivity. }
  destruct (first_by_ID _ _) as [p'|] eqn:Hfirst; [|discriminate].
  inversion H; subst p' w'. apply first_by_ID_In in Hfirst.
  apply list_elem_of_In, list_elem_of_filter in Hfirst as (Hid & Hin).
  rewrite Hw1 in Hin. split; [apply list_elem_of_In; exact Hin|].
  apply N.eqb_eq. exact Hid.
Qed.

Lemma participantRepo_FindByID_frame (id : uuid) :
  steps (fun w w' =>
           undisturbed w w'
           /\ keeps World.channels w w'
           /\ keeps World.channel_accounts w w')
    (participantRepo_FindByID E id).
Proof.
  frame_start; unfold participantRepo_FindByID; frame_steps.
Qed.

Lemma channelAccountRepo_FindByID_static (id : uuid) :
  steps (fun w w' =>
           undisturbed w w'
           /\ keeps World.channels w w'
           /\ keeps World.channel_accounts w w')
    (channelAccountRepo_FindByID E id).
Proof.
  frame_start; unfold channelAccountRepo_FindByID; frame_steps.
Qed.

(** X26: sendToChannel returns no error, whatever fails; it writes to no
    table but the messages. A call of [Send] it makes is made on the
    adapter registered for the channel type of the conversation's channel
    account, with the conversation's participant as the recipient, the
    content of the message, and the page access token of the account as
    the only credential. The messages are written only after a [Send]
    that reported success, and then the provider's id is saved on the
    message, an empty one too. *)
Theorem sendToChannel_sends_to_the_participant (conv : Conversation.t)
    (msg : Message.t) (w w' : World.t) (r : Result unit)
    (evs : list Event) :
  sendToChannel E conv msg w = (r, w') ->
  extends w evs w' ->
  r = Ok tt
  /\ World.participants w' = World.participants w
  /\ World.conversations w' = World.conversations w
  /\ (forall ch out cr sres,
        In (EvSend ch out cr sres) evs ->
        exists p a,
          In p (World.participants w)
          /\ Participant.ID p = Conversation.ParticipantID conv
          /\ In a (World.channel_accounts w)
          /\ ChannelAccount.ID a = Conversation.ChannelAccountID conv
          /\ Registry_Get (World.channels w) (ChannelAccount.ChannelType a)
             = Ok ch
          /\ OutboundMessage.RecipientID out = Participant.ChannelUserID p
          /\ OutboundMessage.Content out = default "" (Message.Content msg)
          /\ cr = <["page_access_token" :=
                      ChannelCredentials.PageAccessToken
                        (ChannelAccount.Credentials a)]> ∅)
  /\ (World.messages w' = World.messages w
      \/ exists ch out cr sr,
           In (EvSend ch out cr (Ok sr)) evs
           /\ SendResult.Success sr = true
           /\ World.messages w'
              = save_row Message.ID
                  (Message.with_ChannelMessageID
                     (Some (SendResult.ChannelMessageID sr)) msg)
                  (World.messages w)).
Proof.
  intros H Hext. unfold sendToChannel in H.
  apply bind_try_inv in H as (p0 & w1 & Hp & H).
  pose proof (steps_elim _ _ _ _ _ (participantRepo_FindByID_frame _) Hp)
    as (((evs1 & He1 & Hq1) & Hpa1 & Hco1 & Hme1) & Hch1 & Hac1).
  unfold keeps in *.
  destruct p0 as [p|err].
  2:{ inversion H; subst r w'. clear H.
      assert (Hevs : evs
                     = EvLog "warn" "sendToChannel: failed to get participant"
                       :: evs1).
      { apply (extends_inj w (World.set_trace
                                (EvLog "warn"
                                   "sendToChannel: failed to get participant"
                                 :: World.trace w1) w1)); [exact Hext|].
        unfold extends in *. simpl. rewrite He1. reflexivity. }
      subst evs. simpl. splits; auto.
      intros ch out cr sres Hin. in_segments Hin; [discriminate|not_in_quiet]. }
  apply participantRepo_FindByID_found in Hp as (Hinp & Hidp).
  apply bind_try_inv in H as (a0 & w2 & Ha & H).
  pose proof (steps_elim _ _ _ _ _ (channelAccountRepo_FindByID_static _) Ha)
    as (((evs2 & He2 & Hq2) & Hpa2 & Hco2 & Hme2) & Hch2 & Hac2).
  unfold keeps in *.
  destruct a0 as [a|err].
  2:{ inversion H; subst r w'. clear H.
      assert (Hevs : evs
                     = EvLog "warn"
                         "sendToChannel: failed to get channel account"
                       :: (evs2 ++ evs1)%list).
      { apply (extends_inj w (World.set_trace
                                (EvLog "warn"
                                   "sendToChannel: failed to get channel account"
                                 :: World.trace w2) w2)); [exact Hext|].
        unfold extends in *. simpl. rewrite He2, He1, app_assoc. reflexivity. }
      subst evs. simpl. splits; try congruence; try (left; congruence).
      intros ch out cr sres Hin.
      in_segments Hin; [discriminate|not_in_quiet|not_in_quiet]. }
  apply channelAccountRepo_FindByID_found in Ha as (Hina & Hida).
  rewrite Hac1 in Hina.
  rewrite bind_get_world in H.
  destruct (Registry_Get (World.channels w2) (ChannelAccount.ChannelType a))
    as [ch|err] eqn:Hget.
  2:{ inversion H; subst r w'. clear H.
      assert (Hevs : evs
                     = EvLog "warn" "sendToChannel: channel not found"
                       :: (evs2 ++ evs1)%list).
      { apply (extends_inj w (World.set_trace
                                (EvLog "warn" "sendToChannel: channel not found"
                                 :: World.trace w2) w2)); [exact Hext|].
        unfold extends in *. simpl. rewrite He2, He1, app_assoc. reflexivity. }
      subst evs. simpl. splits; try congruence; try (left; congruence).
      intros ch out cr sres Hin.
      in_segments Hin; [discriminate|not_in_quiet|not_in_quiet]. }
  rewrite Hch2, Hch1 in Hget.
  cbv zeta in H.
  match type of H with
  | context [Channel_Send E ch ?o ?c] =>
      set (outbound := o) in H; set (credentials := c) in H
  end.
  apply bind_try_inv in H as (s0 & w3 & Hs & H).
  apply Channel_Send_run in Hs
    as (sr & w3' & -> & ((evs3 & He3 & Hq3) & Hpa3 & Hco3 & Hme3) & ->).
  unfold keeps in *.
  assert (Htail : r = Ok tt
                  /\ exists evs4,
                       World.trace w'
                       = (evs4 ++ EvSend ch outbound credentials (Ok sr)
                                  :: World.trace w3')%list
                       /\ Forall (fun e => watched e = false) evs4
                       /\ World.participants w' = World.participants w3'
                       /\ World.conversations w' = World.conversations w3'
                       /\ (World.messages w' = World.messages w3'
                           \/ SendResult.Success sr = true
                              /\ World.messages w'
                                 = save_row Message.ID
                                     (Message.with_ChannelMessageID
                                        (Some (SendResult.ChannelMessageID sr))
                                        msg)
                                     (World.messages w3'))).
  { destruct (SendResult.Success sr) eqn:Hsucc.
    - apply bind_try_inv in H as (u & w4 & Hu & H).
      assert (Hw4 : World.trace w4
                    = EvSend ch outbound credentials (Ok sr) :: World.trace w3'
                    /\ World.participants w4 = World.participants w3'
                    /\ World.conversations w4 = World.conversations w3'
                    /\ (World.messages w4 = World.messages w3'
                        \/ World.messages w4
                           = save_row Message.ID
                               (Message.with_ChannelMessageID
                                  (Some (SendResult.ChannelMessageID sr)) msg)
                               (World.messages w3'))).
      { unfold messageRepo_Update, bind, db_exec, modify in Hu.
        simpl in Hu.
        destruct (db_fails E (World.db_statements w3')); inversion Hu; subst;
          simpl; auto. }
      destruct Hw4 as (Ht4 & Hp4 & Hc4 & Hm4).
      destruct u as [[]|err]; inversion H; subst r w'; clear H;
        (split; [reflexivity|]).
      + exists []. simpl. splits; try assumption; [constructor|].
        destruct Hm4; auto.
      + exists [EvLog "warn" "sendToChannel: failed to update message ID"].
        simpl. rewrite Ht4. splits; try assumption; try reflexivity.
        * repeat constructor.
        * destruct Hm4; auto.
    - inversion H; subst r w'. clear H. split; [reflexivity|].
      exists [EvLog "warn" "sendToChannel: channel returned error"].
      simpl. splits; try reflexivity; [repeat constructor|]. left. reflexivity. }
  destruct Htail as (-> & evs4 & He4 & Hq4 & Hpa4 & Hco4 & Hme4).
  assert (Hevs : evs
                 = (evs4 ++ EvSend ch outbound credentials (Ok sr)
                    :: evs3 ++ evs2 ++ evs1)%list).
  { apply (extends_inj w w'); [exact Hext|].
    unfold extends in *. rewrite He4, He3, He2, He1.
    rewrite <- !app_assoc. simpl. rewrite <- !app_assoc. reflexivity. }
  subst evs. splits; try congruence.
  - intros ch' out cr sres Hin. in_segments Hin; try not_in_quiet.
    inversion Hin; subst ch' out cr sres. exists p, a.
    splits; try assumption; reflexivity.
  - destruct Hme4 as [Hme4|(Hsucc & Hme4)].
    + left. congruence.
    + right. exists ch, outbound, credentials, sr. splits; [|exact Hsucc|].
      * apply in_or_app. right. left. reflexivity.
      * rewrite Hme4. congruence.
Qed.

End AgentSend.

(** An agent answers the customer "u1" of the mock account. *)
Lemma sendToChannel_sends_to_the_participant_witness :
  exists out cr sres,
    In (EvSend MockChannel out cr sres)
      (World.trace
         (snd (sendToChannel Example.env
                 (Conversation.mk 7%N 1%N 2%N 5%N StatusOpen None
                    PriorityNormal None None None ConversationMetadata.zero)
                 (Message.mk 9%N 7%N DirectionOut SenderAgent
                    (Some "Chao ban") ContentText [] None MessageMetadata.zero)
                 (World.set_participants
                    [Participant.mk 5%N 1%N 2%N "u1" (Some "An") None 0%Z]
                    (Example.world [])))))
    /\ OutboundMessage.RecipientID out = "u1"
    /\ OutboundMessage.Content out = "Chao ban".
Proof.
  pose (conv := Conversation.mk 7%N 1%N 2%N 5%N StatusOpen None
                  PriorityNormal None None None ConversationMetadata.zero).
  pose (msg := Message.mk 9%N 7%N DirectionOut SenderAgent
                 (Some "Chao ban") ContentText [] None MessageMetadata.zero).
  pose (w := World.set_participants
               [Participant.mk 5%N 1%N 2%N "u1" (Some "An") None 0%Z]
               (Example.world [])).
  pose (run := sendToChannel Example.env conv msg w).
  assert (Hrun : sendToChannel Example.env conv msg w = (fst run, snd run))
    by (vm_compute; reflexivity).
  assert (Hext : extends w (World.trace (snd run)) (snd run))
    by (vm_compute; reflexivity).
  assert (Hin : exists out cr sres,
             In (EvSend MockChannel out cr sres) (World.trace (snd run))).
  { vm_compute. do 3 eexists. in_trace. }
  destruct Hin as (out & cr & sres & Hin).
  destruct (sendToChannel_sends_to_the_participant Example.env
              _ _ _ _ _ _ Hrun Hext) as (_ & _ & _ & Hsend & _).
  destruct (Hsend _ _ _ _ Hin)
    as (p & a & Hinp & _ & _ & _ & _ & Hrcp & Hcontent & _).
  exists out, cr, sres. splits; [exact Hin| |exact Hcontent].
  rewrite Hrcp. destruct Hinp as [<-|[]]. reflexivity.
Defined.

(* ===================================================================== *)
(** ** The provider's message id *)
(* ===================================================================== *)

Section ChannelMessageID.
Context (E : Env) (Hreliable : reliable E).

(** X27: With a database that answers, an inbound message that was saved with
    a provider id is found by it: FindByChannelMessageID returns a row
    with this provider id, and returns the saved row itself when no
    earlier row carries the id. *)
Theorem saveMessage_then_FindByChannelMessageID (conversationID : uuid)
    (inbound : InboundMessage.t) (w w1 : World.t) (m : Message.t) :
  InboundMessage.ChannelMessageID inbound <> "" ->
  saveMessage E conversationID inbound w = (Ok m, w1) ->
  exists m' w2,
    messageRepo_FindByChannelMessageID E
      (InboundMessage.ChannelMessageID inbound) w1 = (Ok m', w2)
    /\ Message.ChannelMessageID m'
       = Some (InboundMessage.ChannelMessageID inbound)
    /\ ((forall m0, In m0 (World.messages w) ->
                    Message.ChannelMessageID m0
                    <> Some (InboundMessage.ChannelMessageID inbound)) ->
        m' = m).
Proof.
  intros Hid Hsave.
  apply saveMessage_row in Hsave as (Hrows & _ & _ & _ & _ & Hmid).
  apply String.eqb_neq in Hid. rewrite Hid in Hmid.
  unfold messageRepo_FindByChannelMessageID.
  rewrite (bind_ok _ _ _ _ _ (db_exec_reliable E Hreliable w1)), bind_get_world.
  change (World.messages
            (World.set_db_statements (S (World.db_statements w1)) w1))
    with (World.messages w1).
  rewrite Hrows, filter_app, filter_cons, filter_nil.
  destruct (decide _) as [_|Hn]; [|destruct (Hn Hmid)].
  destruct (first_by_ID Message.ID _) as [m'|] eqn:Hfirst.
  2:{ apply first_by_ID_None in Hfirst.
      destruct (filter _ (World.messages w)); discriminate. }
  exists m'. eexists. split; [reflexivity|].
  pose proof (first_by_ID_In _ _ _ Hfirst) as Hin.
  apply in_app_or in Hin as [Hin|[<-|[]]].
  - apply list_elem_of_In, list_elem_of_filter in Hin as (Hm' & Hin).
    split; [exact Hm'|]. intros Hnew.
    destruct (Hnew m' (proj1 (list_elem_of_In _ _) Hin) Hm').
  - split; [exact Hmid|]. reflexivity.
Qed.

End ChannelMessageID.

(** The first message of "u1", with provider id "m1". *)
Lemma saveMessage_then_FindByChannelMessageID_witness :
  exists m w1 w2,
    saveMessage Example.env 7%N (Example.text_from "mock" "u1" "m1" "Xin chao")
      (Example.world []) = (Ok m, w1)
    /\ messageRepo_FindByChannelMessageID Example.env "m1" w1 = (Ok m, w2).
Proof.
  assert (H : exists m w1,
             saveMessage Example.env 7%N
               (Example.text_from "mock" "u1" "m1" "Xin chao")
               (Example.world []) = (Ok m, w1)).
  { vm_compute. eexists; eexists; reflexivity. }
  destruct H as (m & w1 & Hsave).
  destruct (saveMessage_then_FindByChannelMessageID Example.env
              (fun n => eq_refl) 7%N
              (Example.text_from "mock" "u1" "m1" "Xin chao")
              (Example.world []) w1 m) as (m' & w2 & Hfind & _ & Hsame).
  - discriminate.
  - exact Hsave.
  - exists m, w1, w2. split; [exact Hsave|].
    rewrite <- (Hsame (fun m0 (Hin : In m0 []) => match Hin with end)).
    exact Hfind.
Defined.
